(** * csw-to-stac: catalog assembly and classification engine

    A shallow embedding of the Python sources under [src/csw2stac]
    ([utils.py], [stac.py], [csw_to_stac.py], [assets.py]) together
    with the properties of the specification that concern them.

    Conventions of the embedding:
    - a Python [str] is a list of Unicode code points ([pystr]);
    - a Python [dict] used as a record ([metadata]) is a [gmap] from field
      names to Python values ([pyval]);
    - a function that may raise returns a [result];
    - everything the program obtains from outside (the network, the clock,
      the [dateutil] parser, the local time zone) is a field of [Env] or,
      for the tests of the links of a record, of [Probes]. *)

From Stdlib Require Import ZArith NArith QArith Lia Bool List.
From Stdlib Require Import Strings.String Strings.Ascii DecimalString.
From stdpp Require Import base decidable option list strings gmap.

Set Default Proof Using "Type".
Set Warnings "-register-all".

Local Open Scope Z_scope.

(** ** Exceptions and results *)

Inductive exn : Type :=
  | ValueError
  | TypeError
  | KeyError
  | IndexError
  | OverflowError
  | AttributeError
  | UnboundLocalError.

Inductive result (A : Type) : Type :=
  | Ok (a : A)
  | Raise (e : exn).
Arguments Ok {A} a.
Arguments Raise {A} e.

Definition rbind {A B} (m : result A) (k : A -> result B) : result B :=
  match m with
  | Ok a => k a
  | Raise e => Raise e
  end.

Declare Scope py_scope.
Delimit Scope py_scope with py.
Notation "'let!' x ':=' m 'in' k" := (rbind m (fun x => k))
  (at level 10, x pattern, m at level 100, k at level 200) : py_scope.
Local Open Scope py_scope.

(** ** Python strings *)

(** A [str] is a sequence of code points. *)
Definition pystr : Type := list N.

(** ASCII literals of the source. *)
Definition ustr (s : string) : pystr :=
  List.map N_of_ascii (list_ascii_of_string s).

(** [s.startswith(p)] *)
Fixpoint startswith (p s : pystr) {struct s} : bool :=
  match p, s with
  | [], _ => true
  | _ :: _, [] => false
  | a :: p', b :: s' => (a =? b)%N && startswith p' s'
  end.

(** [s.endswith(p)] *)
Definition endswith (p s : pystr) : bool :=
  startswith (rev p) (rev s).

(** [p in s] on two strings *)
Fixpoint contains (p s : pystr) : bool :=
  startswith p s ||
  match s with
  | [] => false
  | _ :: s' => contains p s'
  end.

(** [s.replace(old, new)] for a non-empty [old]: occurrences are found
    from the left and do not overlap.  [skip] counts the characters of
    the occurrence being replaced that are still to be dropped. *)
Fixpoint replace_from (old new : pystr) (skip : nat) (s : pystr) : pystr :=
  match s with
  | [] => []
  | c :: s' =>
      match skip with
      | S k => replace_from old new k s'
      | O =>
          if startswith old s
          then new ++ replace_from old new (Nat.pred (length old)) s'
          else c :: replace_from old new 0 s'
      end
  end.

Definition replace (old new s : pystr) : pystr := replace_from old new 0 s.

(** Lexicographic order on code points: Python's [<] on two strings. *)
Fixpoint pystr_ltb (a b : pystr) : bool :=
  match a, b with
  | [], [] => false
  | [], _ :: _ => true
  | _ :: _, [] => false
  | x :: a', y :: b' =>
      if (x <? y)%N then true
      else if (y <? x)%N then false
      else pystr_ltb a' b'
  end.

Definition pystr_eqb (a b : pystr) : bool := bool_decide (a = b).

(** *** Character classes of the Unicode database

    [str.isspace] (the class [\s] of [re] on [str] patterns) is listed in
    full.  [py_isalnum] (which with the underscore makes the class [\w]),
    [py_isdecimal] (the class [\d]) and [py_lower] ([str.lower], one code
    point at a time) are exact on U+0000..U+00FF and on U+0130 and U+0307;
    the statements below that depend on them say which code points they
    range over. *)

Definition in_range (lo hi c : N) : bool := ((lo <=? c) && (c <=? hi))%N.

Definition py_isspace (c : N) : bool :=
  in_range 9 13 c || in_range 28 32 c || (c =? 133)%N || (c =? 160)%N ||
  (c =? 5760)%N || in_range 8192 8202 c || in_range 8232 8233 c ||
  (c =? 8239)%N || (c =? 8287)%N || (c =? 12288)%N.

Definition py_isdecimal (c : N) : bool := in_range 48 57 c.

Definition py_isalnum (c : N) : bool :=
  in_range 48 57 c || in_range 65 90 c || in_range 97 122 c ||
  (c =? 170)%N || in_range 178 179 c || (c =? 181)%N ||
  in_range 185 186 c || in_range 188 190 c ||
  in_range 192 214 c || in_range 216 246 c || in_range 248 255 c ||
  (c =? 304)%N.

(** [\w] *)
Definition re_word (c : N) : bool := py_isalnum c || (c =? 95)%N.

Definition py_lower_char (c : N) : pystr :=
  if in_range 65 90 c || in_range 192 214 c || in_range 216 222 c
  then [(c + 32)%N]
  else if (c =? 304)%N then [105%N; 775%N]
  else [c].

(** [s.lower()] *)
Definition py_lower (s : pystr) : pystr := flat_map py_lower_char s.

(** ** [Utils.custom_slugify] *)

(** [re.sub('[cls]+', repl, s)]: every maximal run of characters of the
    class is replaced by [repl].  [in_run] tells that the previous
    character belonged to a run that has already been replaced. *)
Fixpoint re_sub_class_plus (cls : N -> bool) (repl : pystr) (in_run : bool)
    (s : pystr) : pystr :=
  match s with
  | [] => []
  | c :: s' =>
      if cls c
      then (if in_run then [] else repl) ++ re_sub_class_plus cls repl true s'
      else c :: re_sub_class_plus cls repl false s'
  end.

(** [re.sub(r'\.(\d)', r'.\1', s)]: a dot followed by a digit is replaced
    by a dot followed by that digit. *)
Fixpoint re_sub_dot_digit (s : pystr) : pystr :=
  match s with
  | [] => []
  | c :: s' =>
      match s' with
      | d :: s'' =>
          if (c =? 46)%N && py_isdecimal d
          then 46%N :: d :: re_sub_dot_digit s''
          else c :: re_sub_dot_digit s'
      | [] => [c]
      end
  end.

(** [re.sub('[^cls]', '', s)]: the characters outside the class are
    deleted. *)
Definition re_sub_not_class_empty (cls : N -> bool) (s : pystr) : pystr :=
  List.filter cls s.

(** The class [[-\s]]. *)
Definition hyphen_or_space (c : N) : bool := (c =? 45)%N || py_isspace c.

(** The class [[\w\s.-]]. *)
Definition slug_keep (c : N) : bool :=
  re_word c || py_isspace c || (c =? 46)%N || (c =? 45)%N.

Definition custom_slugify_sep (text separator : pystr) : pystr :=
  let text := re_sub_class_plus hyphen_or_space separator false text in
  let text := re_sub_dot_digit text in
  let text := re_sub_not_class_empty slug_keep text in
  py_lower text.

(** The default separator is the underscore. *)
Definition custom_slugify (text : pystr) : pystr :=
  custom_slugify_sep text (ustr "_").

(** ** Regular expressions of [re]

    The patterns of [Utils.get_media_type] are only used through
    [re.search], whose answer is whether some substring of the text
    belongs to the language of the pattern.  Patterns are kept as syntax
    trees and searched with derivatives. *)

Inductive regex : Type :=
  | RNull                          (* matches nothing *)
  | REps                           (* the empty string *)
  | RChar (c : N)                  (* a literal character *)
  | RAny                           (* [.]: any character but a newline *)
  | RSet (ranges : list (N * N))   (* [[a-z...]] *)
  | RSeq (r1 r2 : regex)
  | RAlt (r1 r2 : regex)
  | RStar (r : regex).

(** [r?], [r+] and a literal run of characters. *)
Definition ROpt (r : regex) : regex := RAlt r REps.
Definition RPlus (r : regex) : regex := RSeq r (RStar r).
Definition RLit (s : pystr) : regex :=
  fold_right (fun c r => RSeq (RChar c) r) REps s.
Definition RCat (rs : list regex) : regex := fold_right RSeq REps rs.

Definition in_ranges (ranges : list (N * N)) (c : N) : bool :=
  existsb (fun '(lo, hi) => in_range lo hi c) ranges.

Fixpoint nullable (r : regex) : bool :=
  match r with
  | RNull => false
  | REps => true
  | RChar _ => false
  | RAny => false
  | RSet _ => false
  | RSeq r1 r2 => nullable r1 && nullable r2
  | RAlt r1 r2 => nullable r1 || nullable r2
  | RStar _ => true
  end.

Definition mk_seq (r1 r2 : regex) : regex :=
  match r1 with
  | RNull => RNull
  | REps => r2
  | _ => match r2 with RNull => RNull | _ => RSeq r1 r2 end
  end.

Definition mk_alt (r1 r2 : regex) : regex :=
  match r1 with
  | RNull => r2
  | _ => match r2 with RNull => r1 | _ => RAlt r1 r2 end
  end.

(** [deriv c r] matches [s] exactly when [r] matches [c :: s]. *)
Fixpoint deriv (c : N) (r : regex) : regex :=
  match r with
  | RNull => RNull
  | REps => RNull
  | RChar a => if (a =? c)%N then REps else RNull
  | RAny => if (c =? 10)%N then RNull else REps
  | RSet ranges => if in_ranges ranges c then REps else RNull
  | RSeq r1 r2 =>
      mk_alt (mk_seq (deriv c r1) r2)
             (if nullable r1 then deriv c r2 else RNull)
  | RAlt r1 r2 => mk_alt (deriv c r1) (deriv c r2)
  | RStar r1 => mk_seq (deriv c r1) (RStar r1)
  end.

(** Some prefix of [s] matches [r]. *)
Fixpoint prefix_match (r : regex) (s : pystr) : bool :=
  nullable r ||
  match s with
  | [] => false
  | c :: s' => prefix_match (deriv c r) s'
  end.

(** [re.search(r, s)] is not [None]. *)
Fixpoint re_search (r : regex) (s : pystr) : bool :=
  prefix_match r s ||
  match s with
  | [] => false
  | _ :: s' => re_search r s'
  end.

(** The language of a pattern. *)
Inductive lang : regex -> pystr -> Prop :=
  | lang_eps : lang REps []
  | lang_char c : lang (RChar c) [c]
  | lang_any c : (c =? 10)%N = false -> lang RAny [c]
  | lang_set ranges c : in_ranges ranges c = true -> lang (RSet ranges) [c]
  | lang_seq r1 r2 s1 s2 :
      lang r1 s1 -> lang r2 s2 -> lang (RSeq r1 r2) (s1 ++ s2)
  | lang_alt_l r1 r2 s : lang r1 s -> lang (RAlt r1 r2) s
  | lang_alt_r r1 r2 s : lang r2 s -> lang (RAlt r1 r2) s
  | lang_star_nil r : lang (RStar r) []
  | lang_star_cons r s1 s2 :
      lang r s1 -> lang (RStar r) s2 -> lang (RStar r) (s1 ++ s2).

(** ** [Utils.get_media_type] *)

(** The tuple [(asset_type, title, mediatype, role)]. *)
Record media_type : Type := MediaType {
  asset_type : pystr;
  mt_title : pystr;
  mediatype : pystr;
  role : list pystr
}.

Definition mt (a t m r : string) : media_type :=
  MediaType (ustr a) (ustr t) (ustr m) [ustr r].

(** The dictionary [media_types], in insertion order. *)
Definition media_types : list (pystr * media_type) :=
  [ (ustr ".zarr", mt "zarr" "Zarr" "application/vnd+zarr" "data");
    (ustr ".zarr/", mt "zarr" "Zarr" "application/vnd+zarr" "data");
    (ustr ".nc", mt "netcdf" "NetCDF" "application/vnd+netcdf" "data");
    (ustr ".zip", mt "zip" "Zip" "application/zip" "data");
    (ustr ".tif", mt "geotiff" "GeoTIFF" "image/tiff; application=geotiff" "data");
    (ustr ".tiff", mt "geotiff" "GeoTIFF" "image/tiff; application=geotiff" "data");
    (ustr ".parquet", mt "parquet" "Parquet" "application/vnd+parquet" "data");
    (ustr ".parquet/", mt "parquet" "Parquet" "application/vnd+parquet" "data");
    (ustr ".geoparquet", mt "geoparquet" "GeoParquet" "application/vnd+parquet" "data");
    (ustr ".geoparquet/", mt "geoparquet" "GeoParquet" "application/vnd+parquet" "data");
    (ustr ".csv", mt "csv" "CSV" "text/csv" "data");
    (ustr ".json", mt "json" "JSON" "application/json" "metadata");
    (ustr ".html", mt "html" "HTML" "text/html" "metadata");
    (ustr ".png", mt "png" "PNG" "image/png" "thumbnail");
    (ustr ".jpg", mt "jpg" "JPEG" "image/jpeg" "thumbnail") ].

Definition lit (s : string) : regex := RLit (ustr s).

(** [[a-zA-Z0-9-]] and [[a-zA-Z]] *)
Definition alnum_hyphen : regex := RSet [(97, 122); (65, 90); (48, 57); (45, 45)]%N.
Definition alpha : regex := RSet [(97, 122); (65, 90)]%N.

(** The common head of the two IPT patterns: [ipt\.[a-zA-Z0-9-]+\.[a-zA-Z]+]
    followed by the optional group [(?:/...)?] of a slash and any run of
    characters. *)
Definition ipt_host : regex :=
  RCat [lit "ipt."; RPlus alnum_hyphen; lit "."; RPlus alpha;
        ROpt (RSeq (lit "/") (RStar RAny))].

(** The head followed by [/resource\?r=]. *)
Definition ipt_resource_pattern : regex :=
  RSeq ipt_host (lit "/resource?r=").

(** The head followed by [(?:/archive\.do\?)]. *)
Definition ipt_dwca_pattern : regex :=
  RSeq ipt_host (lit "/archive.do?").

(** The dictionary [url_patterns], in insertion order.  Each key is read
    as a regular expression, as [re.search] does: an unescaped dot is
    [RAny] and an unescaped question mark makes the character before it
    optional. *)
Definition url_patterns : list (regex * media_type) :=
  [ (lit "opendap", mt "opendap" "OPeNDAP " "application/opendap" "data");
    (lit "wms", mt "wms" "WMS" "OGC:WMS" "thumbnail");
    (lit "wfs", mt "wfs" "WFS" "OGC:WFS" "data");
    (* wms?SERVICE=WMS&REQUEST=GetMap *)
    (RCat [lit "wm"; ROpt (lit "s"); lit "SERVICE=WMS&REQUEST=GetMap"],
     mt "wms" "WMS" "OGC:WMS" "thumbnail");
    (* wfs?SERVICE=WFS&REQUEST=GetFeature *)
    (RCat [lit "wf"; ROpt (lit "s"); lit "SERVICE=WFS&REQUEST=GetFeature"],
     mt "wfs" "WFS" "OGC:WFS" "data");
    (lit "request=GetFeature&outputFormat=text%2Fcsv",
     mt "wfscsv" "CSV" "text/csv" "data");
    (lit "xml", mt "xml" "XML" "application/xml" "metadata");
    (* csw\?request= *)
    (lit "csw?request=", mt "csw" "CSW" "application/csw" "metadata");
    (* doi.org *)
    (RCat [lit "doi"; RAny; lit "org"], mt "doi" "DOI" "application/vnd+doi" "data");
    (lit "doi:", mt "doi" "DOI" "application/vnd+doi" "data");
    (* eurobis.org/toolbox/en/download/ *)
    (RCat [lit "eurobis"; RAny; lit "org/toolbox/en/download/"],
     mt "eurobistoolbox" "Eurobis toolbox" "application/html" "metadata");
    (* gbif.org/dataset/ *)
    (RCat [lit "gbif"; RAny; lit "org/dataset/"],
     mt "gbifdataset" "GBIF Dataset" "application/html" "metadata");
    (ipt_resource_pattern,
     mt "iptresource" "IPT Resource" "application/html" "metadata");
    (ipt_dwca_pattern,
     mt "iptdwca" "Darwin Core Archive" "application/zip" "data");
    (* mda.vliz.be/directlink.php? *)
    (RCat [lit "mda"; RAny; lit "vliz"; RAny; lit "be/directlink"; RAny;
           lit "ph"; ROpt (lit "p")],
     mt "mdazip" "Zip" "application/zip" "data");
    (* mda.vliz.be/mda/directlink.php? *)
    (RCat [lit "mda"; RAny; lit "vliz"; RAny; lit "be/mda/directlink"; RAny;
           lit "ph"; ROpt (lit "p")],
     mt "mdazip" "Zip" "application/zip" "data") ].

(** The first rule of a table that applies to the URL: the [for] loops
    of [get_media_type] return at the first hit. *)
Definition first_rule {K} (applies : K -> bool)
    (table : list (K * media_type)) : option media_type :=
  snd <$> List.find (fun rule => applies (fst rule)) table.

(** [None] stands for the tuple [(None, None, None, None)]. *)
Definition get_media_type (asset_url : pystr) : option media_type :=
  match first_rule (fun ext => endswith ext asset_url) media_types with
  | Some m => Some m
  | None => first_rule (fun pattern => re_search pattern asset_url) url_patterns
  end.

(** ** Python values *)

(** A [float]: not-a-number, an infinity, or a finite double given by its
    exact rational value. *)
Inductive pyfloat : Type :=
  | FNan
  | FInf (negative : bool)
  | FFin (q : Q).

(** A [datetime.datetime]; [tzoffset] is the UTC offset in seconds of an
    aware datetime and [None] for a naive one. *)
Record pydatetime : Type := Datetime {
  year : Z; month : Z; day : Z;
  hour : Z; minute : Z; second : Z; microsecond : Z;
  tzoffset : option Z
}.

Inductive pyval : Type :=
  | PNone
  | PBool (b : bool)
  | PInt (z : Z)
  | PFloat (f : pyfloat)
  | PStr (s : pystr)
  | PList (l : list pyval)
  | PDict (d : list (pystr * pyval))
  | PDatetime (dt : pydatetime).

(** The metadata dictionary of one record. *)
Abbreviation metadata := (gmap string pyval).

Definition pstr (s : string) : pyval := PStr (ustr s).

(** *** Numbers *)

Definition float_is_zero (f : pyfloat) : bool :=
  match f with
  | FFin q => Qeq_bool q 0
  | _ => false
  end.

(** [a < b] on floats, with the exact value of each side. *)
Definition float_ltb (a b : pyfloat) : bool :=
  match a, b with
  | FNan, _ | _, FNan => false
  | FInf true, FInf true => false
  | FInf true, _ => true
  | _, FInf true => false
  | FInf false, _ => false
  | _, FInf false => true
  | FFin x, FFin y => negb (Qle_bool y x)
  end.

Definition float_eqb (a b : pyfloat) : bool :=
  match a, b with
  | FFin x, FFin y => Qeq_bool x y
  | FInf s, FInf t => Bool.eqb s t
  | _, _ => false
  end.

(** Round-half-even of the positive rational [n / d] to a double: 53 bits
    of precision, exponents down to the subnormals, overflow to
    infinity. *)
Definition round_double_pos (n d : positive) : pyfloat :=
  let e := Z.log2 (Zpos n) - Z.log2 (Zpos d) in
  let below :=
    if 0 <=? e then Zpos n <? Zpos d * 2 ^ e
    else Zpos n * 2 ^ (- e) <? Zpos d in
  let e := if below then e - 1 else e in
  let q := Z.max (e - 52) (-1074) in
  let num := if 0 <=? q then Zpos n else Zpos n * 2 ^ (- q) in
  let den := if 0 <=? q then Zpos d * 2 ^ q else Zpos d in
  let m := num / den in
  let r := num mod den in
  let m := if 2 * r <? den then m
           else if den <? 2 * r then m + 1
           else if Z.even m then m else m + 1 in
  if 0 <=? q
  then if 2 ^ 1024 <=? m * 2 ^ q then FInf false
       else FFin (inject_Z (m * 2 ^ q))
  else FFin (Qred (Qmake m (Z.to_pos (2 ^ (- q))))).

Definition float_neg (f : pyfloat) : pyfloat :=
  match f with
  | FNan => FNan
  | FInf s => FInf (negb s)
  | FFin q => FFin (Qopp q)
  end.

Definition round_double (q : Q) : pyfloat :=
  match Qnum q with
  | Z0 => FFin 0
  | Zpos n => round_double_pos n (Qden q)
  | Zneg n => float_neg (round_double_pos n (Qden q))
  end.

(** *** [float(str)]

    Surrounding whitespace is dropped; then come an optional sign and
    either [inf], [infinity] or [nan] in any case, or a decimal numeral
    with an optional fraction and exponent, where single underscores may
    separate digits.  The digits are the ASCII ones. *)

Definition digit_value (c : N) : Z := Z.of_N (c - 48).

Fixpoint digits_tail (s : pystr) : list Z * pystr :=
  match s with
  | [] => ([], [])
  | c :: s' =>
      if py_isdecimal c
      then let '(ds, r) := digits_tail s' in (digit_value c :: ds, r)
      else if (c =? 95)%N
      then match s' with
           | d :: s'' =>
               if py_isdecimal d
               then let '(ds, r) := digits_tail s'' in (digit_value d :: ds, r)
               else ([], s)
           | [] => ([], s)
           end
      else ([], s)
  end.

Definition digit_group (s : pystr) : list Z * pystr :=
  match s with
  | c :: s' =>
      if py_isdecimal c
      then let '(ds, r) := digits_tail s' in (digit_value c :: ds, r)
      else ([], s)
  | [] => ([], [])
  end.

Definition digits_to_Z (ds : list Z) : Z :=
  fold_left (fun acc d => 10 * acc + d) ds 0.

Definition split_sign (s : pystr) : bool * pystr :=
  match s with
  | c :: s' => if (c =? 45)%N then (true, s')
               else if (c =? 43)%N then (false, s') else (false, s)
  | [] => (false, [])
  end.

Fixpoint lstrip (s : pystr) : pystr :=
  match s with
  | c :: s' => if py_isspace c then lstrip s' else s
  | [] => []
  end.

(** [s.strip()] *)
Definition strip (s : pystr) : pystr := rev (lstrip (rev (lstrip s))).

(** The exponent part: empty, or [e] or [E], an optional sign and a
    group of digits that ends the numeral. *)
Definition parse_exponent (s : pystr) : option Z :=
  match s with
  | [] => Some 0
  | c :: s' =>
      if (c =? 101)%N || (c =? 69)%N
      then let '(neg, s'') := split_sign s' in
           match digit_group s'' with
           | ((_ :: _) as ds, []) =>
               Some (if neg then - digits_to_Z ds else digits_to_Z ds)
           | _ => None
           end
      else None
  end.

Definition parse_decimal (s : pystr) : option Q :=
  let '(ip, r1) := digit_group s in
  let '(fp, r2) :=
    match r1 with
    | c :: r => if (c =? 46)%N then digit_group r else ([], r1)
    | [] => ([], [])
    end in
  match ip ++ fp with
  | [] => None
  | ds =>
      match parse_exponent r2 with
      | Some e =>
          let m := digits_to_Z ds in
          let e10 := e - Z.of_nat (length fp) in
          Some (if 0 <=? e10 then inject_Z (m * 10 ^ e10)
                else Qmake m (Z.to_pos (10 ^ (- e10))))
      | None => None
      end
  end.

(** [None] stands for the [ValueError] of [float]. *)
Definition float_of_pystr (s : pystr) : option pyfloat :=
  let '(neg, body) := split_sign (strip s) in
  let word := py_lower body in
  if pystr_eqb word (ustr "inf") || pystr_eqb word (ustr "infinity")
  then Some (FInf neg)
  else if pystr_eqb word (ustr "nan") then Some FNan
  else match parse_decimal body with
       | Some q => Some (round_double (if neg then Qopp q else q))
       | None => None
       end.

(** [float(x)] *)
Definition py_float (x : pyval) : result pyfloat :=
  match x with
  | PBool b => Ok (FFin (if b then 1 else 0))
  | PInt z =>
      match round_double (inject_Z z) with
      | FFin q => Ok (FFin q)
      | _ => Raise OverflowError
      end
  | PFloat f => Ok f
  | PStr s =>
      match float_of_pystr s with
      | Some f => Ok f
      | None => Raise ValueError
      end
  | PNone | PList _ | PDict _ | PDatetime _ => Raise TypeError
  end.

(** The numeric value of [bool], [int] and [float] operands. *)
Definition as_number (x : pyval) : option pyfloat :=
  match x with
  | PBool b => Some (FFin (if b then 1 else 0))
  | PInt z => Some (FFin (inject_Z z))
  | PFloat f => Some f
  | _ => None
  end.

(** *** The proleptic Gregorian calendar of [datetime] *)

Definition is_leap (y : Z) : bool :=
  (y mod 4 =? 0) && (negb (y mod 100 =? 0) || (y mod 400 =? 0)).

Definition days_before_year (y : Z) : Z :=
  let y := y - 1 in y * 365 + y / 4 - y / 100 + y / 400.

Definition days_in_month (y m : Z) : Z :=
  if m =? 2 then (if is_leap y then 29 else 28)
  else if (m =? 4) || (m =? 6) || (m =? 9) || (m =? 11) then 30
  else 31.

Definition days_before_month_table (m : Z) : Z :=
  nth (Z.to_nat m) [0; 0; 31; 59; 90; 120; 151; 181; 212; 243; 273; 304; 334] 0.

Definition days_before_month (y m : Z) : Z :=
  days_before_month_table m + (if (2 <? m) && is_leap y then 1 else 0).

(** The ordinal of a date; 0001-01-01 is day 1. *)
Definition ymd2ord (y m d : Z) : Z :=
  days_before_year y + days_before_month y m + d.

(** The date of an ordinal, by the 400-, 100-, 4- and 1-year cycles. *)
Definition ord2ymd (n : Z) : Z * Z * Z :=
  let n := n - 1 in
  let n400 := n / 146097 in
  let n := n mod 146097 in
  let y := n400 * 400 + 1 in
  let n100 := n / 36524 in
  let n := n mod 36524 in
  let n4 := n / 1461 in
  let n := n mod 1461 in
  let n1 := n / 365 in
  let n := n mod 365 in
  let y := y + n100 * 100 + n4 * 4 + n1 in
  if (n1 =? 4) || (n100 =? 4) then (y - 1, 12, 31)
  else
    let leapyear := (n1 =? 3) && (negb (n4 =? 24) || (n100 =? 3)) in
    let m := Z.shiftr (n + 50) 5 in
    let preceding :=
      days_before_month_table m + (if (2 <? m) && leapyear then 1 else 0) in
    if n <? preceding
    then
      let m := m - 1 in
      let preceding :=
        preceding -
        (nth (Z.to_nat m) [0; 31; 28; 31; 30; 31; 30; 31; 31; 30; 31; 30; 31] 0 +
         (if (m =? 2) && leapyear then 1 else 0)) in
      (y, m, n - preceding + 1)
    else (y, m, n - preceding + 1).

Definition max_ordinal : Z := 3652059.

Definition usec_per_day : Z := 86400000000.

(** Microseconds from 0001-01-01T00:00:00 to the wall-clock reading. *)
Definition wall_usec (d : pydatetime) : Z :=
  (ymd2ord (year d) (month d) (day d) - 1) * usec_per_day +
  ((hour d * 60 + minute d) * 60 + second d) * 1000000 + microsecond d.

(** The datetime of a wall-clock reading, with the given offset;
    [OverflowError] outside the years 1..9999. *)
Definition of_wall_usec (us : Z) (tz : option Z) : result pydatetime :=
  let ordinal := us / usec_per_day + 1 in
  if (ordinal <? 1) || (max_ordinal <? ordinal) then Raise OverflowError
  else
    let '(y, m, d) := ord2ymd ordinal in
    let r := us mod usec_per_day in
    Ok (Datetime y m d (r / 3600000000) (r / 60000000 mod 60)
                 (r / 1000000 mod 60) (r mod 1000000) tz).

(** [dt.astimezone(utc)] for an aware [dt] of offset [off]. *)
Definition aware_to_utc (d : pydatetime) (off : Z) : result pydatetime :=
  of_wall_usec (wall_usec d - off * 1000000) (Some 0).

(** [dt.replace(tzinfo=utc)] *)
Definition replace_tz_utc (d : pydatetime) : pydatetime :=
  Datetime (year d) (month d) (day d) (hour d) (minute d) (second d)
           (microsecond d) (Some 0).

(** *** Truth, equality and order *)

(** [bool(x)] *)
Definition py_truthy (x : pyval) : bool :=
  match x with
  | PNone => false
  | PBool b => b
  | PInt z => negb (z =? 0)
  | PFloat f => negb (float_is_zero f)
  | PStr s => negb (pystr_eqb s [])
  | PList l => match l with [] => false | _ => true end
  | PDict d => match d with [] => false | _ => true end
  | PDatetime _ => true
  end.

(** Two naive datetimes compare by their wall-clock readings, two aware
    ones by their instants; a naive and an aware one are never equal and
    cannot be ordered. *)
Definition datetime_eqb (x y : pydatetime) : bool :=
  match tzoffset x, tzoffset y with
  | None, None => wall_usec x =? wall_usec y
  | Some a, Some b => wall_usec x - a * 1000000 =? wall_usec y - b * 1000000
  | _, _ => false
  end.

Definition datetime_lt (x y : pydatetime) : result bool :=
  match tzoffset x, tzoffset y with
  | None, None => Ok (wall_usec x <? wall_usec y)
  | Some a, Some b =>
      Ok (wall_usec x - a * 1000000 <? wall_usec y - b * 1000000)
  | _, _ => Raise TypeError
  end.

(** [a == b] *)
Fixpoint py_eqb (a b : pyval) : bool :=
  match a, b with
  | PNone, PNone => true
  | PStr s, PStr t => pystr_eqb s t
  | PList la, PList lb =>
      (fix go (la lb : list pyval) : bool :=
         match la, lb with
         | [], [] => true
         | x :: la', y :: lb' => py_eqb x y && go la' lb'
         | _, _ => false
         end) la lb
  | PDict da, PDict db =>
      Nat.eqb (length da) (length db) &&
      (fix go (da : list (pystr * pyval)) : bool :=
         match da with
         | [] => true
         | (k, v) :: da' =>
             match List.find (fun kv => pystr_eqb (fst kv) k) db with
             | Some (_, w) => py_eqb v w
             | None => false
             end && go da'
         end) da
  | PDatetime x, PDatetime y => datetime_eqb x y
  | _, _ =>
      match as_number a, as_number b with
      | Some x, Some y => float_eqb x y
      | _, _ => false
      end
  end.

(** [a < b]; operands of unordered types raise [TypeError]. *)
Fixpoint py_lt (a b : pyval) : result bool :=
  match a, b with
  | PStr s, PStr t => Ok (pystr_ltb s t)
  | PList la, PList lb =>
      (fix go (la lb : list pyval) : result bool :=
         match la, lb with
         | [], [] => Ok false
         | [], _ :: _ => Ok true
         | _ :: _, [] => Ok false
         | x :: la', y :: lb' => if py_eqb x y then go la' lb' else py_lt x y
         end) la lb
  | PDatetime x, PDatetime y => datetime_lt x y
  | _, _ =>
      match as_number a, as_number b with
      | Some x, Some y => Ok (float_ltb x y)
      | _, _ => Raise TypeError
      end
  end.

(** [a > b] *)
Definition py_gt (a b : pyval) : result bool := py_lt b a.

(** *** Containers *)

(** [d[k] = v] on a dictionary kept in insertion order. *)
Fixpoint dict_set {V} (k : pystr) (v : V) (d : list (pystr * V))
    : list (pystr * V) :=
  match d with
  | [] => [(k, v)]
  | (k', v') :: d' =>
      if pystr_eqb k' k then (k, v) :: d' else (k', v') :: dict_set k v d'
  end.

Definition dict_get {V} (k : pystr) (d : list (pystr * V)) : option V :=
  snd <$> List.find (fun kv => pystr_eqb (fst kv) k) d.

(** [x[key]] with a string key. *)
Definition py_getitem (x : pyval) (key : string) : result pyval :=
  match x with
  | PDict d => match dict_get (ustr key) d with
               | Some v => Ok v
               | None => Raise KeyError
               end
  | _ => Raise TypeError
  end.

(** [x[i]] with a non-negative integer index. *)
Definition py_index (x : pyval) (i : nat) : result pyval :=
  match x with
  | PList l => match nth_error l i with
               | Some v => Ok v
               | None => Raise IndexError
               end
  | PStr s => match nth_error s i with
              | Some c => Ok (PStr [c])
              | None => Raise IndexError
              end
  | PDict _ => Raise KeyError
  | _ => Raise TypeError
  end.

(** The elements a [for] loop visits. *)
Definition py_iter (x : pyval) : result (list pyval) :=
  match x with
  | PList l => Ok l
  | PStr s => Ok (List.map (fun c => PStr [c]) s)
  | PDict d => Ok (List.map (fun kv => PStr (fst kv)) d)
  | _ => Raise TypeError
  end.

(** [key in x] for a string [key]. *)
Definition py_in (key : pystr) (x : pyval) : result bool :=
  match x with
  | PStr s => Ok (contains key s)
  | PList l => Ok (existsb (py_eqb (PStr key)) l)
  | PDict d => Ok (existsb (fun kv => pystr_eqb (fst kv) key) d)
  | _ => Raise TypeError
  end.

(** ['key' in metadata and metadata['key']] *)
Definition has_truthy (md : metadata) (key : string) : bool :=
  match md !! key with
  | Some v => py_truthy v
  | None => false
  end.

(** [any(f(x) for x in l)], which stops at the first true answer. *)
Fixpoint any_m {A} (f : A -> result bool) (l : list A) : result bool :=
  match l with
  | [] => Ok false
  | x :: l' => let! b := f x in if b then Ok true else any_m f l'
  end.

(** ** The outside world *)

(** What a run obtains from outside the program.
    - [http_get url] is the status code of [requests.get(url)] with
      redirects followed, or [None] when the request raises a
      [RequestException];
    - [dateutil_parse s] is [dateutil.parser.parse(s)], whose
      [ParserError] is a [ValueError];
    - [local_astimezone_utc dt] is [dt.astimezone(pytz.utc)] for a naive
      [dt], which reads the time zone of the machine;
    - [datetime_today] is [datetime.today()];
    - [numpy_isna_truth l] is [bool(pd.isna(l))] for a list [l], which
      pandas answers through a NumPy array. *)
Record Env : Type := {
  http_get : pystr -> option Z;
  dateutil_parse : pystr -> result pydatetime;
  local_astimezone_utc : pydatetime -> result pydatetime;
  datetime_today : pydatetime;
  numpy_isna_truth : list pyval -> result bool
}.

(** ** Date strings ([utils.py]) *)

(** The last [width] decimal digits of [z], zero padded: [%0wd] for a
    number that fits. *)
Fixpoint zero_padded (width : nat) (z : Z) : pystr :=
  match width with
  | O => []
  | S w => zero_padded w (z / 10) ++ [Z.to_N (48 + z mod 10)]
  end.

(** The UTC offset as [isoformat] prints it. *)
Definition isoformat_offset (off : Z) : pystr :=
  let a := Z.abs off in
  ustr (if off <? 0 then "-" else "+") ++
  zero_padded 2 (a / 3600) ++ ustr ":" ++ zero_padded 2 (a / 60 mod 60) ++
  (if a mod 60 =? 0 then [] else ustr ":" ++ zero_padded 2 (a mod 60)).

(** [dt.isoformat()] *)
Definition isoformat (d : pydatetime) : pystr :=
  zero_padded 4 (year d) ++ ustr "-" ++ zero_padded 2 (month d) ++ ustr "-" ++
  zero_padded 2 (day d) ++ ustr "T" ++ zero_padded 2 (hour d) ++ ustr ":" ++
  zero_padded 2 (minute d) ++ ustr ":" ++ zero_padded 2 (second d) ++
  (if microsecond d =? 0 then [] else ustr "." ++ zero_padded 6 (microsecond d)) ++
  match tzoffset d with
  | Some off => isoformat_offset off
  | None => []
  end.

(** The completion of a short date string by its length, as both
    [format_datetime_to_iso8601] and [format_datetime] begin. *)
Definition complete_datetime_str (datetime_str : pystr) : pystr :=
  let datetime_str :=
    if Nat.eqb (length datetime_str) 4
    then datetime_str ++ ustr "-01-01T00:00:00Z"
    else if Nat.eqb (length datetime_str) 7
    then datetime_str ++ ustr "-01T00:00:00Z"
    else datetime_str in
  if Nat.eqb (length datetime_str) 10
  then datetime_str ++ ustr "T00:00:00Z"
  else if Nat.eqb (length datetime_str) 16
  then datetime_str ++ ustr ":00Z"
  else if Nat.eqb (length datetime_str) 19
  then datetime_str ++ ustr "Z"
  else datetime_str.

(** The body of the [try] of [format_datetime_to_iso8601] once the
    string is parsed. *)
Definition to_iso8601_utc (dt : pydatetime) : result pystr :=
  let! dt :=
    match tzoffset dt with
    | None => Ok (replace_tz_utc dt)
    | Some off => aware_to_utc dt off
    end in
  Ok (replace (ustr "+00:00") (ustr "Z") (isoformat dt)).

(** [except ValueError: return None] *)
Definition none_on_value_error {A} (r : result A) : result (option A) :=
  match r with
  | Ok a => Ok (Some a)
  | Raise ValueError => Ok None
  | Raise e => Raise e
  end.

Definition format_datetime_to_iso8601 (E : Env) (datetime_str : pystr)
    : result (option pystr) :=
  let datetime_str := complete_datetime_str datetime_str in
  none_on_value_error
    (let! dt := dateutil_parse E datetime_str in to_iso8601_utc dt).

(** [format_datetime]: the same completion, then the parsed datetime
    converted to UTC; a [ValueError] gives today's date instead. *)
Definition format_datetime (E : Env) (datetime_str : pyval)
    : result pydatetime :=
  match datetime_str with
  | PStr s =>
      let s := complete_datetime_str s in
      match
        (let! dt := dateutil_parse E s in
         match tzoffset dt with
         | Some off => aware_to_utc dt off
         | None => local_astimezone_utc E dt
         end)
      with
      | Ok dt => Ok dt
      | Raise ValueError => Ok (replace_tz_utc (datetime_today E))
      | Raise e => Raise e
      end
  | _ => Raise TypeError
  end.

(** [format_start_end_datetimes_stac] *)
Definition format_start_end_datetimes_stac (E : Env) (md : metadata)
    : result metadata :=
  match md !! "start_datetime" with
  | None => Raise KeyError
  | Some s =>
      let! s := format_datetime E s in
      let md := <["start_datetime" := PDatetime s]> md in
      match md !! "end_datetime" with
      | None => Raise KeyError
      | Some e =>
          let! e := format_datetime E e in
          Ok (<["end_datetime" := PDatetime e]> md)
      end
  end.

(** ** [Utils.update_datetimes] *)

Definition datetime_keys : list string :=
  ["created"; "date"; "issued"; "modified"]%string.

(** One turn of the loop over [datetime_keys]. *)
Definition update_datetimes_step (md : metadata) (key : string)
    : result metadata :=
  if has_truthy md key then
    let v := default PNone (md !! key) in
    let! md :=
      match md !! "start_datetime" with
      | Some start =>
          let! earlier := py_lt v start in
          Ok (if earlier then <["start_datetime" := v]> md else md)
      | None => Ok md
      end in
    let! md :=
      match md !! "end_datetime" with
      | Some stop =>
          let! later := py_gt v stop in
          Ok (if later then <["end_datetime" := v]> md else md)
      | None => Ok md
      end in
    let md :=
      match md !! "start_datetime" with
      | None => <["start_datetime" := v]> md
      | Some _ => md
      end in
    let md :=
      match md !! "end_datetime" with
      | None => <["end_datetime" := v]> md
      | Some _ => md
      end in
    Ok md
  else Ok md.

Fixpoint update_datetimes_loop (md : metadata) (keys : list string)
    : result metadata :=
  match keys with
  | [] => Ok md
  | key :: keys' =>
      let! md := update_datetimes_step md key in
      update_datetimes_loop md keys'
  end.

Definition default_start_datetime : pyval := pstr "1970-01-01T00:00:00Z".
Definition default_end_datetime : pyval := pstr "2100-01-01T00:00:00Z".

(** The two defaults applied after the loop. *)
Definition update_datetimes_defaults (md : metadata) : metadata :=
  let md :=
    match md !! "start_datetime" with
    | None => <["start_datetime" := default_start_datetime]> md
    | Some _ => md
    end in
  match md !! "end_datetime", md !! "start_datetime" with
  | Some stop, Some start =>
      if py_eqb stop start
      then <["end_datetime" := default_end_datetime]> md
      else md
  | _, _ => <["end_datetime" := default_end_datetime]> md
  end.

Definition update_datetimes (md : metadata) : result metadata :=
  let! md := update_datetimes_loop md datetime_keys in
  Ok (update_datetimes_defaults md).

(** ** [Utils.finalize_boundaries] *)

(** [pd.isna(coord)] as the [or] of the test reads it. *)
Definition pd_isna (E : Env) (coord : pyval) : result bool :=
  match coord with
  | PNone => Ok true
  | PFloat FNan => Ok true
  | PList l => numpy_isna_truth E l
  | _ => Ok false
  end.

(** The test under [any]: [pd.isna(coord)], or a float that is not a
    number, or the string [nan] in any case. *)
Definition is_nan_like (E : Env) (coord : pyval) : result bool :=
  let! missing := pd_isna E coord in
  if missing then Ok true
  else Ok match coord with
          | PFloat FNan => true
          | PStr s => pystr_eqb (py_lower s) (ustr "nan")
          | _ => false
          end.

Definition validate_and_convert (coord : pyval) (min_val max_val : Z)
    (coord_name : string) : result pyval :=
  match py_float coord with
  | Ok f =>
      let below := float_ltb f (FFin (inject_Z min_val)) in
      let above := float_ltb (FFin (inject_Z max_val)) f in
      if below || above
      then Ok (PInt (if below then min_val else max_val))
      else Ok (PFloat f)
  | Raise ValueError | Raise TypeError =>
      Ok (PInt (if contains (ustr "min") (ustr coord_name)
                then min_val else max_val))
  | Raise e => Raise e
  end.

Definition world_bbox : list pyval :=
  [PInt (-180); PInt (-90); PInt 180; PInt 90].

(** The branch taken for a bounding box found under either key. *)
Definition finalize_bbox (E : Env) (bbox : pyval) : result (list pyval) :=
  let! coords := py_iter bbox in
  let! invalid := any_m (is_nan_like E) coords in
  if invalid then Ok world_bbox
  else
    let! c0 := py_index bbox 0 in
    let! lon_min := validate_and_convert c0 (-180) 180 "longitude minimum" in
    let! c1 := py_index bbox 1 in
    let! lat_min := validate_and_convert c1 (-90) 90 "latitude minimum" in
    let! c2 := py_index bbox 2 in
    let! lon_max := validate_and_convert c2 (-180) 180 "longitude maximum" in
    let! c3 := py_index bbox 3 in
    let! lat_max := validate_and_convert c3 (-90) 90 "latitude maximum" in
    Ok [lon_min; lat_min; lon_max; lat_max].

Definition finalize_boundaries (E : Env) (md : metadata)
    : result (list pyval) :=
  if has_truthy md "bbox"
  then finalize_bbox E (default PNone (md !! "bbox"))
  else if has_truthy md "geographic_extent"
  then finalize_bbox E (default PNone (md !! "geographic_extent"))
  else Ok world_bbox.

(** The bounding box [finalize_boundaries] works on: [bbox] when it is
    present and true, else [geographic_extent] when that is. *)
Definition chosen_bbox (md : metadata) : option pyval :=
  if has_truthy md "bbox" then md !! "bbox"
  else if has_truthy md "geographic_extent" then md !! "geographic_extent"
  else None.

(** ** Link tests and conversions ([utils.py]) *)

(** [Utils.test_link]: [True] on status 200, [False] on another status
    that [raise_for_status] lets through, [None] when the request or
    the status check raises. *)
Definition test_link (E : Env) (download_url : pystr) : option bool :=
  match http_get E download_url with
  | Some code =>
      if (400 <=? code) && (code <? 600) then None
      else Some (code =? 200)
  | None => None
  end.

Definition option_bool_truthy (o : option bool) : bool :=
  match o with
  | Some true => true
  | _ => false
  end.

Definition convert_ipt_to_dwca (E : Env) (ipt_link : pystr)
    : result (option pystr) :=
  let ipt_link :=
    if startswith (ustr "http://") ipt_link
    then replace (ustr "http://") (ustr "https://") ipt_link
    else ipt_link in
  let! dwca_url :=
    if contains (ustr "/resource?r=") ipt_link
    then Ok (replace (ustr "/resource?r=") (ustr "/archive.do?r=") ipt_link)
    else if contains (ustr "/archive.do") ipt_link
    then Ok ipt_link
    else Raise ValueError in
  if option_bool_truthy (test_link E dwca_url)
  then Ok (Some dwca_url)
  else Ok None.

(** ** Thematic lot and providers ([utils.py]) *)

(** [emodnet_provider_dict], in insertion order. *)
Definition emodnet_provider_dict : list (string * string) :=
  [ ("seabed-habitats", "EMODnet Seabed Habitats");
    ("seabedhabitats", "EMODnet Seabed Habitats");
    ("emodnet-seabedhabitats", "EMODnet Seabed Habitats");
    ("EMODnet Seabed Habitats", "EMODnet Seabed Habitats");
    ("bathymetry", "EMODnet Bathymetry");
    ("EMODnet Bathymetry", "EMODnet Bathymetry");
    ("emodnet-bathymetry", "EMODnet Bathymetry");
    ("geology", "EMODnet Geology");
    ("EMODnet Geology", "EMODnet Geology");
    ("emodnet-geology", "EMODnet Geology");
    ("chemistry", "EMODnet Chemistry");
    ("emodnet-chemistry", "EMODnet Chemistry");
    ("EMODnet Chemistry", "EMODnet Chemistry");
    ("eurobis", "EMODnet Biology");
    ("obis", "EMODnet Biology");
    ("gbif", "EMODnet Biology");
    ("ipt", "EMODnet Biology");
    ("mda.vliz", "EMODnet Biology");
    ("emodnet-biology", "EMODnet Biology");
    ("EMODnet Biology", "EMODnet Biology");
    ("emodnet-physics", "EMODnet Physics");
    ("EMODnet Physics", "EMODnet Physics");
    ("physics", "EMODnet Physics");
    ("humanactivities", "EMODnet Human Activities");
    ("emodnet-humanactivities", "EMODnet Human Activities");
    ("EMODnet Human Activities", "EMODnet Human Activities") ]%string.

(** [for key, value in table.items(): if key in x: return value] *)
Fixpoint first_key_in (table : list (string * string)) (x : pyval)
    : result (option pystr) :=
  match table with
  | [] => Ok None
  | (key, value) :: table' =>
      let! hit := py_in (ustr key) x in
      if hit then Ok (Some (ustr value)) else first_key_in table' x
  end.

(** The same search over each element of a list in turn. *)
Fixpoint first_key_in_any (table : list (string * string)) (xs : list pyval)
    : result (option pystr) :=
  match xs with
  | [] => Ok None
  | x :: xs' =>
      let! hit := first_key_in table x in
      match hit with
      | Some value => Ok (Some value)
      | None => first_key_in_any table xs'
      end
  end.

Definition lookup_thematic_lot (md : metadata) : result pystr :=
  match md !! "geonetwork_uri" with
  | None => Raise KeyError
  | Some _ =>
      let! from_assets :=
        if has_truthy md "assets"
        then let! assets := py_iter (default PNone (md !! "assets")) in
             first_key_in_any emodnet_provider_dict assets
        else Ok None in
      match from_assets with
      | Some value => Ok value
      | None =>
          let! from_abstract :=
            if has_truthy md "abstract"
            then first_key_in emodnet_provider_dict (default PNone (md !! "abstract"))
            else Ok None in
          match from_abstract with
          | Some value => Ok value
          | None =>
              let! from_subjects :=
                if has_truthy md "subjects"
                then first_key_in emodnet_provider_dict (default PNone (md !! "subjects"))
                else Ok None in
              Ok (default (ustr "EMODnet") from_subjects)
          end
      end
  end.

(** The dictionary [{'name': ..., 'roles': ...}]. *)
Definition provider_entry (name : pyval) (roles : string) : pyval :=
  PDict [(ustr "name", name); (ustr "roles", pstr roles)].

Definition update_providers (md : metadata) : result metadata :=
  let provider_dict : option pyval := None in
  let provider_dict :=
    if has_truthy md "creator"
    then Some (provider_entry (default PNone (md !! "creator")) "creator")
    else provider_dict in
  let provider_dict :=
    if has_truthy md "publisher"
    then Some (provider_entry (default PNone (md !! "publisher")) "publisher")
    else provider_dict in
  let provider_dict :=
    if has_truthy md "distributor"
    then Some (provider_entry (default PNone (md !! "distributor")) "distributor")
    else provider_dict in
  let! provider_dict :=
    match provider_dict with
    | Some d => Ok d
    | None =>
        let! provider := lookup_thematic_lot md in
        Ok (provider_entry (PStr provider) "provider")
    end in
  match md !! "provider" with
  | None => Raise KeyError
  | Some (PList l) => Ok (<["provider" := PList (l ++ [provider_dict])]> md)
  | Some _ => Raise AttributeError
  end.

(** ** The catalog tree ([pystac]) *)

Record Asset : Type := {
  href : pystr;
  asset_title : pystr;
  asset_media_type : pystr;
  asset_roles : list pystr
}.

(** A [pystac.Item]: the constructor arguments of [add_item], the
    properties it sets afterwards, and the assets. *)
Record Item : Type := {
  item_id : pystr;
  item_geometry : list (pyval * pyval);
  item_bbox : list pyval;
  item_start_datetime : pydatetime;
  item_end_datetime : pydatetime;
  item_datetime : pyval;
  item_properties : gmap string pyval;
  item_stac_extensions : list pystr;
  item_collection : pystr;
  item_assets : list (pystr * Asset)
}.

(** A [pystac.Extent]: the list of bounding boxes and the list of
    intervals. *)
Record Extent : Type := {
  spatial : list (list pyval);
  temporal : list (option pydatetime * option pydatetime)
}.

Record Collection : Type := {
  coll_id : pystr;
  coll_title : pystr;
  coll_description : pystr;
  coll_providers : list (pyval * pyval);
  coll_license : pyval;
  coll_extent : Extent;
  coll_items : list Item
}.

(** A variable family: a child catalog of the root, holding
    collections. *)
Record Family : Type := {
  fam_id : pystr;
  fam_title : pystr;
  fam_description : pystr;
  fam_collections : list Collection
}.

Record Catalog : Type := {
  cat_id : pystr;
  cat_title : pystr;
  cat_description : pystr;
  cat_children : list Family
}.

(** The state of a [CSWSTACManager]: the tree in memory and the tree as
    [save] last wrote it. *)
Record CSWSTACManager : Type := {
  stac_catalog : Catalog;
  stac_on_disk : Catalog
}.

(** [normalize_hrefs] and [save]: the whole tree is written. *)
Definition save (cat : Catalog) : CSWSTACManager :=
  {| stac_catalog := cat; stac_on_disk := cat |}.

Definition set_children (cat : Catalog) (children : list Family) : Catalog :=
  {| cat_id := cat_id cat; cat_title := cat_title cat;
     cat_description := cat_description cat; cat_children := children |}.

Definition set_collections (fam : Family) (colls : list Collection) : Family :=
  {| fam_id := fam_id fam; fam_title := fam_title fam;
     fam_description := fam_description fam; fam_collections := colls |}.

Definition set_items_extent (c : Collection) (items : list Item) (e : Extent)
    : Collection :=
  {| coll_id := coll_id c; coll_title := coll_title c;
     coll_description := coll_description c;
     coll_providers := coll_providers c; coll_license := coll_license c;
     coll_extent := e; coll_items := items |}.

(** The position of the first element with the given identifier:
    [get_child(id)]. *)
Fixpoint index_of_id {A} (ident : A -> pystr) (x : pystr) (l : list A)
    : option nat :=
  match l with
  | [] => None
  | a :: l' => if pystr_eqb (ident a) x then Some O
               else S <$> index_of_id ident x l'
  end.

(** [x in [a.id for a in l]] *)
Definition id_in {A} (ident : A -> pystr) (x : pystr) (l : list A) : bool :=
  existsb (fun a => pystr_eqb (ident a) x) l.

(** The collection an object reference designates: families and
    collections are named by their positions in the tree. *)
Definition get_collection (cat : Catalog) (fam coll : nat) : option Collection :=
  f ← cat_children cat !! fam; fam_collections f !! coll.

Definition put_collection (cat : Catalog) (fam coll : nat) (c : Collection)
    : Catalog :=
  set_children cat
    (alter (fun f => set_collections f (<[coll := c]> (fam_collections f)))
           fam (cat_children cat)).

(** *** [pystac.Extent.from_items] *)

(** [min(l)] and [max(l)] keep the first extreme element. *)
Fixpoint py_min_from (cur : pyval) (l : list pyval) : result pyval :=
  match l with
  | [] => Ok cur
  | x :: l' => let! b := py_lt x cur in py_min_from (if b then x else cur) l'
  end.

Fixpoint py_max_from (cur : pyval) (l : list pyval) : result pyval :=
  match l with
  | [] => Ok cur
  | x :: l' => let! b := py_gt x cur in py_max_from (if b then x else cur) l'
  end.

(** [item.bbox[i]] of every item. *)
Fixpoint bbox_column (i : nat) (items : list Item) : result (list pyval) :=
  match items with
  | [] => Ok []
  | it :: items' =>
      match nth_error (item_bbox it) i with
      | Some v => let! rest := bbox_column i items' in Ok (v :: rest)
      | None => Raise IndexError
      end
  end.

(** The [datetime] of every item that has one. *)
Fixpoint item_datetimes (items : list Item) : result (list pydatetime) :=
  match items with
  | [] => Ok []
  | it :: items' =>
      let! rest := item_datetimes items' in
      match item_datetime it with
      | PNone => Ok rest
      | PDatetime d => Ok (d :: rest)
      | _ => Raise AttributeError
      end
  end.

(** [dt if dt.tzinfo else dt.replace(tzinfo=UTC)] *)
Definition assume_utc (d : pydatetime) : pydatetime :=
  match tzoffset d with
  | Some _ => d
  | None => replace_tz_utc d
  end.

Definition utc_instant (d : pydatetime) : Z :=
  wall_usec d - default 0 (tzoffset d) * 1000000.

Fixpoint min_datetime_from (cur : pydatetime) (l : list pydatetime) : pydatetime :=
  match l with
  | [] => cur
  | x :: l' =>
      min_datetime_from (if utc_instant x <? utc_instant cur then x else cur) l'
  end.

Fixpoint max_datetime_from (cur : pydatetime) (l : list pydatetime) : pydatetime :=
  match l with
  | [] => cur
  | x :: l' =>
      max_datetime_from (if utc_instant cur <? utc_instant x then x else cur) l'
  end.

Definition min_datetime (l : list pydatetime) : option pydatetime :=
  match List.map assume_utc l with
  | [] => None
  | x :: l' => Some (min_datetime_from x l')
  end.

Definition max_datetime (l : list pydatetime) : option pydatetime :=
  match List.map assume_utc l with
  | [] => None
  | x :: l' => Some (max_datetime_from x l')
  end.

Definition pinf : pyval := PFloat (FInf false).
Definition ninf : pyval := PFloat (FInf true).

(** The union of the bounding boxes of the items and the span of their
    datetimes. *)
Definition extent_from_items (items : list Item) : result Extent :=
  let! xmins := bbox_column 0 items in
  let! ymins := bbox_column 1 items in
  let! xmaxs := bbox_column 2 items in
  let! ymaxs := bbox_column 3 items in
  let! datetimes := item_datetimes items in
  let starts := List.map item_start_datetime items in
  let ends := List.map item_end_datetime items in
  let! xmin := py_min_from pinf xmins in
  let! ymin := py_min_from pinf ymins in
  let! xmax := py_max_from ninf xmaxs in
  let! ymax := py_max_from ninf ymaxs in
  Ok {| spatial := [[xmin; ymin; xmax; ymax]];
        temporal := [(min_datetime (datetimes ++ starts),
                      max_datetime (datetimes ++ ends))] |}.

(** ** [CSWSTACManager] ([stac.py]) *)

Definition add_or_use_variable_family (mgr : CSWSTACManager)
    (current_family : pystr) (md : metadata)
    : CSWSTACManager * metadata * nat :=
  let current_family_id := custom_slugify current_family in
  let children := cat_children (stac_catalog mgr) in
  let md := <["variable_family" := PStr current_family_id]> md in
  match index_of_id fam_id current_family_id children with
  | None =>
      let new_family :=
        {| fam_id := current_family_id;
           fam_title := current_family;
           fam_description := ustr "Variable Family " ++ current_family;
           fam_collections := [] |} in
      (save (set_children (stac_catalog mgr) (children ++ [new_family])),
       md, length children)
  | Some i => (mgr, md, i)
  end.

(** A dictionary key has to be hashable. *)
Definition hashable (x : pyval) : bool :=
  match x with
  | PList _ | PDict _ => false
  | _ => true
  end.

(** The loop that fills [unique_providers]: the first roles seen for
    each name. *)
Fixpoint collect_unique_providers (providers : list pyval)
    (unique_providers : list (pyval * pyval)) : result (list (pyval * pyval)) :=
  match providers with
  | [] => Ok unique_providers
  | provider_dict :: providers' =>
      let! name := py_getitem provider_dict "name" in
      if negb (hashable name) then Raise TypeError
      else if existsb (fun kv => py_eqb (fst kv) name) unique_providers
      then collect_unique_providers providers' unique_providers
      else
        let! roles := py_getitem provider_dict "roles" in
        collect_unique_providers providers' (unique_providers ++ [(name, roles)])
  end.

(** The collection extent a new collection starts with. *)
Definition initial_extent : Extent :=
  {| spatial := [[PFloat (FFin (-180)); PFloat (FFin (-90));
                  PFloat (FFin 180); PFloat (FFin 90)]];
     temporal := [(None, None)] |}.

(** [add_or_use_collection].  [fam] designates the variable family
    object.  The local variable [collection_convention] is bound only
    when a provider name contains [EMODnet]; the title of a new
    collection reads it. *)
Definition add_or_use_collection (mgr : CSWSTACManager) (fam : nat)
    (current_collection : pystr) (md : metadata)
    : result (CSWSTACManager * metadata * nat) :=
  match cat_children (stac_catalog mgr) !! fam with
  | None => Raise IndexError
  | Some variable_family =>
      let! md := update_providers md in
      let! providers := py_iter (default PNone (md !! "provider")) in
      let! unique_providers := collect_unique_providers providers [] in
      let current_collection_id := custom_slugify current_collection in
      let! emodnet :=
        any_m (fun key => py_in (ustr "EMODnet") key)
              (List.map fst unique_providers) in
      let current_collection_id :=
        if emodnet then ustr "emodnet-" ++ current_collection_id
        else current_collection_id in
      let collection_convention : option pystr :=
        if emodnet then Some (ustr "EMODnet") else None in
      match index_of_id coll_id current_collection_id
                        (fam_collections variable_family) with
      | None =>
          match collection_convention with
          | None => Raise UnboundLocalError
          | Some convention =>
              let new_collection :=
                {| coll_id := current_collection_id;
                   coll_title := current_collection ++ ustr " (" ++ convention
                                 ++ ustr " Convention)";
                   coll_description :=
                     ustr "Collection of " ++ current_collection ++ ustr " data";
                   coll_providers := unique_providers;
                   coll_license := default (pstr "CC-BY-4.0") (md !! "license");
                   coll_extent := initial_extent;
                   coll_items := [] |} in
              let md := <["variable_family" := PStr (fam_id variable_family)]> md in
              let colls := fam_collections variable_family in
              let cat :=
                set_children (stac_catalog mgr)
                  (<[fam := set_collections variable_family
                              (colls ++ [new_collection])]>
                     (cat_children (stac_catalog mgr))) in
              Ok (save cat, md, length colls)
          end
      | Some i => Ok (mgr, md, i)
      end
  end.

(** The inner function [lookup_assets] of [add_item]. *)
Fixpoint lookup_assets (links : list pyval) (assets : list (pystr * Asset))
    : result (list (pystr * Asset)) :=
  match links with
  | [] => Ok assets
  | PStr link :: links' =>
      match get_media_type link with
      | Some m =>
          if pystr_eqb (asset_type m) [] || pystr_eqb (mediatype m) []
          then lookup_assets links' assets
          else
            let asset :=
              {| href := link; asset_title := mt_title m;
                 asset_media_type := mediatype m; asset_roles := role m |} in
            lookup_assets links' (dict_set (asset_type m) asset assets)
      | None => lookup_assets links' assets
      end
  | _ :: _ => Raise AttributeError
  end.

(** [metadata[key]] *)
Definition md_get (md : metadata) (key : string) : result pyval :=
  match md !! key with
  | Some v => Ok v
  | None => Raise KeyError
  end.

Definition as_datetime (v : pyval) : result pydatetime :=
  match v with
  | PDatetime d => Ok d
  | _ => Raise TypeError
  end.

(** The item [add_item] builds once the identifier is known to be new. *)
Definition build_item (E : Env) (md : metadata) (new_item_id : pystr)
    (collection : Collection) : result (metadata * Item) :=
  let! bbox := finalize_boundaries E md in
  match bbox with
  | [lon_min; lat_min; lon_max; lat_max] =>
      let item_geometry :=
        [(lon_min, lat_min); (lon_max, lat_min); (lon_max, lat_max);
         (lon_min, lat_max); (lon_min, lat_min)] in
      let! md := update_datetimes md in
      let! md := format_start_end_datetimes_stac E md in
      let! start := md_get md "start_datetime" in
      let! start := as_datetime start in
      let! stop := md_get md "end_datetime" in
      let! stop := as_datetime stop in
      let! keywords := md_get md "subjects" in
      let! title := md_get md "title" in
      let properties : gmap string pyval :=
        <["title" := title]>
          (<["license" := default (pstr "CC-BY-4.0") (md !! "license")]>
             (<["proj:epsg" := default (PInt 4326) (md !! "crs")]>
                (<["keywords" := keywords]> ∅))) in
      let! providers := md_get md "provider" in
      let! provider := py_index providers 0 in
      let! name := py_getitem provider "name" in
      let properties := <["provider" := name]> properties in
      let properties :=
        if has_truthy md "references"
        then <["references" := default PNone (md !! "references")]> properties
        else properties in
      let! links := md_get md "assets" in
      let! links := py_iter links in
      let! assets := lookup_assets links [] in
      Ok (md,
          {| item_id := new_item_id;
             item_geometry := item_geometry;
             item_bbox := [lon_min; lat_min; lon_max; lat_max];
             item_start_datetime := start;
             item_end_datetime := stop;
             item_datetime := default PNone (md !! "datetime");
             item_properties := properties;
             item_stac_extensions :=
               [ustr "https://stac-extensions.github.io/projection/v1.1.0/schema.json"];
             item_collection := coll_id collection;
             item_assets := assets |})
  | _ => Raise ValueError
  end.

(** [add_item].  [fam] and [coll] designate the collection object.  The
    answer carries the manager, the metadata dictionary as the call
    leaves it, and whether the metadata was returned ([true]) or [None]
    was ([false]). *)
Definition add_item (E : Env) (mgr : CSWSTACManager) (md : metadata)
    (fam coll : nat) : result (CSWSTACManager * metadata * bool) :=
  match get_collection (stac_catalog mgr) fam coll with
  | None => Raise IndexError
  | Some collection =>
      let items := coll_items collection in
      if negb (has_truthy md "title")
      then (let! _ := md_get md "geonetwork_uri" in Ok (mgr, md, false))
      else
        match md !! "title" with
        | Some (PStr title) =>
            let new_item_id := custom_slugify title in
            if id_in item_id new_item_id items
            then Ok (mgr, md, false)
            else
              let! (md, new_item) := build_item E md new_item_id collection in
              match item_assets new_item with
              | [] => Ok (mgr, md, false)
              | _ :: _ =>
                  let items := items ++ [new_item] in
                  let! extent := extent_from_items items in
                  let collection := set_items_extent collection items extent in
                  let md := <["stac_id" := PStr new_item_id]> md in
                  let md := <["stac_collection" := PStr (coll_id collection)]> md in
                  Ok (save (put_collection (stac_catalog mgr) fam coll collection),
                      md, true)
              end
        | _ => Raise TypeError
        end
  end.

(** ** Progress records ([csw_to_stac.py]) *)

(** [d.update({k: v})] on a dictionary whose keys are Python values. *)
Fixpoint records_update (k : pyval) (v : metadata)
    (d : list (pyval * metadata)) : list (pyval * metadata) :=
  match d with
  | [] => [(k, v)]
  | (k', v') :: d' =>
      if py_eqb k' k then (k', v) :: d' else (k', v') :: records_update k v d'
  end.

Definition records_get (k : pyval) (d : list (pyval * metadata))
    : option metadata :=
  snd <$> List.find (fun kv => py_eqb (fst kv) k) d.

(** The progress state of a [CSWSTAConverter]: the dictionary
    [processed_records], the data frame built from it (one row per key),
    and the two files written from them. *)
Record Progress : Type := {
  processed_records : list (pyval * metadata);
  processed_records_df : list (pyval * metadata);
  processed_records_csv : list metadata;
  processed_records_json : list (pyval * metadata)
}.

(** The tail of [update_progress]: the data frame is rebuilt and both
    files are rewritten. *)
Definition persist_progress (records : list (pyval * metadata)) : Progress :=
  {| processed_records := records;
     processed_records_df := records;
     processed_records_csv := List.map snd records;
     processed_records_json := records |}.

(** The body of each branch of [update_progress]. *)
Definition mark_record (records : list (pyval * metadata))
    (csw_record : metadata) (status reason : string)
    : result (list (pyval * metadata) * metadata) :=
  let csw_record := <["in_stac" := pstr status]> csw_record in
  let csw_record := <["reason" := pstr reason]> csw_record in
  let! uri := md_get csw_record "geonetwork_uri" in
  if negb (hashable uri) then Raise TypeError
  else Ok (records_update uri csw_record records, csw_record).

Definition update_progress (p : Progress) (csw_record : metadata)
    (status reason : pystr) : result (Progress * metadata) :=
  let called s r := pystr_eqb status (ustr s) && pystr_eqb reason (ustr r) in
  let! (records, csw_record) :=
    if called "failed" "no_assets"
    then mark_record (processed_records p) csw_record "failed" "no_assets"
    else if called "failed" "already_exists"
    then mark_record (processed_records p) csw_record "failed" "already_exists"
    else if called "failed" "no_data"
    then mark_record (processed_records p) csw_record "failed" "no_data"
    else if called "successful" "Ok"
    then mark_record (processed_records p) csw_record "successful" "Ok"
    else Ok (processed_records p, csw_record) in
  Ok (persist_progress records, csw_record).

(** [len(x)] *)
Definition py_len (x : pyval) : result nat :=
  match x with
  | PStr s => Ok (length s)
  | PList l => Ok (length l)
  | PDict d => Ok (length d)
  | _ => Raise TypeError
  end.

(** [stac_catalog.get_all_items()] *)
Definition get_all_items (cat : Catalog) : list Item :=
  flat_map (fun f => flat_map coll_items (fam_collections f)) (cat_children cat).

(** [check_stac_ok]: the answer and the progress and metadata it
    leaves. *)
Definition check_stac_ok (p : Progress) (mgr : CSWSTACManager) (md : metadata)
    : result (Progress * metadata * bool) :=
  let reject reason :=
    let! (p, md) := update_progress p md (ustr "failed") (ustr reason) in
    Ok (p, md, false) in
  let! assets := md_get md "assets" in
  let! n_assets := py_len assets in
  if Nat.eqb n_assets 0
  then (let! _ := md_get md "geonetwork_uri" in
        let! _ := md_get md "title" in
        reject "no_assets"%string)
  else
    let! data_assets := md_get md "data_assets" in
    let! n_data := py_len data_assets in
    let! n_thumbnail :=
      if Nat.eqb n_data 0
      then (let! thumbnail_assets := md_get md "thumbnail_assets" in
            py_len thumbnail_assets)
      else Ok 1%nat in
    if Nat.eqb n_data 0 && Nat.eqb n_thumbnail 0
    then (let! _ := md_get md "geonetwork_uri" in
          let! _ := md_get md "title" in
          reject "no_data"%string)
    else if negb (has_truthy md "title")
    then (let! _ := md_get md "geonetwork_uri" in
          reject "record_no_title"%string)
    else
      let title := default PNone (md !! "title") in
      let all_stac_item_ids :=
        List.map (fun it => PStr (item_id it)) (get_all_items (stac_catalog mgr)) in
      if existsb (py_eqb title) all_stac_item_ids
      then (let! _ := md_get md "geonetwork_uri" in
            reject "already_exists"%string)
      else Ok (p, md, true).

(** ** A reference environment

    The statements below hold for every environment.  Concrete runs use
    this one: every request is answered with status 200, the machine
    runs in UTC, and the parser reads the timestamps
    [YYYY-MM-DDTHH:MM:SS] with an optional [Z] or [+HH:MM] / [-HH:MM]
    ([dateutil] reads many more layouts; on those this stand-in reports
    a [ValueError]). *)

(** A number of exactly [n] decimal digits at the head of [s]. *)
Fixpoint take_number (n : nat) (acc : Z) (s : pystr) : option (Z * pystr) :=
  match n with
  | O => Some (acc, s)
  | S n' =>
      match s with
      | c :: s' =>
          if py_isdecimal c then take_number n' (10 * acc + digit_value c) s'
          else None
      | [] => None
      end
  end.

Definition expect (c : string) (s : pystr) : option pystr :=
  if startswith (ustr c) s then Some (drop (length (ustr c)) s) else None.

Definition iso8601_offset (s : pystr) : option (option Z) :=
  match s with
  | [] => Some None
  | c :: s' =>
      if pystr_eqb s (ustr "Z") then Some (Some 0)
      else if (c =? 43)%N || (c =? 45)%N then
        '(h, s) ← take_number 2 0 s';
        s ← expect ":" s;
        '(m, s) ← take_number 2 0 s;
        if pystr_eqb s [] && (h <? 24) && (m <? 60)
        then Some (Some ((if (c =? 45)%N then -1 else 1) * (h * 3600 + m * 60)))
        else None
      else None
  end.

Definition iso8601_fields (s : pystr) : option pydatetime :=
  '(y, s) ← take_number 4 0 s;
  s ← expect "-" s;
  '(mo, s) ← take_number 2 0 s;
  s ← expect "-" s;
  '(d, s) ← take_number 2 0 s;
  s ← expect "T" s;
  '(h, s) ← take_number 2 0 s;
  s ← expect ":" s;
  '(mi, s) ← take_number 2 0 s;
  s ← expect ":" s;
  '(sec, s) ← take_number 2 0 s;
  tz ← iso8601_offset s;
  if (1 <=? y) && (1 <=? mo) && (mo <=? 12) && (1 <=? d) &&
     (d <=? days_in_month y mo) && (h <? 24) && (mi <? 60) && (sec <? 60)
  then Some (Datetime y mo d h mi sec 0 tz)
  else None.

Definition iso8601_parse (s : pystr) : result pydatetime :=
  match iso8601_fields s with
  | Some d => Ok d
  | None => Raise ValueError
  end.

Definition reference_env : Env :=
  {| http_get := fun _ => Some 200;
     dateutil_parse := iso8601_parse;
     local_astimezone_utc := fun d => Ok (replace_tz_utc d);
     datetime_today := Datetime 2025 1 1 0 0 0 0 None;
     numpy_isna_truth :=
       fun l => match l with
                | [] => Ok false
                | [PNone] | [PFloat FNan] => Ok true
                | [_] => Ok false
                | _ => Raise ValueError
                end |}.

(** ** Notions and sample data of the statements *)



(** A coordinate the test under [any] answers [True] for: [None], a float
    that is not a number, or the text [nan] in any case. *)
Definition nan_token (c : pyval) : bool :=
  match c with
  | PNone => true
  | PFloat FNan => true
  | PStr s => pystr_eqb (py_lower s) (ustr "nan")
  | _ => false
  end.

Definition is_list (c : pyval) : bool :=
  match c with
  | PList _ => true
  | _ => false
  end.

(** A box whose second coordinate is NaN, beside an out-of-range value,
    a text that is no number and a missing value. *)
Definition bbox_with_nan : metadata :=
  <["bbox" := PList [PFloat (FFin 200); PFloat FNan; pstr "abc"; PNone] ]> ∅.

(** A box whose first coordinate is a text that is no number: the three
    valid coordinates are kept and the text alone is replaced by the
    lower bound of the longitude. *)
Definition bbox_with_text : metadata :=
  <["bbox" := PList [pstr "abc"; PInt 0; PInt 1; PInt 1] ]> ∅.

(** *** The window of a record *)

(** The text held under a key, if any. *)
Definition get_str (md : metadata) (key : string) : option pystr :=
  match md !! key with
  | Some (PStr s) => Some s
  | _ => None
  end.






(** The four date fields hold text or [None]; the bounds, when set,
    hold text. *)
Definition str_or_none (o : option pyval) : bool :=
  match o with
  | None | Some PNone | Some (PStr _) => true
  | _ => false
  end.

Definition str_if_present (o : option pyval) : bool :=
  match o with
  | None | Some (PStr _) => true
  | _ => false
  end.

Definition dates_are_strings (md : metadata) : bool :=
  forallb (fun key => str_or_none (md !! key))
          ["created"; "date"; "issued"; "modified"]%string &&
  str_if_present (md !! "start_datetime") &&
  str_if_present (md !! "end_datetime").

(** The instant a timestamp [YYYY-MM-DDTHH:MM:SS] with an optional [Z]
    or offset denotes, in microseconds, a timestamp without offset being
    read as UTC. *)
Definition instant_of_text (s : pystr) : option Z :=
  d ← iso8601_fields s; Some (utc_instant d).

(** [a] is earlier than [b]. *)
Definition earlier (a b : pystr) : option bool :=
  x ← instant_of_text a; y ← instant_of_text b; Some (x <? y).

(** A record created at 09:59 in a zone two hours ahead of UTC, that is
    at 07:59 UTC, and modified half an hour later, at 08:30 UTC. *)
Definition record_mixed_offsets : metadata :=
  <["created" := pstr "2019-07-10T09:59:00+02:00"]>
    (<["modified" := pstr "2019-07-10T08:30:00Z"]> ∅).


(** The normal form: date, [T], time, the microseconds when there are
    any, and the suffix [Z]. *)
Definition iso8601_z (d : pydatetime) : pystr :=
  zero_padded 4 (year d) ++ ustr "-" ++ zero_padded 2 (month d) ++ ustr "-" ++
  zero_padded 2 (day d) ++ ustr "T" ++ zero_padded 2 (hour d) ++ ustr ":" ++
  zero_padded 2 (minute d) ++ ustr ":" ++ zero_padded 2 (second d) ++
  (if microsecond d =? 0 then [] else ustr "." ++ zero_padded 6 (microsecond d)) ++
  ustr "Z".

(** *** Boxes with finite coordinates *)

(** The finite number a coordinate stands for. *)
Definition coord_value (v : pyval) : option Q :=
  match as_number v with
  | Some (FFin q) => Some q
  | _ => None
  end.

(** The four finite coordinates of a box. *)
Definition box_values (box : list pyval) : option (Q * Q * Q * Q) :=
  match box with
  | [a; b; c; d] =>
      match coord_value a, coord_value b, coord_value c, coord_value d with
      | Some a, Some b, Some c, Some d => Some (a, b, c, d)
      | _, _, _, _ => None
      end
  | _ => None
  end.

Definition finite_box (it : Item) : option (Q * Q * Q * Q) :=
  box_values (item_bbox it).

(** The box [outer] encloses the box [inner]. *)
Definition encloses (outer inner : Q * Q * Q * Q) : Prop :=
  let '(x0, y0, x1, y1) := outer in
  let '(a, b, c, d) := inner in
  (x0 <= a)%Q /\ (y0 <= b)%Q /\ (c <= x1)%Q /\ (d <= y1)%Q.

(** The spatial extent is the union of the boxes of the items: one box
    that encloses the box of every item and each side of which is the
    side of some item. *)
Definition union_of_boxes (items : list Item) (e : Extent) : Prop :=
  exists box outer,
    spatial e = [box] /\ box_values box = Some outer /\
    (forall it inner, In it items -> finite_box it = Some inner ->
                      encloses outer inner) /\
    (forall i, (i < 4)%nat ->
               exists it, In it items /\
                          nth i (item_bbox it) PNone = nth i box PNone).

(** The [datetime] of an item, when it has one. *)
Definition item_instant (it : Item) : list pydatetime :=
  match item_datetime it with
  | PDatetime d => [d]
  | _ => []
  end.

(** The temporal extent of one item: it begins at its start and ends at
    its end, and holds its [datetime] when it has one. *)
Definition item_lower (it : Item) : list pydatetime :=
  item_instant it ++ [item_start_datetime it].

Definition item_upper (it : Item) : list pydatetime :=
  item_instant it ++ [item_end_datetime it].

(** The temporal extent is the union of the temporal extents of the
    items, a datetime without offset being read as UTC: one interval
    that begins where the earliest item begins and ends where the
    latest one ends.  Its start is a lower datetime of some item, at
    the same instant, and no lower datetime of any item is before it;
    its end is an upper datetime of some item, at the same instant, and
    no upper datetime of any item is after it. *)
Definition union_of_intervals (items : list Item) (e : Extent) : Prop :=
  exists lo hi,
    temporal e = [(Some lo, Some hi)] /\
    (exists it d, In it items /\ In d (item_lower it) /\
                  lo = assume_utc d /\ utc_instant lo = utc_instant d) /\
    (forall it d, In it items -> In d (item_lower it) ->
                  utc_instant lo <= utc_instant d) /\
    (exists it d, In it items /\ In d (item_upper it) /\
                  hi = assume_utc d /\ utc_instant hi = utc_instant d) /\
    (forall it d, In it items -> In d (item_upper it) ->
                  utc_instant d <= utc_instant hi).

(** *** A run from an empty catalog *)

(** The catalog [initialize_stac] creates. *)
Definition empty_catalog : Catalog :=
  {| cat_id := ustr "emodnet_geonetwork";
     cat_title := ustr "EMODnet Geonetwork Catalog";
     cat_description := ustr "Catalog of records found on EMODnet Geonetwork";
     cat_children := [] |}.

Definition initial_manager : CSWSTACManager := save empty_catalog.

(** A record as the harvester leaves it, with one asset. *)
Definition survey_record (uri title provider : string) (bbox : list pyval)
    : metadata :=
  <["geonetwork_uri" := pstr uri]>
    (<["title" := pstr title]>
       (<["bbox" := PList bbox]>
          (<["subjects" := PList [pstr "bathymetry"] ]>
             (<["provider" := PList [provider_entry (pstr provider) "provider"] ]>
                (<["assets" := PList [pstr "https://example.org/data/survey.zip"] ]>
                   ∅))))).

Definition record_a : metadata :=
  survey_record "a" "Survey A" "EMODnet Bathymetry"
                [PInt 0; PInt 0; PInt 1; PInt 1].
Definition record_b : metadata :=
  survey_record "b" "Survey B" "EMODnet Bathymetry"
                [PInt 2; PInt 2; PInt 3; PInt 3].
(** Another record whose title has the slug of [record_a]. *)
Definition record_a_again : metadata :=
  survey_record "c" "survey-a" "EMODnet Bathymetry"
                [PInt 5; PInt 5; PInt 6; PInt 6].

Definition ok_or {A} (d : A) (r : result A) : A :=
  match r with
  | Ok a => a
  | Raise _ => d
  end.

(** The family [Elevation], the collection [Bathymetry] in it, then the
    items of [record_a] and [record_b]. *)
Definition with_family : CSWSTACManager * metadata * nat :=
  add_or_use_variable_family initial_manager (ustr "Elevation") record_a.
Definition with_collection : CSWSTACManager * metadata * nat :=
  ok_or (initial_manager, record_a, 0%nat)
    (add_or_use_collection (fst (fst with_family)) (snd with_family)
                           (ustr "Bathymetry") (snd (fst with_family))).
Definition with_item_a : CSWSTACManager * metadata * bool :=
  ok_or (initial_manager, record_a, false)
    (add_item reference_env (fst (fst with_collection))
              (snd (fst with_collection)) 0 0).
Definition with_item_b : CSWSTACManager * metadata * bool :=
  ok_or (initial_manager, record_b, false)
    (add_item reference_env (fst (fst with_item_a)) record_b 0 0).

(** What a run answered, when it did not raise. *)
Definition observe {A B} (f : A -> B) (r : result A) : option B :=
  match r with
  | Ok a => Some (f a)
  | Raise _ => None
  end.

(** The call returned the metadata. *)
Definition returned_metadata {A B} (r : result (A * B * bool)) : bool :=
  match r with
  | Ok (_, _, true) => true
  | _ => false
  end.

(** A record whose thematic lot was not resolved (the harvester's label
    [Unknown]) and whose creator is an institute. *)
Definition record_unknown_provider : metadata :=
  <["creator" := pstr "Flanders Marine Institute"]>
    (survey_record "u" "Survey U" "Unknown" [PInt 0; PInt 0; PInt 1; PInt 1]).

(** The identifier of the collection a call of [add_or_use_collection]
    answered with. *)
Definition answered_collection_id
    (r : result (CSWSTACManager * metadata * nat)) : option pystr :=
  match r with
  | Ok (mgr, _, i) => coll_id <$> get_collection (stac_catalog mgr) 0 i
  | Raise _ => None
  end.

Definition empty_progress : Progress := persist_progress [].

(** A record without a title, as [check_stac_ok] meets it after the
    asset search found a data asset. *)
Definition record_without_title : metadata :=
  <["geonetwork_uri" := pstr "r1"]>
    (<["title" := pstr ""]>
       (<["assets" := PList [pstr "https://example.org/data/survey.zip"] ]>
          (<["data_assets" := PList [pstr "https://example.org/data/survey.zip"] ]>
             (<["thumbnail_assets" := PList [] ]> ∅)))).

(** What the progress files and the record say about a record: the
    reason in the JSON document, the number of rows of the table, and
    the [in_stac] mark of the record. *)
Definition progress_report (uri : string) (answer : Progress * metadata)
    : option pyval * nat * option pyval :=
  (md ← records_get (pstr uri) (processed_records_json (fst answer));
   md !! "reason",
   length (processed_records_csv (fst answer)),
   snd answer !! "in_stac").

(** * Further parts of the program *)

(** *** Assets of an item *)

(** The asset [lookup_assets] builds for a link of classification [m]. *)
Definition asset_of (link : pystr) (m : media_type) : Asset :=
  {| href := link; asset_title := mt_title m;
     asset_media_type := mediatype m; asset_roles := role m |}.

(** The asset type of a link, when it has one. *)
Definition link_type (link : pystr) : option pystr :=
  asset_type <$> get_media_type link.

(** ** [Utils.lookup_collection] *)

(** [collection_dict], in insertion order. *)
Definition collection_dict : list (string * string) :=
  [ ("seabed-habitats", "Seabed Habitats");
    ("seabedhabitats", "Seabed Habitats");
    ("emodnet-seabedhabitats", "Seabed Habitats");
    ("EMODnet Seabed Habitats", "Seabed Habitats");
    ("bathymetry", "Bathymetry");
    ("EMODnet Bathymetry", "Bathymetry");
    ("emodnet-bathymetry", "Bathymetry");
    ("geology", "Geology");
    ("EMODnet Geology", "Geology");
    ("emodnet-geology", "Geology");
    ("chemistry", "Chemistry");
    ("emodnet-chemistry", "Chemistry");
    ("EMODnet Chemistry", "Chemistry");
    ("gbif", "Biology");
    ("eurobis", "Biology");
    ("obis", "Biology");
    ("ipt", "Biology");
    ("mda.vliz", "Biology");
    ("emodnet-biology", "Biology");
    ("EMODnet Biology", "Biology");
    ("emodnet-physics", "Physics");
    ("EMODnet Physics", "Physics");
    ("physics", "Physics");
    ("humanactivities", "Human Activities");
    ("emodnet-humanactivities", "Human Activities");
    ("EMODnet Human Activities", "Human Activities") ]%string.

(** The loop over [metadata['provider']]: the first provider that has a
    key [name] and whose name holds a key of the table decides. *)
Fixpoint first_key_in_names (table : list (string * string))
    (providers : list pyval) : result (option pystr) :=
  match providers with
  | [] => Ok None
  | provider :: providers' =>
      let! named := py_in (ustr "name") provider in
      if named then
        let! name := py_getitem provider "name" in
        let! hit := first_key_in table name in
        match hit with
        | Some value => Ok (Some value)
        | None => first_key_in_names table providers'
        end
      else first_key_in_names table providers'
  end.

(** The search that [lookup_collection] and [lookup_thematic_lot] have
    in common: the assets one by one, then the abstract, then the
    subjects, and the default [EMODnet]. *)
Definition lookup_in_fields (table : list (string * string)) (md : metadata)
    : result pystr :=
  let! from_assets :=
    if has_truthy md "assets"
    then let! assets := py_iter (default PNone (md !! "assets")) in
         first_key_in_any table assets
    else Ok None in
  match from_assets with
  | Some value => Ok value
  | None =>
      let! from_abstract :=
        if has_truthy md "abstract"
        then first_key_in table (default PNone (md !! "abstract"))
        else Ok None in
      match from_abstract with
      | Some value => Ok value
      | None =>
          let! from_subjects :=
            if has_truthy md "subjects"
            then first_key_in table (default PNone (md !! "subjects"))
            else Ok None in
          Ok (default (ustr "EMODnet") from_subjects)
      end
  end.

Definition lookup_collection (md : metadata) : result pystr :=
  let! from_provider :=
    if has_truthy md "provider"
    then let! providers := py_iter (default PNone (md !! "provider")) in
         first_key_in_names collection_dict providers
    else Ok None in
  match from_provider with
  | Some value => Ok value
  | None => lookup_in_fields collection_dict md
  end.

(** *** Thematic lots and collections *)

(** The answers of [lookup_thematic_lot]. *)
Definition thematic_lots : list pystr :=
  List.map ustr
    ["EMODnet"; "EMODnet Seabed Habitats"; "EMODnet Bathymetry";
     "EMODnet Geology"; "EMODnet Chemistry"; "EMODnet Biology";
     "EMODnet Physics"; "EMODnet Human Activities"]%string.

(** The thematic lot that goes with a collection name: the name after
    [EMODnet], the default [EMODnet] standing for itself. *)
Definition thematic_lot_of (collection : pystr) : pystr :=
  if pystr_eqb collection (ustr "EMODnet") then collection
  else ustr "EMODnet " ++ collection.

(** The search of a table when the membership test is a plain boolean:
    the value of the first key for which the test holds. *)
Definition table_value (h : string -> bool) (table : list (string * string))
    : option pystr :=
  (fun kv => ustr (snd kv)) <$> List.find (fun kv => h (fst kv)) table.

(** A provider entry as the harvester writes it: a dictionary with a
    text under [name] and something under [roles]. *)
Definition provider_well_formed (p : pyval) : bool :=
  match p with
  | PDict d =>
      match dict_get (ustr "name") d, dict_get (ustr "roles") d with
      | Some (PStr _), Some _ => true
      | _, _ => false
      end
  | _ => false
  end.

(** A record without a creator, a publisher or a distributor, whose only
    clue is its abstract. *)
Definition record_from_abstract : metadata :=
  <["geonetwork_uri" := pstr "g"]>
    (<["title" := pstr "Depth soundings"]>
       (<["abstract" := pstr "A bathymetry survey of the North Sea"]>
          (<["provider" := PList [] ]>
             (<["assets" := PList [pstr "https://example.org/data/survey.zip"] ]>
                ∅)))).

(** *** Upserts of families and collections *)

(** The identifiers of the families of a catalog and of the collections
    of a family. *)
Definition family_ids (cat : Catalog) : list pystr :=
  List.map fam_id (cat_children cat).

Definition collection_ids (f : Family) : list pystr :=
  List.map coll_id (fam_collections f).

(** The identifier [add_or_use_collection] looks for: the slug of the
    collection name, after [emodnet-] when a provider name holds
    [EMODnet]. *)
Definition collection_slug (emodnet : bool) (current_collection : pystr) : pystr :=
  if emodnet then ustr "emodnet-" ++ custom_slugify current_collection
  else custom_slugify current_collection.

(** The name of a provider entry. *)
Definition provider_name (p : pyval) : option pyval :=
  match p with
  | PDict d => dict_get (ustr "name") d
  | _ => None
  end.

(** The entry [update_providers] appends: the distributor, else the
    publisher, else the creator, else the thematic lot. *)
Definition chosen_provider (md : metadata) : result pyval :=
  if has_truthy md "distributor"
  then Ok (provider_entry (default PNone (md !! "distributor")) "distributor")
  else if has_truthy md "publisher"
  then Ok (provider_entry (default PNone (md !! "publisher")) "publisher")
  else if has_truthy md "creator"
  then Ok (provider_entry (default PNone (md !! "creator")) "creator")
  else let! provider := lookup_thematic_lot md in
       Ok (provider_entry (PStr provider) "provider").

(** A record with a creator and a publisher. *)
Definition record_two_parties : metadata :=
  <["creator" := pstr "Flanders Marine Institute"]>
    (<["publisher" := pstr "EMODnet Biology"]>
       (<["provider" := PList [provider_entry (pstr "Unknown") "provider"] ]> ∅)).

(** The run did not raise. *)
Definition is_ok {A} (r : result A) : bool :=
  match r with
  | Ok _ => true
  | Raise _ => false
  end.

(** The text of a key that is a text. *)
Definition key_contains (p : pystr) (key : pyval) : bool :=
  match key with
  | PStr s => contains p s
  | _ => false
  end.

Definition is_text (v : pyval) : bool :=
  match v with
  | PStr _ => true
  | _ => false
  end.

(** The catalog with the family [Elevation] and the record
    [record_from_abstract] filed under it. *)
Definition with_family_from_abstract : CSWSTACManager * metadata * nat :=
  add_or_use_variable_family initial_manager (ustr "Elevation")
                             record_from_abstract.

(** *** Records and items *)

(** The two keys that [update_datetimes] and
    [format_start_end_datetimes_stac] write. *)
Definition window_key (k : string) : bool :=
  bool_decide (k = "start_datetime"%string) ||
  bool_decide (k = "end_datetime"%string).

(** The identifiers of the items of a collection. *)
Definition item_ids (c : Collection) : list pystr :=
  List.map item_id (coll_items c).

(** A record with one data asset whose title is [Survey A] once more. *)
Definition record_same_title : metadata :=
  <["data_assets" := PList [pstr "https://example.org/data/survey.zip"] ]>
    (<["thumbnail_assets" := PList [] ]>
       (survey_record "d" "Survey A" "EMODnet Bathymetry"
                      [PInt 7; PInt 7; PInt 8; PInt 8])).

(** *** Progress *)

(** The calls [update_progress] has a branch for. *)
Definition recorded_outcome (status reason : string) : bool :=
  (String.eqb status "failed" &&
   (String.eqb reason "no_assets" || String.eqb reason "already_exists" ||
    String.eqb reason "no_data")) ||
  (String.eqb status "successful" && String.eqb reason "Ok").

(** The identifiers of all the items of a catalog. *)
Definition all_item_ids (cat : Catalog) : list pystr :=
  List.map item_id (get_all_items cat).

(** A progress dictionary with one record, and a second record. *)
Definition progress_with_r1 : Progress :=
  persist_progress [(pstr "r1", record_without_title)].

Definition record_r2 : metadata :=
  <["geonetwork_uri" := pstr "r2"]> (<["title" := pstr "Second"]> ∅).

(** *** Coordinates in range *)

(** A coordinate [finalize_boundaries] may answer with: one of the two
    bounds as an integer, a finite float between the bounds, or the
    float that is not a number. *)
Definition coordinate_ok (lo hi : Z) (v : pyval) : bool :=
  match v with
  | PInt z => (z =? lo) || (z =? hi)
  | PFloat (FFin q) => Qle_bool (inject_Z lo) q && Qle_bool q (inject_Z hi)
  | PFloat FNan => true
  | _ => false
  end.

Definition is_nan (v : pyval) : bool :=
  match v with
  | PFloat FNan => true
  | _ => false
  end.

(** A box far outside the world, with an infinite coordinate. *)
Definition bbox_out_of_range : metadata :=
  <["bbox" := PList [PInt (-500); PFloat (FInf true); PFloat (FFin (Qmake 1801 10));
                     pstr "95.5"] ]> ∅.

(** ** [Utils.format_start_end_datetimes_to_iso8601] *)

(** [format_datetime_to_iso8601] on a value that need not be a text:
    [len] or the parser raise [TypeError] on every other value, and the
    answer [None] is a value of its own. *)
Definition format_datetime_to_iso8601_value (E : Env) (v : pyval)
    : result pyval :=
  match v with
  | PStr s =>
      let! r := format_datetime_to_iso8601 E s in
      Ok match r with
         | Some t => PStr t
         | None => PNone
         end
  | _ => Raise TypeError
  end.

(** [metadata.get(key)] *)
Definition md_get_or_none (md : metadata) (key : string) : pyval :=
  default PNone (md !! key).

Definition format_start_end_datetimes_to_iso8601 (E : Env) (md : metadata)
    : result metadata :=
  let! s := format_datetime_to_iso8601_value E (md_get_or_none md "start_datetime") in
  let md := <["start_datetime" := s]> md in
  let! e := format_datetime_to_iso8601_value E (md_get_or_none md "end_datetime") in
  Ok (<["end_datetime" := e]> md).

(** A normalised date: [None], or a text that ends in [Z]. *)
Definition normalised_date (v : option pyval) : bool :=
  match v with
  | Some PNone => true
  | Some (PStr t) => endswith (ustr "Z") t
  | _ => false
  end.

Definition record_window : metadata :=
  <["start_datetime" := pstr "2020"]>
    (<["end_datetime" := pstr "2021-06-30T10:00:00+02:00"]> ∅).

(** ** Link tests ([utils.py], [assets.py]) *)

(** The answer of a capabilities request, as
    [get_wms_version_and_bbox] reads it: nothing when the request
    raises, the status is not 200 or the body is no XML; else the
    attribute [version] of the root and the attributes [minx], [miny],
    [maxx], [maxy] of the first bounding box of a layer, each of which
    may be absent. *)
Inductive capabilities : Type :=
  | CapabilitiesFailed
  | CapabilitiesParsed
      (version : option pystr)
      (bounding_box : option (option pystr * option pystr *
                              option pystr * option pystr)).

(** The answer to [requests.get(url)] as [verify_wms_request] reads
    it: nothing when the request raises a [RequestException]; else the
    status code and the header [Content-Type], which may be absent. *)
Inductive wms_response : Type :=
  | RequestFailed
  | Responded (status_code : Z) (content_type : option pystr).

(** What the link tests obtain from outside, beside [Env].
    - [wms_capabilities url] is the capabilities document at [url];
    - [wms_get url] is the answer to the map request [url];
    - [requests_head url] is the header [Content-Type] of
      [requests.head(url)] in lower case (the empty text when the header
      is absent), or [None] when the request or [raise_for_status]
      raises a [RequestException];
    - [opendap_dataset url] is the truth value of the dataset [xarray]
      opens at [url], or [None] when opening it raises;
    - [str_of v] is [str(v)] for a value that is not a text. *)
Record Probes : Type := {
  wms_capabilities : pystr -> capabilities;
  wms_get : pystr -> wms_response;
  requests_head : pystr -> option pystr;
  opendap_dataset : pystr -> option bool;
  str_of : pyval -> pystr
}.

(** [str(v)] and [f"{v}"] *)
Definition py_str (W : Probes) (v : pyval) : pystr :=
  match v with
  | PStr s => s
  | _ => str_of W v
  end.

(** [str(z)] of an integer *)
Definition str_int (z : Z) : pystr :=
  ustr (NilZero.string_of_int (Z.to_int z)).

(** [f"{o}"] of a text that may be [None] *)
Definition str_or_None (o : option pystr) : pystr :=
  default (ustr "None") o.

(** [not s] for a text that may be [None] *)
Definition text_truthy (o : option pystr) : bool :=
  match o with
  | Some (_ :: _) => true
  | _ => false
  end.

(** [s.split(sep)[-1]] for a one-character separator: the text after the
    last separator. *)
Fixpoint last_segment (sep : N) (acc s : pystr) : pystr :=
  match s with
  | [] => acc
  | c :: s' => if (c =? sep)%N then last_segment sep [] s'
               else last_segment sep (acc ++ [c]) s'
  end.

(** [sep.join(l)] *)
Fixpoint join (sep : pystr) (l : list pystr) : pystr :=
  match l with
  | [] => []
  | [s] => s
  | s :: l' => s ++ sep ++ join sep l'
  end.

(** [Utils.test_mda] *)
Definition test_mda (E : Env) (mdalink : pystr) : option pystr :=
  let mdalink :=
    if negb (contains (ustr "https://") mdalink)
    then ustr "https://" ++ mdalink else mdalink in
  let mdalink :=
    if contains (ustr "/mda/") mdalink
    then replace (ustr "/mda/") (ustr "/") mdalink else mdalink in
  if option_bool_truthy (test_link E mdalink) then Some mdalink else None.

(** [expected_formats] of [Utils.test_wfs] *)
Definition expected_formats : list (string * string) :=
  [ ("csv", "text/csv"); ("json", "application/json");
    ("shp", "application/x-shapefile") ]%string.

(** [Utils.test_wfs] *)
Definition test_wfs (W : Probes) (dataset_url expected_format : pystr) : bool :=
  match List.find (fun kv => pystr_eqb (ustr (fst kv)) (py_lower expected_format))
                  expected_formats with
  | None => false
  | Some (_, expected_mime) =>
      match requests_head W dataset_url with
      | Some content_type => contains (ustr expected_mime) content_type
      | None => false
      end
  end.

Definition eurobis_wfs_base_url : pystr :=
  ustr "https://geo.vliz.be/geoserver/Dataportal/wfs?service=wfs&version=1.1.0&typeName=eurobis-obisenv_basic&request=GetFeature&outputFormat=text%2Fcsv&viewParams=datasetid%3A".

(** [Utils.convert_eurobis_toolbox_to_wfs] *)
Definition convert_eurobis_toolbox_to_wfs (W : Probes) (url : pystr)
    : option pystr :=
  let dataset_id := last_segment 47 [] url in
  let wfs_url := eurobis_wfs_base_url ++ dataset_id in
  if test_wfs W wfs_url (ustr "csv") then Some wfs_url else None.

(** [Utils.test_opendap]: the URL when the dataset opens and is true;
    [None] when opening raises, and when the dataset is false, where the
    function ends without a [return]. *)
Definition test_opendap (W : Probes) (dataset_url : pystr) : option pystr :=
  match opendap_dataset W dataset_url with
  | Some true => Some dataset_url
  | _ => None
  end.

(** ** [AssetManager] ([assets.py]) *)

(** [get_wms_version_and_bbox] *)
Definition get_wms_version_and_bbox (W : Probes) (base_url : pystr)
    : option pystr * option pystr :=
  let base_url :=
    if endswith (ustr "?") base_url then removelast base_url else base_url in
  let capabilities_url := base_url ++ ustr "?SERVICE=WMS&REQUEST=GetCapabilities" in
  match wms_capabilities W capabilities_url with
  | CapabilitiesFailed => (None, None)
  | CapabilitiesParsed version bounding_box =>
      (version,
       (fun '(minx, miny, maxx, maxy) =>
          str_or_None minx ++ ustr "," ++ str_or_None miny ++ ustr "," ++
          str_or_None maxx ++ ustr "," ++ str_or_None maxy) <$> bounding_box)
  end.

(** [construct_wms_request], with the defaults of the source for
    [crs], [styles] and [format]. *)
Definition construct_wms_request (base_url layers bbox : pystr)
    (width height : Z) (version : pystr) : pystr :=
  let params :=
    [ (ustr "SERVICE", ustr "WMS"); (ustr "VERSION", version);
      (ustr "REQUEST", ustr "GetMap"); (ustr "LAYERS", layers);
      (ustr "STYLES", ustr ""); (ustr "CRS", ustr "EPSG:4326");
      (ustr "BBOX", bbox); (ustr "WIDTH", str_int width);
      (ustr "HEIGHT", str_int height); (ustr "FORMAT", ustr "image/png") ] in
  let base_url :=
    if negb (endswith (ustr "?") base_url) then base_url ++ ustr "?"
    else base_url in
  base_url ++
  join (ustr "&") (List.map (fun kv => fst kv ++ ustr "=" ++ snd kv) params).

(** [verify_wms_request]: reading the header of an answer that has
    none raises [KeyError]. *)
Definition verify_wms_request (W : Probes) (wms_request_url : pystr)
    : result bool :=
  match wms_get W wms_request_url with
  | RequestFailed => Ok false
  | Responded status_code content_type =>
      if negb (status_code =? 200) then Ok false
      else
        match content_type with
        | None => Raise KeyError
        | Some content_type =>
            if negb (pystr_eqb content_type (ustr "image/png")) then Ok false
            else Ok true
        end
  end.

(** [test_wms].  The URL of the link is a text. *)
Definition test_wms (W : Probes) (link_item : pyval) (base_url : pystr)
    : result (option pystr) :=
  let! layers := py_getitem link_item "name" in
  let '(version, bbox) := get_wms_version_and_bbox W base_url in
  if negb (text_truthy version) || negb (text_truthy bbox) then Ok None
  else
    let wms_request_url :=
      construct_wms_request base_url (py_str W layers) (str_or_None bbox)
                            800 600 (str_or_None version) in
    let! verified := verify_wms_request W wms_request_url in
    if verified then Ok (Some wms_request_url)
    else Ok None.

(** [csw_record[key].append(x)] *)
Definition md_append (md : metadata) (key : string) (x : pyval)
    : result metadata :=
  match md !! key with
  | None => Raise KeyError
  | Some (PList l) => Ok (<[key := PList (l ++ [x])]> md)
  | Some _ => Raise AttributeError
  end.

(** [sort_asset].  [url] is [link_item['url']], a text: [find_assets]
    has classified it.  The lists under [assets], [data_assets] and
    [thumbnail_assets] are distinct objects, as [process_records]
    creates them. *)
Definition sort_asset (W : Probes) (E : Env) (csw_record : metadata)
    (link_item : pyval) (url : pystr) (asset_type mediatype : pystr)
    (role : list pystr) : result metadata :=
  let! record_id := md_get csw_record "geonetwork_uri" in
  let is_type t := pystr_eqb asset_type (ustr t) in
  let add_data (csw_record : metadata) (found : pystr) (key : option string) :=
    let! csw_record := md_append csw_record "assets" (PStr found) in
    let csw_record :=
      match key with
      | Some key => <[key := PStr found]> csw_record
      | None => csw_record
      end in
    md_append csw_record "data_assets" (PStr found) in
  if is_type "wms" then
    let! wms_url := test_wms W link_item url in
    if text_truthy wms_url then
      let wms_url := default [] wms_url in
      let! csw_record := md_append csw_record "assets" (PStr wms_url) in
      Ok (<["wms_asset" := PStr wms_url]> csw_record)
    else
      let! _ := md_get csw_record "title" in Ok csw_record
  else if is_type "wfs" then
    add_data csw_record url (Some "wfs_asset"%string)
  else if is_type "iptresource" then
    let! dwca_url := convert_ipt_to_dwca E url in
    if text_truthy dwca_url
    then add_data csw_record (default [] dwca_url) (Some "dwca_asset"%string)
    else
      let! _ := md_get csw_record "title" in Ok csw_record
  else if is_type "eurobistoolbox" then
    let wfs_url := convert_eurobis_toolbox_to_wfs W url in
    if text_truthy wfs_url
    then add_data csw_record (default [] wfs_url) (Some "wfs_asset"%string)
    else
      let! _ := md_get csw_record "title" in Ok csw_record
  else if is_type "opendap" then
    let opendap_url := test_opendap W url in
    if text_truthy opendap_url
    then add_data csw_record (default [] opendap_url) None
    else Ok csw_record
  else if is_type "mdazip" then
    let mdalink := test_mda E url in
    if text_truthy mdalink
    then add_data csw_record (default [] mdalink) None
    else Ok csw_record
  else if bool_decide (role = [ustr "data"]) then
    if option_bool_truthy (test_link E url)
    then add_data csw_record url None
    else Ok csw_record
  else if bool_decide (role = [ustr "thumbnail"]) then
    if option_bool_truthy (test_link E url)
    then
      let! csw_record := md_append csw_record "assets" (PStr url) in
      md_append csw_record "thumbnail_assets" (PStr url)
    else Ok csw_record
  else
    if option_bool_truthy (test_link E url)
    then md_append csw_record "assets" (PStr url)
    else Ok csw_record.

(** [isinstance(link_item, dict) and "url" in link_item and
    link_item["url"]] *)
Definition link_url (link_item : pyval) : option pyval :=
  match link_item with
  | PDict d =>
      match dict_get (ustr "url") d with
      | Some url => if py_truthy url then Some url else None
      | None => None
      end
  | _ => None
  end.

(** The loop of [find_assets]. *)
Fixpoint find_assets_loop (W : Probes) (E : Env) (csw_record : metadata)
    (record_links : list pyval) : result metadata :=
  match record_links with
  | [] => Ok csw_record
  | link_item :: record_links' =>
      match link_url link_item with
      | Some (PStr link) =>
          match get_media_type link with
          | Some m =>
              if pystr_eqb (asset_type m) [] || pystr_eqb (mediatype m) []
              then find_assets_loop W E csw_record record_links'
              else
                let! csw_record :=
                  sort_asset W E csw_record link_item link
                             (asset_type m) (mediatype m) (role m) in
                find_assets_loop W E csw_record record_links'
          | None => find_assets_loop W E csw_record record_links'
          end
      | Some _ => Raise AttributeError
      | None => find_assets_loop W E csw_record record_links'
      end
  end.

Definition find_assets (W : Probes) (E : Env) (csw_record : metadata)
    : result metadata :=
  match csw_record !! "links" with
  | Some record_links =>
      let! record_links := py_iter record_links in
      find_assets_loop W E csw_record record_links
  | None =>
      let! _ := md_get csw_record "title" in Ok csw_record
  end.

(** *** The asset lists of a record *)

(** The texts of a list under a key. *)
Definition listed (md : metadata) (key : string) : option (list pyval) :=
  match md !! key with
  | Some (PList l) => Some l
  | _ => None
  end.

(** The keys [sort_asset] writes. *)
Definition asset_key (k : string) : bool :=
  bool_decide (k ∈ ["assets"; "data_assets"; "thumbnail_assets";
                    "wms_asset"; "wfs_asset"; "dwca_asset"]%string).

(** Probes that answer every request favourably. *)
Definition reference_probes : Probes :=
  {| wms_capabilities := fun _ =>
       CapabilitiesParsed (Some (ustr "1.3.0"))
         (Some (Some (ustr "-10"), Some (ustr "30"), Some (ustr "40"), None));
     wms_get := fun _ => Responded 200 (Some (ustr "image/png"));
     requests_head := fun _ => Some (ustr "text/csv; charset=utf-8");
     opendap_dataset := fun _ => Some true;
     str_of := fun _ => ustr "None" |}.

Definition link (url name : string) : pyval :=
  PDict [(ustr "url", pstr url); (ustr "name", pstr name)].

(** A harvested record with four links, the lists of [process_records]
    still empty. *)
Definition record_with_links : metadata :=
  <["geonetwork_uri" := pstr "h"]>
    (<["title" := pstr "Harvest"]>
       (<["links" := PList [link "https://example.org/data/grid.nc" "grid";
                            link "http://ipt.vliz.be/eurobis/resource?r=zoobenthos" "occurrences";
                            link "https://example.org/preview.png" "preview";
                            PDict [(ustr "name", pstr "broken")];
                            link "https://example.org/geoserver/wms?" "depth"] ]>
          (<["assets" := PList [] ]>
             (<["data_assets" := PList [] ]>
                (<["thumbnail_assets" := PList [] ]> ∅))))).

(** What [sort_asset] and [find_assets] do to the three lists: [added]
    is appended to the assets, [data] to the data assets, [thumbnails]
    to the thumbnails, and no key beside the asset keys changes. *)
Definition lists_grown (md md' : metadata) (added data thumbnails : list pyval)
    : Prop :=
  (forall l, listed md "assets" = Some l ->
             listed md' "assets" = Some (l ++ added)) /\
  (forall l, listed md "data_assets" = Some l ->
             listed md' "data_assets" = Some (l ++ data)) /\
  (forall l, listed md "thumbnail_assets" = Some l ->
             listed md' "thumbnail_assets" = Some (l ++ thumbnails)) /\
  (forall k : string, asset_key k = false -> md' !! k = md !! k).

(** * Properties *)

(** ** Strings *)

(** Replaces the literals of the goal and of the hypotheses by their
    code points. *)
Ltac ustr_compute :=
  repeat match goal with
         | |- context [ustr ?s] =>
             let v := eval vm_compute in (ustr s) in
             change (ustr s) with v in *
         | H : context [ustr ?s] |- _ =>
             let v := eval vm_compute in (ustr s) in
             change (ustr s) with v in *
         end.

Lemma startswith_nil s : startswith [] s = true.
Proof. destruct s; reflexivity. Qed.

Lemma startswith_app p s : startswith p (p ++ s) = true.
Proof.
  induction p as [|a p IH]; simpl.
  - apply startswith_nil.
  - rewrite N.eqb_refl. exact IH.
Qed.

Lemma startswith_split p s :
  startswith p s = true -> exists t, s = p ++ t.
Proof.
  revert p. induction s as [|b s IH]; intros [|a p] H; simpl in H;
    try discriminate.
  - exists []. reflexivity.
  - exists (b :: s). reflexivity.
  - apply andb_true_iff in H as [Hab Hp].
    apply N.eqb_eq in Hab. subst b.
    destruct (IH p Hp) as [t ->]. exists t. reflexivity.
Qed.

Lemma contains_cons_eq p c s :
  contains p (c :: s) = startswith p (c :: s) || contains p s.
Proof. reflexivity. Qed.

Lemma contains_app p a b : contains p (a ++ p ++ b) = true.
Proof.
  induction a as [|c a IH].
  - simpl. destruct (p ++ b) eqn:Hpb.
    + destruct p; [reflexivity | discriminate].
    + rewrite contains_cons_eq, <- Hpb, startswith_app. reflexivity.
  - simpl app. rewrite contains_cons_eq, IH. apply orb_true_r.
Qed.

Lemma replace_from_0_cons old new c s :
  replace_from old new 0 (c :: s) =
  if startswith old (c :: s)
  then new ++ replace_from old new (Nat.pred (length old)) s
  else c :: replace_from old new 0 s.
Proof. reflexivity. Qed.

(** The rewrite of [http://] into [https://] keeps every occurrence of
    [/resource?r=]: an occurrence can overlap a rewritten [http://] only
    in its last slash, which the replacement text ends with as well. *)
Lemma http_rewrite_keeps_resource s :
  contains (ustr "/resource?r=") s = true ->
  contains (ustr "/resource?r=")
           (replace (ustr "http://") (ustr "https://") s) = true.
Proof.
  unfold replace. ustr_compute.
  remember (length s) as n eqn:Hn. revert s Hn.
  induction n as [n IH] using lt_wf_ind. intros s Hn Hc.
  destruct s as [|c s']; [discriminate Hc|].
  rewrite replace_from_0_cons.
  destruct (startswith _ (c :: s')) eqn:Hs.
  - destruct (startswith_split _ _ Hs) as [t Ht].
    cbn in Ht. injection Ht as -> ->.
    cbn in Hc. cbn.
    apply orb_true_iff in Hc as [Hc|Hc].
    + destruct (startswith_split _ _ Hc) as [u ->].
      cbn. rewrite startswith_nil. reflexivity.
    + rewrite (IH (length t)); [apply orb_true_r | | reflexivity | exact Hc].
      subst n. cbn. lia.
  - rewrite contains_cons_eq in Hc |- *.
    apply orb_true_iff in Hc as [Hc|Hc].
    + destruct (startswith_split _ _ Hc) as [u Hu].
      cbn in Hu. injection Hu as -> ->.
      cbn. rewrite startswith_nil. reflexivity.
    + rewrite (IH (length s')); [apply orb_true_r | | reflexivity | exact Hc].
      subst n. simpl. lia.
Qed.

(** ** Regular expressions: a successful search exhibits a match *)

Lemma nullable_sound r : nullable r = true -> lang r [].
Proof.
  induction r; simpl; intros H; try discriminate.
  - constructor.
  - apply andb_true_iff in H as [H1 H2].
    change (@nil N) with (@nil N ++ []). constructor; auto.
  - apply orb_true_iff in H as [H|H];
      [apply lang_alt_l | apply lang_alt_r]; auto.
  - constructor.
Qed.

Lemma mk_seq_sound r1 r2 s : lang (mk_seq r1 r2) s -> lang (RSeq r1 r2) s.
Proof.
  unfold mk_seq. intros H.
  destruct r1; try (inversion H; fail);
    try (destruct r2; try (inversion H; fail); exact H).
  change s with ([] ++ s). constructor; [constructor | exact H].
Qed.

Lemma mk_alt_sound r1 r2 s : lang (mk_alt r1 r2) s -> lang (RAlt r1 r2) s.
Proof.
  unfold mk_alt. intros H.
  destruct r1; try (apply lang_alt_r; exact H);
    destruct r2; try (apply lang_alt_l; exact H); exact H.
Qed.

Lemma deriv_sound r : forall c s, lang (deriv c r) s -> lang r (c :: s).
Proof.
  induction r as [| |a| |ranges|r1 IH1 r2 IH2|r1 IH1 r2 IH2|r IH];
    intros c s H; simpl in H.
  - inversion H.
  - inversion H.
  - destruct (a =? c)%N eqn:Hac; inversion H; subst.
    apply N.eqb_eq in Hac. subst. constructor.
  - destruct (c =? 10)%N eqn:Hc; inversion H; subst. constructor. exact Hc.
  - destruct (in_ranges ranges c) eqn:Hc; inversion H; subst.
    constructor. exact Hc.
  - apply mk_alt_sound in H. inversion H as [| | | | |? ? ? Hl|? ? ? Hr| |]; subst.
    + apply mk_seq_sound in Hl.
      inversion Hl as [| | | |? ? s1 s2 H1 H2| | | |]; subst.
      change (c :: s1 ++ s2) with ((c :: s1) ++ s2). constructor; auto.
    + destruct (nullable r1) eqn:Hn; [|inversion Hr].
      change (c :: s) with ([] ++ c :: s).
      constructor; [apply nullable_sound; exact Hn | auto].
  - apply mk_alt_sound in H. inversion H; subst;
      [apply lang_alt_l | apply lang_alt_r]; auto.
  - apply mk_seq_sound in H.
    inversion H as [| | | |? ? s1 s2 H1 H2| | | |]; subst.
    change (c :: s1 ++ s2) with ((c :: s1) ++ s2). constructor; auto.
Qed.

Lemma prefix_match_sound s : forall r,
  prefix_match r s = true -> exists m q, s = m ++ q /\ lang r m.
Proof.
  induction s as [|c s IH]; intros r H; simpl in H.
  - rewrite orb_false_r in H. exists [], []. split; [reflexivity|].
    apply nullable_sound; exact H.
  - apply orb_true_iff in H as [H|H].
    + exists [], (c :: s). split; [reflexivity|]. apply nullable_sound; exact H.
    + destruct (IH _ H) as (m & q & -> & Hm).
      exists (c :: m), q. split; [reflexivity|]. apply deriv_sound; exact Hm.
Qed.

Lemma re_search_sound r s :
  re_search r s = true -> exists p m q, s = p ++ m ++ q /\ lang r m.
Proof.
  induction s as [|c s IH]; intros H.
  - simpl in H. rewrite !orb_false_r in H. exists [], [], [].
    split; [reflexivity | apply nullable_sound; exact H].
  - change (prefix_match r (c :: s) || re_search r s = true) in H.
    apply orb_true_iff in H as [H|H].
    + destruct (prefix_match_sound _ _ H) as (m & q & Hs & Hm).
      exists [], m, q. auto.
    + destruct (IH H) as (p & m & q & -> & Hm).
      exists (c :: p), m, q. auto.
Qed.

Lemma lang_lit l s : lang (RLit l) s -> s = l.
Proof.
  revert s. induction l as [|a l IH]; intros s H; simpl in H.
  - inversion H. reflexivity.
  - inversion H as [| | | |? ? s1 s2 H1 H2| | | |]; subst.
    inversion H1; subst. simpl. f_equal. auto.
Qed.

(** A text in which the IPT resource pattern is found contains the
    literal [/resource?r=]. *)
Lemma ipt_resource_pattern_literal url :
  re_search ipt_resource_pattern url = true ->
  contains (ustr "/resource?r=") url = true.
Proof.
  intros H. destruct (re_search_sound _ _ H) as (p & m & q & -> & Hm).
  unfold ipt_resource_pattern in Hm.
  inversion Hm as [| | | |? ? s1 s2 H1 H2| | | |]; subst.
  apply lang_lit in H2. subst s2.
  rewrite <- app_assoc, app_assoc. apply contains_app.
Qed.

(** ** The link classifier *)

Section FirstRule.
Context {K : Type} (applies : K -> bool).

Lemma first_rule_first table pre k m post :
  table = pre ++ (k, m) :: post ->
  Forall (fun rule => applies (fst rule) = false) pre ->
  applies k = true ->
  first_rule applies table = Some m.
Proof.
  intros -> Hpre Hk. unfold first_rule.
  induction Hpre as [|rule pre Hrule Hpre IH]; simpl.
  - rewrite Hk. reflexivity.
  - rewrite Hrule. exact IH.
Qed.

Lemma first_rule_none table :
  Forall (fun rule => applies (fst rule) = false) table ->
  first_rule applies table = None.
Proof.
  unfold first_rule. induction 1 as [|rule table Hrule Htable IH]; simpl.
  - reflexivity.
  - rewrite Hrule. exact IH.
Qed.

Lemma first_rule_some table m :
  first_rule applies table = Some m ->
  exists k, In (k, m) table /\ applies k = true.
Proof.
  unfold first_rule. destruct (List.find _ table) as [[k m']|] eqn:Hfind;
    simpl; intros Hm; [|discriminate].
  injection Hm as ->. apply find_some in Hfind as [Hin Hk].
  exists k. auto.
Qed.

Lemma first_rule_exists table :
  Exists (fun rule => applies (fst rule) = true) table ->
  exists m, first_rule applies table = Some m.
Proof.
  unfold first_rule. induction 1 as [rule table Hrule|rule table _ IH]; simpl.
  - rewrite Hrule. eauto.
  - destruct (applies (fst rule)); [eauto | exact IH].
Qed.
End FirstRule.

(** C7: [get_media_type] goes through the extension table first and
    answers with the first extension the URL ends with; the pattern table
    is only consulted when no extension applies, and then the first
    pattern found in the URL decides; without any hit the answer is the
    tuple of [None]s.  So a URL that ends with a known extension is
    classified by an extension rule whatever patterns it contains. *)
Theorem get_media_type_rule_order (asset_url : pystr) :
  let ends ext := endswith ext asset_url in
  let found pattern := re_search pattern asset_url in
  (forall pre ext m post,
      media_types = pre ++ (ext, m) :: post ->
      Forall (fun rule => ends (fst rule) = false) pre ->
      ends ext = true ->
      get_media_type asset_url = Some m) /\
  (Forall (fun rule => ends (fst rule) = false) media_types ->
   forall pre pattern m post,
      url_patterns = pre ++ (pattern, m) :: post ->
      Forall (fun rule => found (fst rule) = false) pre ->
      found pattern = true ->
      get_media_type asset_url = Some m) /\
  (Forall (fun rule => ends (fst rule) = false) media_types ->
   Forall (fun rule => found (fst rule) = false) url_patterns ->
   get_media_type asset_url = None) /\
  (Exists (fun rule => ends (fst rule) = true) media_types ->
   exists ext m,
      In (ext, m) media_types /\ ends ext = true /\
      get_media_type asset_url = Some m).
Proof.
  intros ends found. unfold get_media_type.
  change (fun ext => endswith ext asset_url) with ends.
  change (fun pattern => re_search pattern asset_url) with found.
  repeat split.
  - intros pre ext m post Htable Hpre Hext.
    rewrite (first_rule_first ends _ _ _ _ _ Htable Hpre Hext). reflexivity.
  - intros Hnone pre pattern m post Htable Hpre Hpat.
    rewrite (first_rule_none ends _ Hnone).
    exact (first_rule_first found _ _ _ _ _ Htable Hpre Hpat).
  - intros Hnone Hnone'.
    rewrite (first_rule_none ends _ Hnone).
    exact (first_rule_none found _ Hnone').
  - intros Hsome.
    destruct (first_rule_exists ends _ Hsome) as [m Hm].
    destruct (first_rule_some ends _ _ Hm) as (ext & Hin & Hext).
    exists ext, m. rewrite Hm. auto.
Qed.

(** A URL that holds the pattern [wms] and ends in [.zip] is a zip
    archive; a WMS endpoint without a known extension is classified by
    the pattern. *)
Lemma get_media_type_rule_order_witness :
  get_media_type (ustr "https://example.org/wms/layers.zip")
    = Some (mt "zip" "Zip" "application/zip" "data") /\
  get_media_type (ustr "https://example.org/geoserver/wms")
    = Some (mt "wms" "WMS" "OGC:WMS" "thumbnail").
Proof.
  split.
  - apply (proj1 (get_media_type_rule_order _)
             (firstn 3 media_types) (ustr ".zip") _ (skipn 4 media_types)).
    + reflexivity.
    + repeat constructor.
    + reflexivity.
  - apply (proj1 (proj2 (get_media_type_rule_order _)))
      with (pre := firstn 1 url_patterns) (pattern := lit "wms")
           (post := skipn 2 url_patterns).
    + repeat constructor.
    + reflexivity.
    + repeat constructor.
    + reflexivity.
Defined.

(** ** IPT resource links *)

Lemma iptresource_found url :
  asset_type <$> get_media_type url = Some (ustr "iptresource") ->
  re_search ipt_resource_pattern url = true.
Proof.
  unfold get_media_type.
  destruct (first_rule _ media_types) as [m|] eqn:Hext.
  - intros Hty. simpl in Hty. injection Hty as Hty.
    apply first_rule_some in Hext as (ext & Hin & _).
    unfold media_types in Hin. cbn [In] in Hin.
    repeat (destruct Hin as [Hin|Hin];
            [injection Hin as <- <-; vm_compute in Hty; discriminate Hty|]).
    destruct Hin.
  - destruct (first_rule _ url_patterns) as [m|] eqn:Hpat;
      intros Hty; simpl in Hty; [|discriminate].
    injection Hty as Hty.
    apply first_rule_some in Hpat as (pattern & Hin & Hfound).
    unfold url_patterns in Hin. cbn [In] in Hin.
    repeat (destruct Hin as [Hin|Hin];
            [injection Hin as <- <-;
             first [exact Hfound | vm_compute in Hty; discriminate Hty]|]).
    destruct Hin.
Qed.

(** C10: a URL classified as [iptresource] contains [/resource?r=]; the
    rewrite to [https] keeps it; so [convert_ipt_to_dwca] never reaches
    its [ValueError] and answers with the archive URL when the live test
    succeeds and with [None] otherwise. *)
Theorem ipt_resource_conversion_total (E : Env) (url : pystr) :
  asset_type <$> get_media_type url = Some (ustr "iptresource") ->
  let https_url :=
    if startswith (ustr "http://") url
    then replace (ustr "http://") (ustr "https://") url
    else url in
  let dwca_url :=
    replace (ustr "/resource?r=") (ustr "/archive.do?r=") https_url in
  contains (ustr "/resource?r=") url = true /\
  contains (ustr "/resource?r=") https_url = true /\
  convert_ipt_to_dwca E url =
    Ok (if option_bool_truthy (test_link E dwca_url)
        then Some dwca_url else None).
Proof.
  intros Hty https_url dwca_url.
  assert (Hurl : contains (ustr "/resource?r=") url = true)
    by (apply ipt_resource_pattern_literal, iptresource_found, Hty).
  assert (Hhttps : contains (ustr "/resource?r=") https_url = true).
  { unfold https_url. destruct (startswith _ url); [|exact Hurl].
    apply http_rewrite_keeps_resource, Hurl. }
  repeat split; [exact Hurl | exact Hhttps |].
  unfold convert_ipt_to_dwca. fold https_url. rewrite Hhttps.
  cbn [rbind]. fold dwca_url.
  destruct (option_bool_truthy _); reflexivity.
Qed.

Lemma ipt_resource_conversion_total_witness :
  convert_ipt_to_dwca reference_env
    (ustr "http://ipt.vliz.be/eurobis/resource?r=zoobenthos")
  = Ok (Some (ustr "https://ipt.vliz.be/eurobis/archive.do?r=zoobenthos")).
Proof.
  apply (proj2 (proj2 (ipt_resource_conversion_total reference_env
           (ustr "http://ipt.vliz.be/eurobis/resource?r=zoobenthos")
           eq_refl))).
Defined.

(** ** [custom_slugify] *)













(** ** [finalize_boundaries] *)

Lemma is_nan_like_token E c : nan_token c = true -> is_nan_like E c = Ok true.
Proof.
  destruct c as [| | |[| |]| | | |]; intros H;
    try (cbn [nan_token] in H; discriminate H);
    unfold is_nan_like; cbn [pd_isna rbind]; try reflexivity.
  cbn [nan_token] in H. rewrite H. reflexivity.
Qed.

Lemma is_nan_like_scalar E c :
  is_list c = false -> exists b, is_nan_like E c = Ok b.
Proof.
  destruct c as [| | |[| |]| | | |]; intros H;
    try (cbn [is_list] in H; discriminate H);
    unfold is_nan_like; cbn [pd_isna rbind]; eauto.
Qed.

Lemma any_nan_like E coords :
  Forall (fun c => is_list c = false) coords ->
  Exists (fun c => nan_token c = true) coords ->
  any_m (is_nan_like E) coords = Ok true.
Proof.
  intros Hscalar Hnan.
  induction Hnan as [c coords Hc|c coords Hnan IH]; simpl.
  - rewrite (is_nan_like_token E c Hc). reflexivity.
  - inversion Hscalar as [|? ? Hc Hrest]; subst.
    destruct (is_nan_like_scalar E c Hc) as [b ->]. simpl.
    destruct b; [reflexivity | exact (IH Hrest)].
Qed.

(** C1, as the code has it: when the chosen bounding box ([bbox] if
    present and true, else [geographic_extent]) is a list of scalars
    one of which is [None], a NaN float or the text [nan] in any case,
    the answer is exactly the whole world, whatever the other
    coordinates are. *)
Theorem finalize_boundaries_nan_default (E : Env) (md : metadata)
    (coords : list pyval) :
  chosen_bbox md = Some (PList coords) ->
  Forall (fun c => is_list c = false) coords ->
  Exists (fun c => nan_token c = true) coords ->
  finalize_boundaries E md = Ok world_bbox.
Proof.
  intros Hchosen Hscalar Hnan.
  assert (Hbox : finalize_bbox E (PList coords) = Ok world_bbox).
  { unfold finalize_bbox. cbn [py_iter rbind].
    rewrite (any_nan_like E coords Hscalar Hnan). reflexivity. }
  unfold finalize_boundaries. unfold chosen_bbox in Hchosen.
  destruct (has_truthy md "bbox").
  - rewrite Hchosen. exact Hbox.
  - destruct (has_truthy md "geographic_extent"); [|discriminate].
    rewrite Hchosen. exact Hbox.
Qed.

Lemma finalize_boundaries_nan_default_witness :
  finalize_boundaries reference_env bbox_with_nan = Ok world_bbox.
Proof.
  apply (finalize_boundaries_nan_default reference_env bbox_with_nan
           [PFloat (FFin 200); PFloat FNan; pstr "abc"; PNone]).
  - reflexivity.
  - repeat constructor.
  - apply Exists_cons_tl, Exists_cons_hd. reflexivity.
Defined.

Lemma finalize_boundaries_text_coordinate :
  chosen_bbox bbox_with_text = Some (PList [pstr "abc"; PInt 0; PInt 1; PInt 1]) /\
  py_float (pstr "abc") = Raise ValueError /\
  finalize_boundaries reference_env bbox_with_text
    = Ok [PInt (-180); PFloat (FFin 0); PFloat (FFin 1); PFloat (FFin 1)] /\
  finalize_boundaries reference_env bbox_with_text <> Ok world_bbox.
Proof.
  repeat split; try (vm_compute; reflexivity).
  vm_compute. discriminate.
Qed.

(** ** [update_datetimes] *)







(** C5: at a record whose two dates carry different UTC offsets
    [update_datetimes] orders the texts and not the dates.  [created]
    is the earlier date and seeds both bounds; [modified], a later
    date, should raise the end, but its text is the smaller one: it
    takes the place of the start and the end stays behind.  The window
    the function answers with starts at [modified] and ends at
    [created], before it starts. *)
Theorem update_datetimes_orders_texts :
  dates_are_strings record_mixed_offsets = true /\
  earlier (ustr "2019-07-10T09:59:00+02:00") (ustr "2019-07-10T08:30:00Z")
    = Some true /\
  (exists md1,
      update_datetimes_loop record_mixed_offsets ["created"; "date"; "issued"]%string
        = Ok md1 /\
      md1 !! "start_datetime" = Some (pstr "2019-07-10T09:59:00+02:00") /\
      md1 !! "end_datetime" = Some (pstr "2019-07-10T09:59:00+02:00")) /\
  (exists md',
      update_datetimes record_mixed_offsets = Ok md' /\
      md' !! "start_datetime" = Some (pstr "2019-07-10T08:30:00Z") /\
      md' !! "end_datetime" = Some (pstr "2019-07-10T09:59:00+02:00") /\
      (s ← get_str md' "start_datetime"; e ← get_str md' "end_datetime";
       earlier e s) = Some true).
Proof.
  split; [reflexivity|]. split; [vm_compute; reflexivity|]. split.
  - exists (ok_or ∅ (update_datetimes_loop record_mixed_offsets
                       ["created"; "date"; "issued"]%string)).
    repeat split; vm_compute; reflexivity.
  - exists (ok_or ∅ (update_datetimes record_mixed_offsets)).
    repeat split; vm_compute; reflexivity.
Qed.



(** ** [format_datetime_to_iso8601] *)




Lemma zero_padded_no_plus w : forall z,
  Forall (fun c => c <> 43%N) (zero_padded w z).
Proof.
  induction w as [|w IH]; intros z; simpl; [constructor|].
  apply Forall_app. split; [apply IH|]. constructor; [|constructor].
  intros H. apply (f_equal Z.of_N) in H.
  pose proof (Z.mod_pos_bound z 10 ltac:(lia)).
  rewrite Z2N.id in H; lia.
Qed.

Lemma replace_utc_suffix p :
  Forall (fun c => c <> 43%N) p ->
  replace (ustr "+00:00") (ustr "Z") (p ++ ustr "+00:00") = p ++ ustr "Z".
Proof.
  unfold replace. ustr_compute.
  induction 1 as [|c p Hc Hp IH]; [reflexivity|].
  simpl app. rewrite replace_from_0_cons.
  assert (startswith [43; 48; 48; 58; 48; 48]%N
            (c :: p ++ [43; 48; 48; 58; 48; 48]%N) = false) as ->.
  { cbn [startswith]. destruct (43 =? c)%N eqn:Heq; [|reflexivity].
    apply N.eqb_eq in Heq. congruence. }
  rewrite IH. reflexivity.
Qed.

Lemma isoformat_utc_z d :
  tzoffset d = Some 0 ->
  replace (ustr "+00:00") (ustr "Z") (isoformat d) = iso8601_z d.
Proof.
  intros Htz. unfold isoformat, iso8601_z. rewrite Htz.
  change (isoformat_offset 0) with (ustr "+00:00").
  rewrite !app_assoc. apply replace_utc_suffix.
  repeat match goal with
         | |- Forall _ (_ ++ _) => apply Forall_app; split
         | |- Forall _ (zero_padded _ _) => apply zero_padded_no_plus
         | |- Forall _ (ustr _) => vm_compute; repeat constructor; discriminate
         | |- Forall _ (if ?b then _ else _) => destruct b
         | |- Forall _ [] => constructor
         end.
Qed.

Lemma aware_to_utc_offset d off u :
  aware_to_utc d off = Ok u -> tzoffset u = Some 0.
Proof.
  unfold aware_to_utc, of_wall_usec.
  destruct (_ || _); [discriminate|].
  destruct (ord2ymd _) as [[y m] dd]. intros H. injection H as <-. reflexivity.
Qed.



(** ** [add_item] *)

(** Case analysis on every step of a computation that ended well. *)
Ltac ok_inv H :=
  repeat match type of H with
         | rbind ?m _ = Ok _ =>
             let E := fresh "Estep" in
             destruct m eqn:E; cbn [rbind] in H; [|discriminate H]
         | (let (_, _) := ?p in _) = Ok _ => destruct p
         | (match ?x with _ => _ end) = Ok _ =>
             let E := fresh "Ecase" in
             destruct x eqn:E; try discriminate H
         | (if ?b then _ else _) = Ok _ =>
             let E := fresh "Ecase" in
             destruct b eqn:E; try discriminate H
         end.

Lemma build_item_id E md new_item_id collection md' it :
  build_item E md new_item_id collection = Ok (md', it) ->
  item_id it = new_item_id.
Proof.
  unfold build_item. intros H. ok_inv H.
  injection H as _ <-. reflexivity.
Qed.

Lemma id_in_app {A} (ident : A -> pystr) x l a :
  id_in ident x (l ++ [a]) = id_in ident x l || pystr_eqb (ident a) x.
Proof.
  unfold id_in. rewrite existsb_app. simpl. rewrite orb_false_r. reflexivity.
Qed.

Lemma pystr_eqb_refl s : pystr_eqb s s = true.
Proof. unfold pystr_eqb. apply bool_decide_eq_true. reflexivity. Qed.

Lemma get_put_collection cat fam coll c c' :
  get_collection cat fam coll = Some c ->
  get_collection (put_collection cat fam coll c') fam coll = Some c'.
Proof.
  unfold get_collection, put_collection. cbn [cat_children set_children].
  intros H. rewrite list_lookup_alter_eq.
  destruct (cat_children cat !! fam) as [f|]; [|discriminate H].
  cbn in H |- *. apply list_lookup_insert_eq. eapply lookup_lt_Some, H.
Qed.

(** What a call of [add_item] that returns the metadata has done. *)
Lemma add_item_added E mgr md fam coll mgr' md' :
  add_item E mgr md fam coll = Ok (mgr', md', true) ->
  exists c title md1 it extent,
    get_collection (stac_catalog mgr) fam coll = Some c /\
    md !! "title" = Some (PStr title) /\
    id_in item_id (custom_slugify title) (coll_items c) = false /\
    build_item E md (custom_slugify title) c = Ok (md1, it) /\
    extent_from_items (coll_items c ++ [it]) = Ok extent /\
    mgr' = save (put_collection (stac_catalog mgr) fam coll
                   (set_items_extent c (coll_items c ++ [it]) extent)).
Proof.
  unfold add_item. intros H.
  destruct (get_collection _ fam coll) as [c|] eqn:Hc; [|discriminate H].
  destruct (negb (has_truthy md "title")).
  { ok_inv H. discriminate H. }
  destruct (md !! "title") as [[| | | |title| | |]|] eqn:Ht; try discriminate H.
  destruct (id_in _ _ _) eqn:Hid; [discriminate H|].
  destruct (build_item _ _ _ _) as [[md1 it]|] eqn:Hb; cbn [rbind] in H;
    [|discriminate H].
  destruct (item_assets it); [discriminate H|].
  destruct (extent_from_items _) as [extent|] eqn:He; cbn [rbind] in H;
    [|discriminate H].
  injection H as <- _.
  exists c, title, md1, it, extent. repeat split; auto.
Qed.

Lemma add_item_duplicate E mgr md fam coll c title :
  get_collection (stac_catalog mgr) fam coll = Some c ->
  md !! "title" = Some (PStr title) ->
  title <> [] ->
  id_in item_id (custom_slugify title) (coll_items c) = true ->
  add_item E mgr md fam coll = Ok (mgr, md, false).
Proof.
  intros Hc Ht Hne Hid. unfold add_item, has_truthy. rewrite Hc, Ht.
  destruct title as [|ch title]; [contradiction|].
  change (py_truthy (PStr (ch :: title))) with true. cbn [negb].
  rewrite Hid. reflexivity.
Qed.

(** C3: when the slug of the title is the identifier of an item of the
    collection, [add_item] returns [None] and leaves the manager (the
    tree in memory and on disk) and the metadata as they were.  So after
    an insertion that succeeded, a record whose title has the same slug
    is turned down, the collection still holds the first item, and
    nothing in the catalog has changed. *)
Theorem add_item_rejects_duplicate (E : Env) :
  (forall mgr md fam coll c title,
      get_collection (stac_catalog mgr) fam coll = Some c ->
      md !! "title" = Some (PStr title) ->
      title <> [] ->
      id_in item_id (custom_slugify title) (coll_items c) = true ->
      add_item E mgr md fam coll = Ok (mgr, md, false)) /\
  (forall mgr md1 fam coll mgr1 md1' title1 md2 title2,
      add_item E mgr md1 fam coll = Ok (mgr1, md1', true) ->
      md1 !! "title" = Some (PStr title1) ->
      md2 !! "title" = Some (PStr title2) ->
      title2 <> [] ->
      custom_slugify title2 = custom_slugify title1 ->
      add_item E mgr1 md2 fam coll = Ok (mgr1, md2, false) /\
      exists c1 it,
        get_collection (stac_catalog mgr1) fam coll = Some c1 /\
        In it (coll_items c1) /\
        item_id it = custom_slugify title1).
Proof.
  split; [intros; eapply add_item_duplicate; eauto|].
  intros mgr md1 fam coll mgr1 md1' title1 md2 title2 Hadd Ht1 Ht2 Hne Hslug.
  destruct (add_item_added _ _ _ _ _ _ _ Hadd)
    as (c & title & md1a & it & extent & Hc & Ht & Hid & Hb & He & ->).
  rewrite Ht1 in Ht. injection Ht as <-.
  pose proof (build_item_id _ _ _ _ _ _ Hb) as Hit.
  pose proof (get_put_collection _ _ _ _
                (set_items_extent c (coll_items c ++ [it]) extent) Hc) as Hget.
  split.
  - eapply add_item_duplicate; [exact Hget | exact Ht2 | exact Hne |].
    cbn [coll_items set_items_extent]. rewrite id_in_app, Hslug, Hit.
    rewrite pystr_eqb_refl. apply orb_true_r.
  - eexists _, it. split; [exact Hget|]. split; [|exact Hit].
    cbn [coll_items set_items_extent]. apply in_or_app. right. left. reflexivity.
Qed.

(** ** [Extent.from_items]: the smallest enclosing box and span *)

Lemma coord_value_lt a b qa qb :
  coord_value a = Some qa -> coord_value b = Some qb ->
  py_lt a b = Ok (negb (Qle_bool qb qa)).
Proof.
  unfold coord_value. intros Ha Hb.
  destruct a; simpl in Ha; try discriminate Ha;
    destruct b; simpl in Hb; try discriminate Hb;
    repeat match goal with
           | H : match ?f with FNan => _ | FInf _ => _ | FFin _ => _ end = Some _ |- _ =>
               destruct f; try discriminate H
           end;
    injection Ha as <-; injection Hb as <-; reflexivity.
Qed.

Lemma coord_value_lt_pinf a qa :
  coord_value a = Some qa -> py_lt a pinf = Ok true.
Proof.
  unfold coord_value. intros Ha.
  destruct a; simpl in Ha; try discriminate Ha;
    repeat match goal with
           | H : match ?f with FNan => _ | FInf _ => _ | FFin _ => _ end = Some _ |- _ =>
               destruct f; try discriminate H
           end; reflexivity.
Qed.

Lemma coord_value_gt_ninf a qa :
  coord_value a = Some qa -> py_gt a ninf = Ok true.
Proof.
  unfold coord_value, py_gt. intros Ha.
  destruct a; simpl in Ha; try discriminate Ha;
    repeat match goal with
           | H : match ?f with FNan => _ | FInf _ => _ | FFin _ => _ end = Some _ |- _ =>
               destruct f; try discriminate H
           end; reflexivity.
Qed.

Lemma py_min_from_finite l : forall cur qc,
  coord_value cur = Some qc ->
  Forall (fun v => is_Some (coord_value v)) l ->
  exists m qm,
    py_min_from cur l = Ok m /\ coord_value m = Some qm /\ In m (cur :: l) /\
    (qm <= qc)%Q /\
    Forall (fun v => forall q, coord_value v = Some q -> (qm <= q)%Q) l.
Proof.
  induction l as [|x l IH]; intros cur qc Hc Hl.
  - exists cur, qc. repeat split; auto; [left; reflexivity | apply Qle_refl].
  - inversion Hl as [|? ? [qx Hx] Hl']; subst.
    cbn [py_min_from]. rewrite (coord_value_lt x cur qx qc Hx Hc). cbn [rbind].
    destruct (Qle_bool qc qx) eqn:Hle; cbn [negb].
    + apply Qle_bool_iff in Hle.
      destruct (IH cur qc Hc Hl') as (m & qm & Hrun & Hm & Hin & Hqc & Hall).
      exists m, qm. repeat split; auto.
      * destruct Hin as [<-|Hin]; [left; reflexivity | right; right; exact Hin].
      * constructor; [|exact Hall].
        intros q Hq. rewrite Hx in Hq. injection Hq as <-.
        eapply Qle_trans; eauto.
    + assert (Hlt : (qx < qc)%Q).
      { apply Qnot_le_lt. intros H. apply Qle_bool_iff in H. congruence. }
      destruct (IH x qx Hx Hl') as (m & qm & Hrun & Hm & Hin & Hqx & Hall).
      exists m, qm. repeat split; auto.
      * right. exact Hin.
      * eapply Qle_trans; [exact Hqx|]. apply Qlt_le_weak, Hlt.
      * constructor; [|exact Hall].
        intros q Hq. rewrite Hx in Hq. injection Hq as <-. exact Hqx.
Qed.

Lemma py_max_from_finite l : forall cur qc,
  coord_value cur = Some qc ->
  Forall (fun v => is_Some (coord_value v)) l ->
  exists m qm,
    py_max_from cur l = Ok m /\ coord_value m = Some qm /\ In m (cur :: l) /\
    (qc <= qm)%Q /\
    Forall (fun v => forall q, coord_value v = Some q -> (q <= qm)%Q) l.
Proof.
  induction l as [|x l IH]; intros cur qc Hc Hl.
  - exists cur, qc. repeat split; auto; [left; reflexivity | apply Qle_refl].
  - inversion Hl as [|? ? [qx Hx] Hl']; subst.
    cbn [py_max_from]. unfold py_gt.
    rewrite (coord_value_lt cur x qc qx Hc Hx). cbn [rbind].
    destruct (Qle_bool qx qc) eqn:Hle; cbn [negb].
    + apply Qle_bool_iff in Hle.
      destruct (IH cur qc Hc Hl') as (m & qm & Hrun & Hm & Hin & Hqc & Hall).
      exists m, qm. repeat split; auto.
      * destruct Hin as [<-|Hin]; [left; reflexivity | right; right; exact Hin].
      * constructor; [|exact Hall].
        intros q Hq. rewrite Hx in Hq. injection Hq as <-.
        eapply Qle_trans; eauto.
    + assert (Hlt : (qc < qx)%Q).
      { apply Qnot_le_lt. intros H. apply Qle_bool_iff in H. congruence. }
      destruct (IH x qx Hx Hl') as (m & qm & Hrun & Hm & Hin & Hqx & Hall).
      exists m, qm. repeat split; auto.
      * right. exact Hin.
      * eapply Qle_trans; [|exact Hqx]. apply Qlt_le_weak, Hlt.
      * constructor; [|exact Hall].
        intros q Hq. rewrite Hx in Hq. injection Hq as <-. exact Hqx.
Qed.

(** The minimum of a column that starts from plus infinity is one of its
    entries. *)
Lemma py_min_column l :
  l <> [] ->
  Forall (fun v => is_Some (coord_value v)) l ->
  exists m qm,
    py_min_from pinf l = Ok m /\ coord_value m = Some qm /\ In m l /\
    Forall (fun v => forall q, coord_value v = Some q -> (qm <= q)%Q) l.
Proof.
  destruct l as [|x l]; [congruence|]. intros _ Hl.
  inversion Hl as [|? ? [qx Hx] Hl']; subst.
  cbn [py_min_from]. rewrite (coord_value_lt_pinf x qx Hx). cbn [rbind].
  destruct (py_min_from_finite l x qx Hx Hl') as (m & qm & Hrun & Hm & Hin & Hqx & Hall).
  exists m, qm. repeat split; auto.
  constructor; [|exact Hall].
  intros q Hq. rewrite Hx in Hq. injection Hq as <-. exact Hqx.
Qed.

Lemma py_max_column l :
  l <> [] ->
  Forall (fun v => is_Some (coord_value v)) l ->
  exists m qm,
    py_max_from ninf l = Ok m /\ coord_value m = Some qm /\ In m l /\
    Forall (fun v => forall q, coord_value v = Some q -> (q <= qm)%Q) l.
Proof.
  destruct l as [|x l]; [congruence|]. intros _ Hl.
  inversion Hl as [|? ? [qx Hx] Hl']; subst.
  cbn [py_max_from]. rewrite (coord_value_gt_ninf x qx Hx). cbn [rbind].
  destruct (py_max_from_finite l x qx Hx Hl') as (m & qm & Hrun & Hm & Hin & Hqx & Hall).
  exists m, qm. repeat split; auto.
  constructor; [|exact Hall].
  intros q Hq. rewrite Hx in Hq. injection Hq as <-. exact Hqx.
Qed.

(** The column [i] of items with finite boxes. *)
Lemma bbox_column_finite i items :
  (i < 4)%nat ->
  Forall (fun it => is_Some (finite_box it)) items ->
  exists col,
    bbox_column i items = Ok col /\
    col = List.map (fun it => nth i (item_bbox it) PNone) items /\
    Forall (fun v => is_Some (coord_value v)) col.
Proof.
  intros Hi. induction 1 as [|it items [box Hbox] Hitems IH].
  - exists []. repeat split; auto.
  - destruct IH as (col & Hcol & Hmap & Hfin).
    unfold finite_box, box_values in Hbox.
    destruct (item_bbox it) as [|a [|b [|c [|d [|? ?]]]]] eqn:Hb;
      try discriminate Hbox.
    destruct (coord_value a) as [qa|] eqn:Ha; try discriminate Hbox.
    destruct (coord_value b) as [qb|] eqn:Hqb; try discriminate Hbox.
    destruct (coord_value c) as [qc|] eqn:Hqc; try discriminate Hbox.
    destruct (coord_value d) as [qd|] eqn:Hqd; try discriminate Hbox.
    cbn [bbox_column]. rewrite Hb, Hcol.
    destruct i as [|[|[|[|i]]]]; try lia; cbn [nth_error rbind];
      eexists; (split; [reflexivity|]); cbn [List.map];
      rewrite Hb, <- Hmap; cbn [nth]; (split; [reflexivity|]);
      constructor; eauto.
Qed.

Lemma min_datetime_from_spec l : forall cur,
  In (min_datetime_from cur l) (cur :: l) /\
  Forall (fun x => utc_instant (min_datetime_from cur l) <= utc_instant x)
         (cur :: l).
Proof.
  induction l as [|x l IH]; intros cur; cbn [min_datetime_from].
  - split; [left; reflexivity | repeat constructor; lia].
  - destruct (utc_instant x <? utc_instant cur) eqn:Hlt.
    + apply Z.ltb_lt in Hlt. destruct (IH x) as [Hin Hall]. split.
      * right. exact Hin.
      * inversion Hall as [|? ? Hx Hl]; subst.
        constructor; [lia | constructor; assumption].
    + apply Z.ltb_ge in Hlt. destruct (IH cur) as [Hin Hall]. split.
      * destruct Hin as [<-|Hin]; [left; reflexivity | right; right; exact Hin].
      * inversion Hall as [|? ? Hc Hl]; subst.
        constructor; [exact Hc | constructor; [lia | exact Hl]].
Qed.

Lemma max_datetime_from_spec l : forall cur,
  In (max_datetime_from cur l) (cur :: l) /\
  Forall (fun x => utc_instant x <= utc_instant (max_datetime_from cur l))
         (cur :: l).
Proof.
  induction l as [|x l IH]; intros cur; cbn [max_datetime_from].
  - split; [left; reflexivity | repeat constructor; lia].
  - destruct (utc_instant cur <? utc_instant x) eqn:Hlt.
    + apply Z.ltb_lt in Hlt. destruct (IH x) as [Hin Hall]. split.
      * right. exact Hin.
      * inversion Hall as [|? ? Hx Hl]; subst.
        constructor; [lia | constructor; assumption].
    + apply Z.ltb_ge in Hlt. destruct (IH cur) as [Hin Hall]. split.
      * destruct Hin as [<-|Hin]; [left; reflexivity | right; right; exact Hin].
      * inversion Hall as [|? ? Hc Hl]; subst.
        constructor; [exact Hc | constructor; [lia | exact Hl]].
Qed.

Lemma min_datetime_spec l :
  l <> [] ->
  exists lo, min_datetime l = Some lo /\
             In lo (List.map assume_utc l) /\
             Forall (fun x => utc_instant lo <= utc_instant (assume_utc x)) l.
Proof.
  intros Hl. unfold min_datetime.
  destruct l as [|x l]; [congruence|]. cbn [List.map].
  destruct (min_datetime_from_spec (List.map assume_utc l) (assume_utc x))
    as [Hin Hall].
  eexists. split; [reflexivity|]. split; [exact Hin|].
  change (assume_utc x :: List.map assume_utc l)
    with (List.map assume_utc (x :: l)) in Hall.
  rewrite Forall_forall in Hall |- *. intros y Hy.
  apply Hall, list_elem_of_In, in_map, list_elem_of_In, Hy.
Qed.

Lemma max_datetime_spec l :
  l <> [] ->
  exists hi, max_datetime l = Some hi /\
             In hi (List.map assume_utc l) /\
             Forall (fun x => utc_instant (assume_utc x) <= utc_instant hi) l.
Proof.
  intros Hl. unfold max_datetime.
  destruct l as [|x l]; [congruence|]. cbn [List.map].
  destruct (max_datetime_from_spec (List.map assume_utc l) (assume_utc x))
    as [Hin Hall].
  eexists. split; [reflexivity|]. split; [exact Hin|].
  change (assume_utc x :: List.map assume_utc l)
    with (List.map assume_utc (x :: l)) in Hall.
  rewrite Forall_forall in Hall |- *. intros y Hy.
  apply Hall, list_elem_of_In, in_map, list_elem_of_In, Hy.
Qed.

Lemma column_entry i items m :
  In m (List.map (fun it => nth i (item_bbox it) PNone) items) ->
  exists it, In it items /\ nth i (item_bbox it) PNone = m.
Proof.
  intros H. apply in_map_iff in H as (it & Hit & Hin). eauto.
Qed.

Lemma column_bound i items (P : Q -> Prop) :
  Forall (fun v => forall q, coord_value v = Some q -> P q)
         (List.map (fun it => nth i (item_bbox it) PNone) items) ->
  forall it q, In it items ->
               coord_value (nth i (item_bbox it) PNone) = Some q -> P q.
Proof.
  intros H it q Hin Hq. rewrite Forall_forall in H.
  apply (H (nth i (item_bbox it) PNone)); [|exact Hq].
  apply list_elem_of_In, in_map_iff. eauto.
Qed.

Lemma item_datetimes_spec items : forall dts,
  item_datetimes items = Ok dts ->
  forall d, In d dts <->
            exists it, In it items /\ item_datetime it = PDatetime d.
Proof.
  induction items as [|it items IH]; intros dts H d; cbn [item_datetimes] in H.
  - injection H as <-. split; [intros [] | intros (? & [] & _)].
  - destruct (item_datetimes items) as [rest|]; cbn [rbind] in H;
      [|discriminate H].
    specialize (IH rest eq_refl d).
    destruct (item_datetime it) eqn:Hd; try discriminate H; injection H as <-.
    + rewrite IH. split.
      * intros (it' & Hin & Hit'). exists it'. split; [right; exact Hin|exact Hit'].
      * intros (it' & [<-|Hin] & Hit'); [congruence|]. eauto.
    + cbn [In]. rewrite IH. split.
      * intros [<-|(it' & Hin & Hit')].
        -- exists it. split; [left; reflexivity|exact Hd].
        -- exists it'. split; [right; exact Hin|exact Hit'].
      * intros (it' & [<-|Hin] & Hit').
        -- left. congruence.
        -- right. eauto.
Qed.

Lemma item_bound_in (bound : Item -> pydatetime) items dts it d :
  (forall d, In d dts <->
             exists it, In it items /\ item_datetime it = PDatetime d) ->
  In it items -> In d (item_instant it ++ [bound it]) ->
  In d (dts ++ List.map bound items).
Proof.
  intros Hdts Hit Hd. apply in_app_iff. apply in_app_iff in Hd as [Hd|Hd].
  - left. apply Hdts. exists it. split; [exact Hit|].
    unfold item_instant in Hd.
    destruct (item_datetime it); try (destruct Hd; fail).
    destruct Hd as [<-|[]]. reflexivity.
  - right. destruct Hd as [<-|[]]. apply in_map. exact Hit.
Qed.

Lemma in_item_bound (bound : Item -> pydatetime) items dts d :
  (forall d, In d dts <->
             exists it, In it items /\ item_datetime it = PDatetime d) ->
  In d (dts ++ List.map bound items) ->
  exists it, In it items /\ In d (item_instant it ++ [bound it]).
Proof.
  intros Hdts Hd. apply in_app_iff in Hd as [Hd|Hd].
  - apply Hdts in Hd as (it & Hit & Hd). exists it. split; [exact Hit|].
    apply in_app_iff. left. unfold item_instant. rewrite Hd. left. reflexivity.
  - apply in_map_iff in Hd as (it & <- & Hit). exists it. split; [exact Hit|].
    apply in_app_iff. right. left. reflexivity.
Qed.

Lemma utc_instant_assume_utc d : utc_instant (assume_utc d) = utc_instant d.
Proof.
  unfold assume_utc. destruct (tzoffset d) eqn:Hd; [reflexivity|].
  unfold utc_instant, wall_usec. rewrite Hd. reflexivity.
Qed.

Lemma extent_from_items_intervals items e :
  items <> [] ->
  extent_from_items items = Ok e ->
  union_of_intervals items e.
Proof.
  intros Hne He. unfold union_of_intervals. unfold extent_from_items in He.
  do 4 (match type of He with
        | rbind ?m _ = _ => destruct m; cbn [rbind] in He; [|discriminate He]
        end).
  destruct (item_datetimes items) as [dts|] eqn:Hdt; cbn [rbind] in He;
    [|discriminate He].
  pose proof (item_datetimes_spec items dts Hdt) as Hdts.
  do 4 (match type of He with
        | rbind ?m _ = _ => destruct m; cbn [rbind] in He; [|discriminate He]
        end).
  injection He as <-. cbn [temporal].
  destruct (min_datetime_spec (dts ++ List.map item_start_datetime items))
    as (lo & -> & Ilo & Hlo).
  { intros H. apply app_eq_nil in H as [_ H]. apply map_eq_nil in H. contradiction. }
  destruct (max_datetime_spec (dts ++ List.map item_end_datetime items))
    as (hi & -> & Ihi & Hhi).
  { intros H. apply app_eq_nil in H as [_ H]. apply map_eq_nil in H. contradiction. }
  rewrite Forall_forall in Hlo, Hhi.
  exists lo, hi. split; [reflexivity|]. split; [|split; [|split]].
  - apply in_map_iff in Ilo as (d & <- & Hd).
    destruct (in_item_bound item_start_datetime items dts d Hdts Hd)
      as (it & Hit & Hin).
    exists it, d. split; [exact Hit|]. split; [exact Hin|].
    split; [reflexivity|apply utc_instant_assume_utc].
  - intros it d Hit Hd. rewrite <- (utc_instant_assume_utc d).
    apply Hlo, list_elem_of_In.
    apply (item_bound_in item_start_datetime items dts it d Hdts Hit Hd).
  - apply in_map_iff in Ihi as (d & <- & Hd).
    destruct (in_item_bound item_end_datetime items dts d Hdts Hd)
      as (it & Hit & Hin).
    exists it, d. split; [exact Hit|]. split; [exact Hin|].
    split; [reflexivity|apply utc_instant_assume_utc].
  - intros it d Hit Hd. rewrite <- (utc_instant_assume_utc d).
    apply Hhi, list_elem_of_In.
    apply (item_bound_in item_end_datetime items dts it d Hdts Hit Hd).
Qed.

Lemma extent_from_items_boxes items e :
  items <> [] ->
  Forall (fun it => is_Some (finite_box it)) items ->
  extent_from_items items = Ok e ->
  union_of_boxes items e.
Proof.
  intros Hne Hfin He. unfold union_of_boxes.
  unfold extent_from_items in He.
  destruct (bbox_column_finite 0 items ltac:(lia) Hfin) as (c0 & C0 & E0 & F0).
  destruct (bbox_column_finite 1 items ltac:(lia) Hfin) as (c1 & C1 & E1 & F1).
  destruct (bbox_column_finite 2 items ltac:(lia) Hfin) as (c2 & C2 & E2 & F2).
  destruct (bbox_column_finite 3 items ltac:(lia) Hfin) as (c3 & C3 & E3 & F3).
  rewrite C0, C1, C2, C3 in He. cbn [rbind] in He.
  destruct (item_datetimes items) as [dts|]; cbn [rbind] in He; [|discriminate He].
  assert (Hcol : forall i,
             List.map (fun it => nth i (item_bbox it) PNone) items <> []).
  { intros i H. apply map_eq_nil in H. contradiction. }
  destruct (py_min_column c0) as (x0 & q0 & R0 & V0 & I0 & B0);
    [subst c0; apply Hcol | exact F0 |].
  destruct (py_min_column c1) as (y0 & q1 & R1 & V1 & I1 & B1);
    [subst c1; apply Hcol | exact F1 |].
  destruct (py_max_column c2) as (x1 & q2 & R2 & V2 & I2 & B2);
    [subst c2; apply Hcol | exact F2 |].
  destruct (py_max_column c3) as (y1 & q3 & R3 & V3 & I3 & B3);
    [subst c3; apply Hcol | exact F3 |].
  rewrite R0, R1, R2, R3 in He. cbn [rbind] in He.
  injection He as <-. cbn [spatial temporal].
  subst c0 c1 c2 c3.
  exists [x0; y0; x1; y1], (q0, q1, q2, q3).
  split; [reflexivity|]. split.
  { unfold box_values. rewrite V0, V1, V2, V3. reflexivity. }
  split.
  - intros it [[[a b] c] d] Hin Hbox. unfold finite_box, box_values in Hbox.
    destruct (item_bbox it) as [|va [|vb [|vc [|vd [|? ?]]]]] eqn:Hb;
      try discriminate Hbox.
    destruct (coord_value va) as [qa|] eqn:Ha; try discriminate Hbox.
    destruct (coord_value vb) as [qb|] eqn:Hqb; try discriminate Hbox.
    destruct (coord_value vc) as [qc|] eqn:Hqc; try discriminate Hbox.
    destruct (coord_value vd) as [qd|] eqn:Hqd; try discriminate Hbox.
    injection Hbox as <- <- <- <-. unfold encloses.
    repeat split.
    + apply (column_bound 0 items _ B0 it); [exact Hin | rewrite Hb; exact Ha].
    + apply (column_bound 1 items _ B1 it); [exact Hin | rewrite Hb; exact Hqb].
    + apply (column_bound 2 items _ B2 it); [exact Hin | rewrite Hb; exact Hqc].
    + apply (column_bound 3 items _ B3 it); [exact Hin | rewrite Hb; exact Hqd].
  - intros i Hi. destruct i as [|[|[|[|i]]]]; try lia; cbn [nth].
    + apply (column_entry 0), I0.
    + apply (column_entry 1), I1.
    + apply (column_entry 2), I2.
    + apply (column_entry 3), I3.
Qed.

(** C6: after an insertion that succeeded the collection holds the old
    items followed by the new one, and its extent is computed anew from
    all of them, as [Extent.from_items] does, whatever the extent was
    before: the temporal extent is the union of the temporal extents of
    the items, from the earliest lower datetime to the latest upper
    one, and when the boxes have finite coordinates the spatial extent
    is the union of the boxes; the tree on disk is the tree in memory.
    So it is for every list of items [Extent.from_items] is given.  For
    two items with the boxes [0,0,1,1] and [2,2,3,3] the box is
    [0,0,3,3]. *)
Theorem add_item_recomputes_extent (E : Env) :
  (forall mgr md fam coll mgr' md',
      add_item E mgr md fam coll = Ok (mgr', md', true) ->
      exists c c' it,
        get_collection (stac_catalog mgr) fam coll = Some c /\
        get_collection (stac_catalog mgr') fam coll = Some c' /\
        coll_items c' = coll_items c ++ [it] /\
        extent_from_items (coll_items c') = Ok (coll_extent c') /\
        union_of_intervals (coll_items c') (coll_extent c') /\
        (Forall (fun it => is_Some (finite_box it)) (coll_items c') ->
         union_of_boxes (coll_items c') (coll_extent c')) /\
        stac_on_disk mgr' = stac_catalog mgr') /\
  (forall items e,
      items <> [] ->
      extent_from_items items = Ok e ->
      union_of_intervals items e) /\
  (forall items e,
      items <> [] ->
      Forall (fun it => is_Some (finite_box it)) items ->
      extent_from_items items = Ok e ->
      union_of_boxes items e) /\
  (forall i1 i2 e,
      item_bbox i1 = [PFloat (FFin 0); PFloat (FFin 0);
                      PFloat (FFin 1); PFloat (FFin 1)] ->
      item_bbox i2 = [PFloat (FFin 2); PFloat (FFin 2);
                      PFloat (FFin 3); PFloat (FFin 3)] ->
      extent_from_items [i1; i2] = Ok e ->
      spatial e = [[PFloat (FFin 0); PFloat (FFin 0);
                    PFloat (FFin 3); PFloat (FFin 3)]]).
Proof.
  split; [|split; [exact extent_from_items_intervals|
                   split; [exact extent_from_items_boxes|]]].
  - intros mgr md fam coll mgr' md' Hadd.
    destruct (add_item_added _ _ _ _ _ _ _ Hadd)
      as (c & title & md1 & it & extent & Hc & Ht & Hid & Hb & He & ->).
    eexists c, _, it. split; [exact Hc|].
    split; [apply (get_put_collection _ _ _ _ _ Hc)|].
    cbn [coll_items coll_extent set_items_extent save stac_on_disk stac_catalog].
    assert (Hne : coll_items c ++ [it] <> []).
    { intros H. apply app_eq_nil in H as [_ H]. discriminate H. }
    split; [reflexivity|]. split; [exact He|].
    split; [exact (extent_from_items_intervals _ _ Hne He)|].
    split; [|reflexivity].
    intros Hfin. exact (extent_from_items_boxes _ _ Hne Hfin He).
  - intros i1 i2 e H1 H2 He. unfold extent_from_items in He.
    cbn [bbox_column] in He. rewrite H1, H2 in He. cbn [nth_error rbind] in He.
    destruct (item_datetimes [i1; i2]) as [dts|]; cbn [rbind] in He;
      [|discriminate He].
    cbn [py_min_from py_max_from py_lt py_gt as_number pinf ninf float_ltb rbind]
      in He.
    injection He as <-. reflexivity.
Qed.

Lemma returned_metadata_ok {A B} (r : result (A * B * bool)) d :
  returned_metadata r = true ->
  r = Ok (fst (fst (ok_or d r)), snd (fst (ok_or d r)), true).
Proof.
  destruct r as [[[a b] [|]]|e]; simpl; intros H; try discriminate H.
  reflexivity.
Qed.

Lemma add_item_rejects_duplicate_witness :
  add_item reference_env (fst (fst with_item_a)) record_a_again 0 0
    = Ok (fst (fst with_item_a), record_a_again, false) /\
  exists c1 it,
    get_collection (stac_catalog (fst (fst with_item_a))) 0 0 = Some c1 /\
    In it (coll_items c1) /\
    item_id it = custom_slugify (ustr "Survey A").
Proof.
  apply (proj2 (add_item_rejects_duplicate reference_env)
           (fst (fst with_collection)) (snd (fst with_collection)) 0%nat 0%nat
           (fst (fst with_item_a)) (snd (fst with_item_a))
           (ustr "Survey A") record_a_again (ustr "survey-a")).
  - apply returned_metadata_ok. vm_compute. reflexivity.
  - vm_compute. reflexivity.
  - vm_compute. reflexivity.
  - vm_compute. discriminate.
  - vm_compute. reflexivity.
Defined.

Lemma add_item_recomputes_extent_witness :
  (exists c c' it,
      get_collection (stac_catalog (fst (fst with_item_a))) 0 0 = Some c /\
      get_collection (stac_catalog (fst (fst with_item_b))) 0 0 = Some c' /\
      coll_items c' = coll_items c ++ [it] /\
      extent_from_items (coll_items c') = Ok (coll_extent c') /\
      union_of_intervals (coll_items c') (coll_extent c') /\
      (Forall (fun it => is_Some (finite_box it)) (coll_items c') ->
       union_of_boxes (coll_items c') (coll_extent c')) /\
      stac_on_disk (fst (fst with_item_b)) = stac_catalog (fst (fst with_item_b))) /\
  (spatial <$> (coll_extent <$>
      get_collection (stac_catalog (fst (fst with_item_b))) 0 0))
    = Some [[PFloat (FFin 0); PFloat (FFin 0); PFloat (FFin 3); PFloat (FFin 3)]].
Proof.
  split.
  - apply (proj1 (add_item_recomputes_extent reference_env)
             (fst (fst with_item_a)) record_b 0%nat 0%nat
             (fst (fst with_item_b)) (snd (fst with_item_b))).
    apply returned_metadata_ok. vm_compute. reflexivity.
  - vm_compute. reflexivity.
Defined.

(** ** [add_or_use_collection] *)

(** C4, at a record the code can receive: no resolved provider name
    contains [EMODnet], the collection does not exist yet, and the call
    raises [UnboundLocalError] when it builds the title of the new
    collection; with a provider name that contains [EMODnet] the same
    call creates the collection. *)
Theorem add_or_use_collection_unbound_convention :
  add_or_use_collection (fst (fst with_family)) 0 (ustr "Bathymetry")
                        record_unknown_provider
    = Raise UnboundLocalError /\
  answered_collection_id
    (add_or_use_collection (fst (fst with_family)) 0 (ustr "Bathymetry") record_a)
    = Some (ustr "emodnet-bathymetry").
Proof.
  split; vm_compute; reflexivity.
Qed.

(** ** [update_progress] *)

(** C2, at the two reasons the function has no branch for: a call with
    [failed] and [record_no_title] or [failed_to_add] leaves the record
    and the dictionary as they were, so the files written afterwards do
    not mention the record, as when [check_stac_ok] turns down a record
    without a title; the three other failure reasons and the success
    are recorded. *)
Theorem update_progress_unrecorded_reasons :
  (forall p csw_record,
      update_progress p csw_record (ustr "failed") (ustr "record_no_title")
        = Ok (persist_progress (processed_records p), csw_record) /\
      update_progress p csw_record (ustr "failed") (ustr "failed_to_add")
        = Ok (persist_progress (processed_records p), csw_record)) /\
  observe (fun a => (progress_report "r1" (fst a), snd a))
          (check_stac_ok empty_progress initial_manager record_without_title)
    = Some (None, 0%nat, None, false) /\
  observe (progress_report "r1")
          (update_progress empty_progress record_without_title
                           (ustr "failed") (ustr "failed_to_add"))
    = Some (None, 0%nat, None) /\
  observe (progress_report "r1")
          (update_progress empty_progress record_without_title
                           (ustr "failed") (ustr "no_assets"))
    = Some (Some (pstr "no_assets"), 1%nat, Some (pstr "failed")) /\
  observe (progress_report "r1")
          (update_progress empty_progress record_without_title
                           (ustr "failed") (ustr "no_data"))
    = Some (Some (pstr "no_data"), 1%nat, Some (pstr "failed")) /\
  observe (progress_report "r1")
          (update_progress empty_progress record_without_title
                           (ustr "failed") (ustr "already_exists"))
    = Some (Some (pstr "already_exists"), 1%nat, Some (pstr "failed")) /\
  observe (progress_report "r1")
          (update_progress empty_progress record_without_title
                           (ustr "successful") (ustr "Ok"))
    = Some (Some (pstr "Ok"), 1%nat, Some (pstr "successful")).
Proof.
  split; [intros p csw_record; split; reflexivity|].
  repeat split; vm_compute; reflexivity.
Qed.

(** * Further properties *)

(** ** Dictionaries in insertion order *)

Lemma dict_get_set_eq {V} k (v : V) d : dict_get k (dict_set k v d) = Some v.
Proof.
  unfold dict_get. induction d as [|[k' v'] d IH]; simpl.
  - rewrite pystr_eqb_refl. reflexivity.
  - destruct (pystr_eqb k' k) eqn:Hk; simpl.
    + rewrite pystr_eqb_refl. reflexivity.
    + rewrite Hk. exact IH.
Qed.

Lemma dict_get_set_ne {V} k k' (v : V) d :
  k' <> k -> dict_get k' (dict_set k v d) = dict_get k' d.
Proof.
  intros Hne. unfold dict_get. induction d as [|[k0 v0] d IH]; simpl.
  - unfold pystr_eqb. rewrite bool_decide_eq_false_2 by congruence. reflexivity.
  - destruct (pystr_eqb k0 k) eqn:Hk; simpl.
    + unfold pystr_eqb in Hk. apply bool_decide_eq_true in Hk. subst k0.
      unfold pystr_eqb. rewrite bool_decide_eq_false_2 by congruence. reflexivity.
    + destruct (pystr_eqb k0 k'); [reflexivity | exact IH].
Qed.

Lemma dict_set_keys {V} k (v : V) d :
  In k (List.map fst d) -> List.map fst (dict_set k v d) = List.map fst d.
Proof.
  induction d as [|[k0 v0] d IH]; simpl; [contradiction|].
  destruct (pystr_eqb k0 k) eqn:Hk; simpl.
  - unfold pystr_eqb in Hk. apply bool_decide_eq_true in Hk. subst. reflexivity.
  - intros [H|H].
    + unfold pystr_eqb in Hk. apply bool_decide_eq_false in Hk. congruence.
    + rewrite IH by exact H. reflexivity.
Qed.

Lemma dict_set_keys_new {V} k (v : V) d :
  ~ In k (List.map fst d) ->
  List.map fst (dict_set k v d) = List.map fst d ++ [k].
Proof.
  induction d as [|[k0 v0] d IH]; simpl; [reflexivity|].
  intros Hn. destruct (pystr_eqb k0 k) eqn:Hk; simpl.
  - unfold pystr_eqb in Hk. apply bool_decide_eq_true in Hk. tauto.
  - rewrite IH by tauto. reflexivity.
Qed.

Lemma dict_set_nodup {V} k (v : V) d :
  NoDup (List.map fst d) -> NoDup (List.map fst (dict_set k v d)).
Proof.
  intros Hd. destruct (in_dec (fun x y : pystr => decide (x = y)) k (List.map fst d))
    as [Hin|Hn].
  - rewrite dict_set_keys by exact Hin. exact Hd.
  - rewrite dict_set_keys_new by exact Hn.
    apply NoDup_app. split; [exact Hd|]. split; [|apply NoDup_singleton].
    intros x Hx Hk. apply list_elem_of_singleton in Hk. subst x.
    apply Hn, list_elem_of_In, Hx.
Qed.

Lemma dict_set_in {V} k (v : V) d k' v' :
  In (k', v') (dict_set k v d) -> (k' = k /\ v' = v) \/ In (k', v') d.
Proof.
  induction d as [|[k0 v0] d IH]; simpl.
  - intros [H|[]]. injection H as <- <-. auto.
  - destruct (pystr_eqb k0 k); simpl.
    + intros [H|H]; [injection H as <- <-; auto | auto].
    + intros [H|H]; [auto | destruct (IH H); auto].
Qed.

Lemma dict_set_nonempty {V} k (v : V) d : dict_set k v d <> [].
Proof.
  destruct d as [|[k0 v0] d]; simpl; [discriminate|].
  destruct (pystr_eqb k0 k); discriminate.
Qed.

(** ** The assets of an item *)

(** No rule of [get_media_type] has an empty asset type or media type:
    the test [not asset_type or not mediatype] only meets the tuple of
    [None]s. *)
Lemma get_media_type_named url m :
  get_media_type url = Some m ->
  pystr_eqb (asset_type m) [] || pystr_eqb (mediatype m) [] = false.
Proof.
  unfold get_media_type.
  destruct (first_rule _ media_types) as [m'|] eqn:Hext.
  - intros Hm. injection Hm as ->.
    apply first_rule_some in Hext as (ext & Hin & _).
    unfold media_types in Hin. cbn [In] in Hin.
    repeat (destruct Hin as [Hin|Hin];
            [injection Hin as <- <-; vm_compute; reflexivity|]).
    destruct Hin.
  - intros Hpat.
    apply first_rule_some in Hpat as (pattern & Hin & _).
    unfold url_patterns in Hin. cbn [In] in Hin.
    repeat (destruct Hin as [Hin|Hin];
            [injection Hin as <- <-; vm_compute; reflexivity|]).
    destruct Hin.
Qed.

(** One turn of the loop of [lookup_assets]. *)
Lemma lookup_assets_cons link links assets :
  lookup_assets (PStr link :: links) assets =
  lookup_assets links
    match get_media_type link with
    | Some m => dict_set (asset_type m) (asset_of link m) assets
    | None => assets
    end.
Proof.
  cbn [lookup_assets].
  destruct (get_media_type link) as [m|] eqn:Hm; [|reflexivity].
  rewrite (get_media_type_named link m Hm). reflexivity.
Qed.

Lemma lookup_assets_text links : forall assets,
  exists assets',
    lookup_assets (PStr <$> links) assets = Ok assets' /\
    (NoDup (List.map fst assets) -> NoDup (List.map fst assets')) /\
    (forall ty a, In (ty, a) assets' ->
       In (ty, a) assets \/
       exists link m, In link links /\ get_media_type link = Some m /\
                      ty = asset_type m /\ a = asset_of link m) /\
    (forall ty, Forall (fun l => link_type l <> Some ty) links ->
                dict_get ty assets' = dict_get ty assets) /\
    (assets' = [] ->
       assets = [] /\ Forall (fun l => get_media_type l = None) links).
Proof.
  induction links as [|link links IH]; intros assets.
  - exists assets. repeat split; auto.
  - cbn [fmap list_fmap]. rewrite lookup_assets_cons.
    destruct (get_media_type link) as [m|] eqn:Hm.
    + destruct (IH (dict_set (asset_type m) (asset_of link m) assets))
        as (assets' & Hrun & Hnd & Hin & Hget & Hnil).
      exists assets'. split; [exact Hrun|].
      refine (conj _ (conj _ (conj _ _))).
      * intros H. apply Hnd, dict_set_nodup, H.
      * intros ty a Ha. destruct (Hin ty a Ha) as [Hold|(l & m' & Hl & Hm' & -> & ->)].
        -- apply dict_set_in in Hold as [[-> ->]|Hold]; [|left; exact Hold].
           right. exists link, m. repeat split; auto. left. reflexivity.
        -- right. exists l, m'. repeat split; auto. right. exact Hl.
      * intros ty Hty. inversion Hty as [|? ? Hlink Hrest]; subst.
        rewrite (Hget ty Hrest). apply dict_get_set_ne.
        intros ->. apply Hlink. unfold link_type. rewrite Hm. reflexivity.
      * intros ->. destruct (Hnil eq_refl) as [Hempty _].
        exfalso. exact (dict_set_nonempty _ _ _ Hempty).
    + destruct (IH assets) as (assets' & Hrun & Hnd & Hin & Hget & Hnil).
      exists assets'. split; [exact Hrun|].
      refine (conj _ (conj _ (conj _ _))).
      * exact Hnd.
      * intros ty a Ha. destruct (Hin ty a Ha) as [Hold|(l & m' & Hl & Hm' & -> & ->)].
        -- left. exact Hold.
        -- right. exists l, m'. repeat split; auto. right. exact Hl.
      * intros ty Hty. inversion Hty; subst. auto.
      * intros ->. destruct (Hnil eq_refl) as [Hempty Hnone].
        split; [exact Hempty | constructor; [exact Hm | exact Hnone]].
Qed.

(** X1: the inner function [lookup_assets] of [add_item] keeps one asset
    per asset type.  For links that are texts it never raises; every
    asset it answers with is built from one of the links and carries the
    classification of that link; of several links of one type only the
    last is kept; and the answer is empty exactly when no link is
    classified. *)
Theorem lookup_assets_one_per_type (links : list pystr) :
  exists assets,
    lookup_assets (PStr <$> links) [] = Ok assets /\
    NoDup (List.map fst assets) /\
    (forall ty a, In (ty, a) assets ->
       exists link m, In link links /\ get_media_type link = Some m /\
                      ty = asset_type m /\ a = asset_of link m) /\
    (forall pre link post m,
       links = pre ++ link :: post ->
       get_media_type link = Some m ->
       Forall (fun l => link_type l <> Some (asset_type m)) post ->
       dict_get (asset_type m) assets = Some (asset_of link m)) /\
    (assets = [] <-> Forall (fun l => get_media_type l = None) links).
Proof.
  destruct (lookup_assets_text links []) as (assets & Hrun & Hnd & Hin & _ & Hnil).
  exists assets. split; [exact Hrun|]. repeat split.
  - apply Hnd. constructor.
  - intros ty a Ha. destruct (Hin ty a Ha) as [[]|H]. exact H.
  - intros pre link post m -> Hm Hpost.
    rewrite fmap_app in Hrun. cbn [fmap list_fmap] in Hrun.
    clear Hnd Hin Hnil. revert Hrun. generalize (@nil (pystr * Asset)).
    induction pre as [|l pre IH]; intros acc Hrun.
    + cbn [app fmap list_fmap] in Hrun. rewrite lookup_assets_cons, Hm in Hrun.
      destruct (lookup_assets_text post
                  (dict_set (asset_type m) (asset_of link m) acc))
        as (assets' & Hrun' & _ & _ & Hget & _).
      rewrite Hrun' in Hrun. injection Hrun as <-.
      rewrite (Hget _ Hpost). apply dict_get_set_eq.
    + cbn [app fmap list_fmap] in Hrun. rewrite lookup_assets_cons in Hrun.
      eapply IH. exact Hrun.
  - intros ->. apply (Hnil eq_refl).
  - intros Hnone. clear Hnd Hin Hnil. revert Hrun.
    induction Hnone as [|l links Hl Hnone IH]; intros Hrun.
    + injection Hrun as <-. reflexivity.
    + cbn [fmap list_fmap] in Hrun. rewrite lookup_assets_cons, Hl in Hrun.
      exact (IH Hrun).
Qed.

(** ** Thematic lots, collections and providers *)

Lemma first_key_in_pure h x table :
  (forall k, py_in (ustr k) x = Ok (h k)) ->
  first_key_in table x = Ok (table_value h table).
Proof.
  intros Hx. unfold table_value.
  induction table as [|[k v] table IH]; cbn [first_key_in List.find fst snd].
  - reflexivity.
  - rewrite Hx. cbn [rbind]. destruct (h k); [reflexivity | exact IH].
Qed.

(** On a value that [in] accepts the test is a boolean; on any other it
    raises at the first key. *)
Lemma py_in_cases x :
  (exists h, forall k, py_in (ustr k) x = Ok (h k)) \/
  (forall k, py_in k x = Raise TypeError).
Proof.
  destruct x; try (right; intros k; reflexivity); left.
  - exists (fun k => contains (ustr k) s). reflexivity.
  - exists (fun k => existsb (py_eqb (PStr (ustr k))) l). reflexivity.
  - exists (fun k => existsb (fun kv => pystr_eqb (fst kv) (ustr k)) d). reflexivity.
Qed.

Lemma table_value_in h table v :
  table_value h table = Some v -> exists k w, In (k, w) table /\ v = ustr w.
Proof.
  unfold table_value. destruct (List.find _ table) as [[k w]|] eqn:Hf;
    [|discriminate].
  intros H. injection H as <-. apply find_some in Hf as [Hin _]. eauto.
Qed.

Lemma first_key_in_value table x v :
  first_key_in table x = Ok (Some v) -> exists k w, In (k, w) table /\ v = ustr w.
Proof.
  destruct (py_in_cases x) as [[h Hh]|Hraise].
  - rewrite (first_key_in_pure h x table Hh). intros H. injection H as H.
    exact (table_value_in _ _ _ H).
  - destruct table as [|[k w] table]; [discriminate|].
    cbn [first_key_in]. rewrite Hraise. discriminate.
Qed.

Lemma first_key_in_any_value table xs v :
  first_key_in_any table xs = Ok (Some v) ->
  exists k w, In (k, w) table /\ v = ustr w.
Proof.
  induction xs as [|x xs IH]; cbn [first_key_in_any]; [discriminate|].
  destruct (first_key_in table x) as [[w|]|] eqn:Hx; cbn [rbind];
    [| exact IH | discriminate].
  intros H. injection H as <-. exact (first_key_in_value _ _ _ Hx).
Qed.

Lemma emodnet_provider_dict_values k w :
  In (k, w) emodnet_provider_dict -> In (ustr w) thematic_lots.
Proof.
  unfold emodnet_provider_dict. cbn [In]. intros H.
  repeat (destruct H as [H|H];
          [injection H as <- <-; vm_compute; tauto|]).
  destruct H.
Qed.

Lemma thematic_lots_emodnet t :
  In t thematic_lots -> startswith (ustr "EMODnet") t = true.
Proof.
  unfold thematic_lots. cbn [In List.map]. intros H.
  repeat (destruct H as [<-|H]; [vm_compute; reflexivity|]).
  destruct H.
Qed.

Lemma lookup_thematic_lot_fields md :
  lookup_thematic_lot md =
  match md !! "geonetwork_uri" with
  | None => Raise KeyError
  | Some _ => lookup_in_fields emodnet_provider_dict md
  end.
Proof. reflexivity. Qed.

(** An answer of the common search is the default or a value of the
    table. *)
Lemma lookup_in_fields_value table md t :
  lookup_in_fields table md = Ok t ->
  t = ustr "EMODnet" \/ exists k w, In (k, w) table /\ t = ustr w.
Proof.
  unfold lookup_in_fields.
  set (assets := if has_truthy md "assets" then _ else _).
  set (abstract := if has_truthy md "abstract" then _ else _).
  set (subjects := if has_truthy md "subjects" then _ else _).
  assert (Ha : forall v, assets = Ok (Some v) ->
                         exists k w, In (k, w) table /\ v = ustr w).
  { intros v. unfold assets. destruct (has_truthy md "assets"); [|discriminate].
    destruct (py_iter _) as [xs|]; cbn [rbind]; [|discriminate].
    apply first_key_in_any_value. }
  assert (Hb : forall v, abstract = Ok (Some v) ->
                         exists k w, In (k, w) table /\ v = ustr w).
  { intros v. unfold abstract. destruct (has_truthy md "abstract"); [|discriminate].
    apply first_key_in_value. }
  assert (Hc : forall v, subjects = Ok (Some v) ->
                         exists k w, In (k, w) table /\ v = ustr w).
  { intros v. unfold subjects. destruct (has_truthy md "subjects"); [|discriminate].
    apply first_key_in_value. }
  clearbody assets abstract subjects.
  destruct assets as [[v|]|]; cbn [rbind]; [| | discriminate].
  { intros H. injection H as <-. right. apply Ha. reflexivity. }
  destruct abstract as [[v|]|]; cbn [rbind]; [| | discriminate].
  { intros H. injection H as <-. right. apply Hb. reflexivity. }
  destruct subjects as [[v|]|]; cbn [rbind default]; [| | discriminate].
  { intros H. injection H as <-. right. apply Hc. reflexivity. }
  intros H. injection H as <-. left. reflexivity.
Qed.

Lemma lookup_thematic_lot_value md t :
  lookup_thematic_lot md = Ok t -> In t thematic_lots.
Proof.
  rewrite lookup_thematic_lot_fields.
  destruct (md !! "geonetwork_uri"); [|discriminate].
  intros H. destruct (lookup_in_fields_value _ _ _ H) as [->|(k & w & Hin & ->)].
  - left. reflexivity.
  - exact (emodnet_provider_dict_values _ _ Hin).
Qed.

(** X2: [lookup_thematic_lot] needs the key [geonetwork_uri], and every
    answer it gives is one of eight names, each of which begins with
    [EMODnet]. *)
Theorem lookup_thematic_lot_answers (md : metadata) :
  (md !! "geonetwork_uri" = None -> lookup_thematic_lot md = Raise KeyError) /\
  (forall t, lookup_thematic_lot md = Ok t ->
             In t thematic_lots /\ startswith (ustr "EMODnet") t = true).
Proof.
  split.
  - intros H. unfold lookup_thematic_lot. rewrite H. reflexivity.
  - intros t H. pose proof (lookup_thematic_lot_value md t H) as Hin.
    split; [exact Hin | exact (thematic_lots_emodnet t Hin)].
Qed.

(** The two tables have the same keys, and the value of a key in
    [emodnet_provider_dict] is [EMODnet] followed by its value in
    [collection_dict]; the three keys that come in another order have
    one value. *)
Lemma tables_agree h :
  table_value h emodnet_provider_dict =
  thematic_lot_of <$> table_value h collection_dict.
Proof.
  unfold table_value, emodnet_provider_dict, collection_dict.
  cbn [List.find fst snd].
  repeat match goal with
         | |- context [if h ?k then _ else _] =>
             destruct (h k) eqn:?; try (vm_compute; reflexivity)
         end.
Qed.

Lemma first_key_in_agree x :
  first_key_in emodnet_provider_dict x =
  let! hit := first_key_in collection_dict x in Ok (thematic_lot_of <$> hit).
Proof.
  destruct (py_in_cases x) as [[h Hh]|Hraise].
  - rewrite !(first_key_in_pure h x _ Hh). cbn [rbind].
    rewrite tables_agree. reflexivity.
  - unfold emodnet_provider_dict, collection_dict. cbn [first_key_in].
    rewrite !Hraise. reflexivity.
Qed.

Section TablesAgree.
Context (f : pystr -> pystr) (T1 T2 : list (string * string)).
Hypothesis first_key_in_map : forall x,
  first_key_in T1 x = let! hit := first_key_in T2 x in Ok (f <$> hit).
Hypothesis default_map : f (ustr "EMODnet") = ustr "EMODnet".

Lemma first_key_in_any_map xs :
  first_key_in_any T1 xs =
  let! hit := first_key_in_any T2 xs in Ok (f <$> hit).
Proof using first_key_in_map.
  induction xs as [|x xs IH]; [reflexivity|].
  cbn [first_key_in_any]. rewrite first_key_in_map.
  destruct (first_key_in T2 x) as [[v|]|]; cbn [rbind];
    [reflexivity | exact IH | reflexivity].
Qed.

Lemma lookup_in_fields_map md :
  lookup_in_fields T1 md = let! c := lookup_in_fields T2 md in Ok (f c).
Proof using first_key_in_map default_map.
  unfold lookup_in_fields.
  set (a := if has_truthy md "assets" then _ else _).
  set (b := if has_truthy md "abstract" then _ else _).
  set (c := if has_truthy md "subjects" then _ else _).
  set (a' := if has_truthy md "assets" then _ else _).
  set (b' := if has_truthy md "abstract" then _ else _).
  set (c' := if has_truthy md "subjects" then _ else _).
  assert (Ha : a = let! hit := a' in Ok (f <$> hit)).
  { unfold a, a'. destruct (has_truthy md "assets"); [|reflexivity].
    destruct (py_iter _) as [xs|]; cbn [rbind]; [|reflexivity].
    apply first_key_in_any_map. }
  assert (Hb : b = let! hit := b' in Ok (f <$> hit)).
  { unfold b, b'. destruct (has_truthy md "abstract"); [|reflexivity].
    apply first_key_in_map. }
  assert (Hc : c = let! hit := c' in Ok (f <$> hit)).
  { unfold c, c'. destruct (has_truthy md "subjects"); [|reflexivity].
    apply first_key_in_map. }
  clearbody a b c a' b' c'. subst a b c.
  destruct a' as [[v|]|]; cbn [rbind fmap option_fmap option_map];
    [reflexivity | | reflexivity].
  destruct b' as [[v|]|]; cbn [rbind fmap option_fmap option_map];
    [reflexivity | | reflexivity].
  destruct c' as [[v|]|]; cbn [rbind fmap option_fmap option_map default];
    [reflexivity | | reflexivity].
  rewrite default_map. reflexivity.
Qed.
End TablesAgree.

(** X3: on a record with the key [geonetwork_uri] and without a
    provider entry, [lookup_thematic_lot] and [lookup_collection] agree:
    they fail together, and the thematic lot is the collection name
    after [EMODnet] (the default [EMODnet] for the default). *)
Theorem lookup_thematic_lot_of_collection (md : metadata) :
  is_Some (md !! "geonetwork_uri") ->
  has_truthy md "provider" = false ->
  lookup_thematic_lot md =
  let! collection := lookup_collection md in Ok (thematic_lot_of collection).
Proof.
  intros [uri Huri] Hprovider.
  rewrite lookup_thematic_lot_fields, Huri.
  unfold lookup_collection. rewrite Hprovider. cbn [rbind].
  apply (lookup_in_fields_map thematic_lot_of); [exact first_key_in_agree|].
  vm_compute. reflexivity.
Qed.

Lemma lookup_thematic_lot_of_collection_witness :
  lookup_collection record_from_abstract = Ok (ustr "Bathymetry") /\
  lookup_thematic_lot record_from_abstract = Ok (ustr "EMODnet Bathymetry").
Proof.
  assert (Hc : lookup_collection record_from_abstract = Ok (ustr "Bathymetry"))
    by (vm_compute; reflexivity).
  split; [exact Hc|].
  rewrite (lookup_thematic_lot_of_collection record_from_abstract);
    [rewrite Hc; vm_compute; reflexivity
    | vm_compute; eexists; reflexivity
    | vm_compute; reflexivity].
Defined.

(** ** Upserts of families and collections *)

Lemma index_of_id_Some {A} (ident : A -> pystr) x l i :
  index_of_id ident x l = Some i ->
  exists a, l !! i = Some a /\ ident a = x.
Proof.
  revert i. induction l as [|a l IH]; intros i; cbn [index_of_id]; [discriminate|].
  destruct (pystr_eqb (ident a) x) eqn:Ha.
  - intros H. injection H as <-. exists a. split; [reflexivity|].
    unfold pystr_eqb in Ha. apply bool_decide_eq_true in Ha. exact Ha.
  - destruct (index_of_id ident x l) as [j|]; [|discriminate].
    intros H. injection H as <-. destruct (IH j eq_refl) as (b & Hb & Hx).
    exists b. split; [exact Hb | exact Hx].
Qed.

Lemma index_of_id_None {A} (ident : A -> pystr) x l :
  index_of_id ident x l = None -> ~ In x (List.map ident l).
Proof.
  induction l as [|a l IH]; cbn [index_of_id List.map In]; [tauto|].
  destruct (pystr_eqb (ident a) x) eqn:Ha; [discriminate|].
  destruct (index_of_id ident x l); [discriminate|].
  intros _ [H|H]; [|exact (IH eq_refl H)].
  unfold pystr_eqb in Ha. apply bool_decide_eq_false in Ha. contradiction.
Qed.

Lemma index_of_id_last {A} (ident : A -> pystr) x l a :
  index_of_id ident x l = None -> ident a = x ->
  index_of_id ident x (l ++ [a]) = Some (length l).
Proof.
  intros Hn Ha. induction l as [|b l IH]; cbn [index_of_id app length].
  - rewrite Ha, pystr_eqb_refl. reflexivity.
  - cbn [index_of_id] in Hn.
    destruct (pystr_eqb (ident b) x); [discriminate|].
    destruct (index_of_id ident x l); [discriminate|].
    rewrite (IH eq_refl). reflexivity.
Qed.

Lemma NoDup_snoc_new (l : list pystr) x :
  NoDup l -> ~ In x l -> NoDup (l ++ [x]).
Proof.
  intros Hl Hx. apply NoDup_app. split; [exact Hl|].
  split; [|apply NoDup_singleton].
  intros y Hy Hyx. apply list_elem_of_singleton in Hyx. subst y.
  apply Hx, list_elem_of_In, Hy.
Qed.

(** X4: [add_or_use_variable_family] is an upsert by slug.  The family
    it answers with has the slug of the name as identifier and the
    record carries that slug; the families that were there stay where
    they were, in the same order; no identifier is ever duplicated; a
    new family is saved to disk; and a second call with the same name
    changes nothing. *)
Theorem add_or_use_variable_family_upsert (mgr : CSWSTACManager)
    (current_family : pystr) (md : metadata) :
  let '(mgr', md', i) := add_or_use_variable_family mgr current_family md in
  (exists f, cat_children (stac_catalog mgr') !! i = Some f /\
             fam_id f = custom_slugify current_family) /\
  md' = <["variable_family" := PStr (custom_slugify current_family)]> md /\
  (mgr' = mgr \/
   (~ In (custom_slugify current_family) (family_ids (stac_catalog mgr)) /\
    exists f, cat_children (stac_catalog mgr')
                = cat_children (stac_catalog mgr) ++ [f] /\
              fam_collections f = [] /\
              stac_on_disk mgr' = stac_catalog mgr')) /\
  (NoDup (family_ids (stac_catalog mgr)) ->
   NoDup (family_ids (stac_catalog mgr'))) /\
  add_or_use_variable_family mgr' current_family md' = (mgr', md', i).
Proof.
  unfold add_or_use_variable_family.
  destruct (index_of_id fam_id (custom_slugify current_family)
              (cat_children (stac_catalog mgr))) as [i|] eqn:Hi.
  - destruct (index_of_id_Some _ _ _ _ Hi) as (f & Hf & Hid).
    split; [exists f; split; assumption|].
    split; [reflexivity|]. split; [left; reflexivity|].
    split; [tauto|]. rewrite Hi, insert_insert_eq. reflexivity.
  - pose proof (index_of_id_None _ _ _ Hi) as Hnew.
    cbn [save stac_catalog stac_on_disk set_children cat_children].
    split.
    { eexists. split; [apply list_lookup_middle; reflexivity | reflexivity]. }
    split; [reflexivity|]. split.
    { right. split; [exact Hnew|]. eexists. split; [reflexivity|].
      split; reflexivity. }
    split.
    { unfold family_ids. cbn [cat_children set_children].
      rewrite map_app. cbn [List.map fam_id]. intros Hnd.
      apply NoDup_snoc_new; assumption. }
    erewrite index_of_id_last; [| exact Hi | reflexivity].
    rewrite insert_insert_eq. reflexivity.
Qed.

(** ** Providers *)

Lemma update_providers_chosen md :
  update_providers md =
  let! entry := chosen_provider md in
  match md !! "provider" with
  | None => Raise KeyError
  | Some (PList l) => Ok (<["provider" := PList (l ++ [entry])]> md)
  | Some _ => Raise AttributeError
  end.
Proof.
  unfold update_providers, chosen_provider.
  destruct (has_truthy md "distributor"), (has_truthy md "publisher"),
    (has_truthy md "creator"); reflexivity.
Qed.

(** X5: [update_providers] appends one entry to the provider list and
    changes nothing else: the entries that were there keep their order,
    every other key keeps its value.  The entry names the distributor
    when there is one, else the publisher, else the creator, else the
    thematic lot.  Without the key [provider] the call raises
    [KeyError]; with a provider that is not a list, [AttributeError]. *)
Theorem update_providers_appends (md : metadata) (entry : pyval) :
  chosen_provider md = Ok entry ->
  (forall l, md !! "provider" = Some (PList l) ->
     exists md',
       update_providers md = Ok md' /\
       md' !! "provider" = Some (PList (l ++ [entry])) /\
       (forall k : string, k <> "provider"%string -> md' !! k = md !! k)) /\
  (md !! "provider" = None -> update_providers md = Raise KeyError) /\
  (forall v, md !! "provider" = Some v ->
             (forall l, v <> PList l) ->
             update_providers md = Raise AttributeError).
Proof.
  intros Hentry. rewrite update_providers_chosen, Hentry. cbn [rbind].
  split; [|split].
  - intros l ->. eexists. split; [reflexivity|].
    split; [apply lookup_insert_eq|].
    intros k Hk. apply lookup_insert_ne. congruence.
  - intros ->. reflexivity.
  - intros v -> Hv. destruct v; try reflexivity. destruct (Hv l eq_refl).
Qed.

Lemma update_providers_appends_witness :
  exists md',
    update_providers record_two_parties = Ok md' /\
    md' !! "provider"
      = Some (PList [provider_entry (pstr "Unknown") "provider";
                     provider_entry (pstr "EMODnet Biology") "publisher"]).
Proof.
  destruct (proj1 (update_providers_appends record_two_parties
                     (provider_entry (pstr "EMODnet Biology") "publisher")
                     eq_refl)
              [provider_entry (pstr "Unknown") "provider"] eq_refl)
    as (md' & Hrun & Hprov & _).
  exists md'. split; [exact Hrun | exact Hprov].
Defined.

(** ** [add_or_use_collection] *)

(** What a call of [add_or_use_collection] that returns has done. *)
Lemma add_or_use_collection_ok mgr fam current_collection md mgr' md' i :
  add_or_use_collection mgr fam current_collection md = Ok (mgr', md', i) ->
  exists f md1 providers unique emodnet,
    cat_children (stac_catalog mgr) !! fam = Some f /\
    update_providers md = Ok md1 /\
    py_iter (default PNone (md1 !! "provider")) = Ok providers /\
    collect_unique_providers providers [] = Ok unique /\
    any_m (fun key => py_in (ustr "EMODnet") key) (List.map fst unique)
      = Ok emodnet /\
    ((index_of_id coll_id (collection_slug emodnet current_collection)
                  (fam_collections f) = Some i /\
      mgr' = mgr /\ md' = md1) \/
     (index_of_id coll_id (collection_slug emodnet current_collection)
                  (fam_collections f) = None /\
      emodnet = true /\ i = length (fam_collections f) /\
      md' = <["variable_family" := PStr (fam_id f)]> md1 /\
      mgr' = save (set_children (stac_catalog mgr)
                     (<[fam := set_collections f
                          (fam_collections f ++
                           [{| coll_id := collection_slug true current_collection;
                               coll_title :=
                                 current_collection ++ ustr " (" ++ ustr "EMODnet"
                                 ++ ustr " Convention)";
                               coll_description :=
                                 ustr "Collection of " ++ current_collection
                                 ++ ustr " data";
                               coll_providers := unique;
                               coll_license :=
                                 default (pstr "CC-BY-4.0") (md1 !! "license");
                               coll_extent := initial_extent;
                               coll_items := [] |}])]>
                        (cat_children (stac_catalog mgr)))))).
Proof.
  unfold add_or_use_collection. intros H.
  destruct (cat_children (stac_catalog mgr) !! fam) as [f|]; [|discriminate H].
  destruct (update_providers md) as [md1|]; cbn [rbind] in H; [|discriminate H].
  destruct (py_iter _) as [providers|] eqn:Hiter; cbn [rbind] in H;
    [|discriminate H].
  destruct (collect_unique_providers providers []) as [unique|] eqn:Hunique;
    cbn [rbind] in H; [|discriminate H].
  destruct (any_m _ _) as [emodnet|] eqn:Hany; cbn [rbind] in H;
    [|discriminate H].
  exists f, md1, providers, unique, emodnet.
  do 5 (split; [reflexivity || assumption|]).
  unfold collection_slug.
  destruct (index_of_id _ _ _) as [j|].
  - injection H as <- <- <-. left. auto.
  - destruct emodnet; [|discriminate H].
    injection H as <- <- <-. right. auto.
Qed.

(** X6: [add_or_use_collection] is an upsert by identifier.  When it
    returns, the collection it answers with is in the family it was
    given and its identifier is the slug of the name, after [emodnet-]
    when it was created; every other family is as it was; the
    collections of that family are as they were, or followed by the new
    one, which has no item, the extent of the whole world, and is saved
    to disk; no identifier is ever duplicated; and the provider list of
    the record has grown by one entry, whether the collection was there
    or not. *)
Theorem add_or_use_collection_upsert (mgr : CSWSTACManager) (fam : nat)
    (current_collection : pystr) (md : metadata)
    (mgr' : CSWSTACManager) (md' : metadata) (i : nat) :
  add_or_use_collection mgr fam current_collection md = Ok (mgr', md', i) ->
  exists f f' coll,
    cat_children (stac_catalog mgr) !! fam = Some f /\
    cat_children (stac_catalog mgr') !! fam = Some f' /\
    fam_collections f' !! i = Some coll /\
    fam_id f' = fam_id f /\
    (coll_id coll = custom_slugify current_collection \/
     coll_id coll = ustr "emodnet-" ++ custom_slugify current_collection) /\
    (forall j, j <> fam ->
       cat_children (stac_catalog mgr') !! j = cat_children (stac_catalog mgr) !! j) /\
    (mgr' = mgr \/
     (fam_collections f' = fam_collections f ++ [coll] /\
      coll_id coll = ustr "emodnet-" ++ custom_slugify current_collection /\
      coll_items coll = [] /\ coll_extent coll = initial_extent /\
      stac_on_disk mgr' = stac_catalog mgr')) /\
    (NoDup (collection_ids f) -> NoDup (collection_ids f')) /\
    (exists l entry,
       md !! "provider" = Some (PList l) /\
       md' !! "provider" = Some (PList (l ++ [entry]))).
Proof.
  intros H.
  destruct (add_or_use_collection_ok _ _ _ _ _ _ _ H)
    as (f & md1 & providers & unique & emodnet & Hf & Hup & _ & _ & _ & Hcase).
  assert (Hprov : exists l entry,
             md !! "provider" = Some (PList l) /\
             md1 !! "provider" = Some (PList (l ++ [entry]))).
  { rewrite update_providers_chosen in Hup.
    destruct (chosen_provider md) as [entry|]; cbn [rbind] in Hup;
      [|discriminate Hup].
    destruct (md !! "provider") as [[| | | | |l| |]|]; try discriminate Hup.
    injection Hup as <-. exists l, entry. split; [reflexivity|].
    apply lookup_insert_eq. }
  destruct Hcase as [(Hi & -> & ->)|(Hi & -> & -> & -> & ->)].
  - destruct (index_of_id_Some _ _ _ _ Hi) as (coll & Hcoll & Hid).
    exists f, f, coll. split; [exact Hf|]. split; [exact Hf|].
    split; [exact Hcoll|]. split; [reflexivity|]. split.
    { rewrite Hid. unfold collection_slug. destruct emodnet; auto. }
    split; [reflexivity|]. split; [left; reflexivity|].
    split; [tauto | exact Hprov].
  - pose proof (index_of_id_None _ _ _ Hi) as Hnew.
    cbn [save stac_catalog stac_on_disk set_children cat_children].
    eexists f, _, _. split; [exact Hf|].
    split; [apply list_lookup_insert_eq; eapply lookup_lt_Some, Hf|].
    cbn [set_collections fam_collections fam_id coll_id coll_items coll_extent].
    split; [apply list_lookup_middle; reflexivity|].
    split; [reflexivity|]. split; [right; reflexivity|].
    split; [intros j Hj; apply list_lookup_insert_ne; congruence|].
    split; [right; repeat split; reflexivity|].
    split.
    { unfold collection_ids. cbn [set_collections fam_collections].
      rewrite map_app. cbn [List.map coll_id]. intros Hnd.
      apply NoDup_snoc_new; assumption. }
    destruct Hprov as (l & entry & Hl & Hl1). exists l, entry.
    split; [exact Hl|]. rewrite lookup_insert_ne by discriminate. exact Hl1.
Qed.

Lemma is_ok_eq {A} (d : A) (r : result A) :
  is_ok r = true -> r = Ok (ok_or d r).
Proof. destruct r; [reflexivity | discriminate]. Qed.

Lemma add_or_use_collection_upsert_witness :
  exists f f' coll,
    cat_children (stac_catalog (fst (fst with_family))) !! snd with_family
      = Some f /\
    cat_children (stac_catalog (fst (fst with_collection))) !! snd with_family
      = Some f' /\
    fam_collections f' !! snd with_collection = Some coll /\
    coll_id coll = ustr "emodnet-bathymetry" /\
    coll_items coll = [] /\
    fam_collections f' = fam_collections f ++ [coll].
Proof.
  destruct (add_or_use_collection_upsert
              (fst (fst with_family)) (snd with_family) (ustr "Bathymetry")
              (snd (fst with_family))
              (fst (fst with_collection)) (snd (fst with_collection))
              (snd with_collection))
    as (f & f' & coll & Hf & Hf' & Hcoll & _ & _ & _ & Hcase & _).
  - unfold with_collection at 1 2 3.
    rewrite <- !surjective_pairing. apply is_ok_eq. vm_compute. reflexivity.
  - exists f, f', coll. split; [exact Hf|]. split; [exact Hf'|].
    split; [exact Hcoll|].
    destruct Hcase as [Hsame|(Happ & Hid & Hitems & _)].
    + exfalso. revert Hsame. vm_compute. discriminate.
    + split; [rewrite Hid; vm_compute; reflexivity|].
      split; [exact Hitems | exact Happ].
Defined.

(** The keys of [unique_providers] are the names of the providers. *)
Lemma collect_unique_providers_names providers : forall acc,
  Forall (fun p => provider_well_formed p = true) providers ->
  Forall (fun kv => is_text (fst kv) = true) acc ->
  exists unique,
    collect_unique_providers providers acc = Ok unique /\
    Forall (fun kv => is_text (fst kv) = true) unique /\
    (forall k, In k (List.map fst acc) -> In k (List.map fst unique)) /\
    (forall p name, In p providers -> provider_name p = Some name ->
                    In name (List.map fst unique)).
Proof.
  induction providers as [|p providers IH]; intros acc Hwf Hacc.
  - exists acc. repeat split; auto. intros p name [].
  - inversion Hwf as [|? ? Hp Hrest]; subst.
    destruct p as [| | | | | |d|]; try discriminate Hp.
    cbn [provider_well_formed] in Hp.
    destruct (dict_get (ustr "name") d) as [[| | | |n| | |]|] eqn:Hname;
      try discriminate Hp.
    destruct (dict_get (ustr "roles") d) as [roles|] eqn:Hroles;
      [|discriminate Hp].
    cbn [collect_unique_providers py_getitem]. rewrite Hname. cbn [rbind hashable negb].
    destruct (existsb _ acc) eqn:Hseen.
    + destruct (IH acc Hrest Hacc) as (unique & Hrun & Htext & Hkeep & Hnames).
      exists unique. split; [exact Hrun|]. split; [exact Htext|].
      split; [exact Hkeep|].
      intros q name [<-|Hq] Hq'.
      * cbn [provider_name] in Hq'. rewrite Hname in Hq'. injection Hq' as <-.
        apply Hkeep. apply existsb_exists in Hseen as ([k v] & Hkv & Heq).
        rewrite Forall_forall in Hacc.
        pose proof (Hacc (k, v) ltac:(apply list_elem_of_In, Hkv)) as Hk.
        cbn [fst] in Hk, Heq. destruct k; try discriminate Hk.
        cbn [py_eqb] in Heq. unfold pystr_eqb in Heq.
        apply bool_decide_eq_true in Heq. subst s.
        apply in_map_iff. exists (PStr n, v). auto.
      * exact (Hnames q name Hq Hq').
    + rewrite Hroles. cbn [rbind].
      destruct (IH (acc ++ [(PStr n, roles)]) Hrest) as
        (unique & Hrun & Htext & Hkeep & Hnames).
      { apply Forall_app. split; [exact Hacc | repeat constructor]. }
      exists unique. split; [exact Hrun|]. split; [exact Htext|]. split.
      * intros k Hk. apply Hkeep. rewrite map_app. apply in_or_app. auto.
      * intros q name [<-|Hq] Hq'.
        -- cbn [provider_name] in Hq'. rewrite Hname in Hq'. injection Hq' as <-.
           apply Hkeep. rewrite map_app. apply in_or_app. right. left. reflexivity.
        -- exact (Hnames q name Hq Hq').
Qed.

(** [any] over keys that are texts does not raise. *)
Lemma any_m_text_keys p keys :
  Forall (fun k => is_text k = true) keys ->
  any_m (fun key => py_in p key) keys = Ok (existsb (key_contains p) keys).
Proof.
  induction 1 as [|k keys Hk Hkeys IH]; [reflexivity|].
  destruct k; try discriminate Hk.
  cbn [any_m py_in rbind existsb key_contains]. rewrite IH.
  destruct (contains p s); reflexivity.
Qed.

Lemma startswith_contains p s : startswith p s = true -> contains p s = true.
Proof. intros H. destruct s; cbn [contains]; rewrite H; reflexivity. Qed.

(** X7: a record without a creator, a publisher or a distributor gets
    its thematic lot as provider, and every thematic lot holds
    [EMODnet]: with provider entries that are well formed,
    [add_or_use_collection] answers with a collection whose identifier
    is the slug of the name after [emodnet-], and the title of a new
    collection can be built, [collection_convention] being bound. *)
Theorem add_or_use_collection_thematic_lot (mgr : CSWSTACManager) (fam : nat)
    (f : Family) (current_collection : pystr) (md : metadata)
    (providers : list pyval) (t : pystr) :
  cat_children (stac_catalog mgr) !! fam = Some f ->
  has_truthy md "creator" = false ->
  has_truthy md "publisher" = false ->
  has_truthy md "distributor" = false ->
  md !! "provider" = Some (PList providers) ->
  Forall (fun p => provider_well_formed p = true) providers ->
  lookup_thematic_lot md = Ok t ->
  exists mgr' md' i coll,
    add_or_use_collection mgr fam current_collection md = Ok (mgr', md', i) /\
    get_collection (stac_catalog mgr') fam i = Some coll /\
    coll_id coll = ustr "emodnet-" ++ custom_slugify current_collection /\
    md' !! "provider"
      = Some (PList (providers ++ [provider_entry (PStr t) "provider"])).
Proof.
  intros Hf Hcreator Hpublisher Hdistributor Hprov Hwf Ht.
  assert (Hup : update_providers md =
                Ok (<["provider" :=
                        PList (providers ++ [provider_entry (PStr t) "provider"])]> md)).
  { rewrite update_providers_chosen. unfold chosen_provider.
    rewrite Hdistributor, Hpublisher, Hcreator, Ht. cbn [rbind].
    rewrite Hprov. reflexivity. }
  set (md1 := <["provider" :=
                  PList (providers ++ [provider_entry (PStr t) "provider"])]> md)
    in *.
  assert (Hprov1 : md1 !! "provider"
                   = Some (PList (providers ++ [provider_entry (PStr t) "provider"])))
    by apply lookup_insert_eq.
  destruct (collect_unique_providers_names
              (providers ++ [provider_entry (PStr t) "provider"]) [])
    as (unique & Hunique & Htext & _ & Hnames).
  { apply Forall_app. split; [exact Hwf | repeat constructor]. }
  { constructor. }
  assert (Hany : any_m (fun key => py_in (ustr "EMODnet") key) (List.map fst unique)
                 = Ok true).
  { rewrite any_m_text_keys.
    - f_equal. apply existsb_exists. exists (PStr t). split.
      + apply (Hnames (provider_entry (PStr t) "provider"));
          [apply in_or_app; right; left; reflexivity | reflexivity].
      + cbn [key_contains]. apply startswith_contains, thematic_lots_emodnet.
        exact (lookup_thematic_lot_value md t Ht).
    - apply Forall_forall. intros k Hk. apply list_elem_of_In, in_map_iff in Hk.
      destruct Hk as (kv & <- & Hkv). rewrite Forall_forall in Htext.
      apply Htext, list_elem_of_In, Hkv. }
  unfold add_or_use_collection, get_collection.
  rewrite Hf, Hup. cbn [rbind]. rewrite Hprov1.
  cbn [from_option id py_iter rbind].
  rewrite Hunique. cbn [rbind]. rewrite Hany. cbn [rbind].
  destruct (index_of_id coll_id _ (fam_collections f)) as [i|] eqn:Hi.
  - destruct (index_of_id_Some _ _ _ _ Hi) as (coll & Hcoll & Hid).
    exists mgr, md1, i, coll. split; [reflexivity|].
    rewrite Hf. cbn [mbind option_bind]. auto.
  - eexists _, _, _, _. split; [reflexivity|].
    cbn [save stac_catalog set_children cat_children].
    rewrite list_lookup_insert_eq by (eapply lookup_lt_Some, Hf).
    cbn [mbind option_bind set_collections fam_collections].
    split; [apply list_lookup_middle; reflexivity|].
    split; [reflexivity|].
    rewrite lookup_insert_ne by discriminate. exact Hprov1.
Qed.

Lemma add_or_use_collection_thematic_lot_witness :
  exists mgr' md' i coll,
    add_or_use_collection (fst (fst with_family_from_abstract)) 0
      (ustr "Bathymetry") (snd (fst with_family_from_abstract))
      = Ok (mgr', md', i) /\
    get_collection (stac_catalog mgr') 0 i = Some coll /\
    coll_id coll = ustr "emodnet-" ++ custom_slugify (ustr "Bathymetry") /\
    md' !! "provider"
      = Some (PList ([] ++ [provider_entry (pstr "EMODnet Bathymetry") "provider"])).
Proof.
  eapply (add_or_use_collection_thematic_lot
            (fst (fst with_family_from_abstract)) 0); vm_compute;
    try reflexivity; constructor.
Defined.

(** ** More on [add_item] *)

Lemma insert_window_frame (md : metadata) (w : string) v (k : string) :
  window_key w = true -> window_key k = false ->
  <[w := v]> md !! k = md !! k.
Proof.
  intros Hw Hk. apply lookup_insert_ne. intros ->. congruence.
Qed.

Lemma update_datetimes_step_frame md key md1 :
  update_datetimes_step md key = Ok md1 ->
  forall k : string, window_key k = false -> md1 !! k = md !! k.
Proof.
  unfold update_datetimes_step. intros H k Hk.
  destruct (has_truthy md key); [|injection H as <-; reflexivity].
  set (v := default PNone (md !! key)) in *. clearbody v.
  match type of H with
  | rbind ?m _ = _ => destruct m as [mdA|] eqn:HA; cbn [rbind] in H;
                      [|discriminate H]
  end.
  match type of H with
  | rbind ?m _ = _ => destruct m as [mdB|] eqn:HB; cbn [rbind] in H;
                      [|discriminate H]
  end.
  assert (FA : mdA !! k = md !! k).
  { destruct (md !! "start_datetime") as [start|].
    - destruct (py_lt v start) as [[|]|]; cbn [rbind] in HA;
        [| |discriminate HA]; injection HA as <-;
        [apply insert_window_frame; [reflexivity | exact Hk] | reflexivity].
    - injection HA as <-. reflexivity. }
  assert (FB : mdB !! k = mdA !! k).
  { destruct (mdA !! "end_datetime") as [stop|].
    - destruct (py_gt v stop) as [[|]|]; cbn [rbind] in HB;
        [| |discriminate HB]; injection HB as <-;
        [apply insert_window_frame; [reflexivity | exact Hk] | reflexivity].
    - injection HB as <-. reflexivity. }
  injection H as <-. rewrite <- FA, <- FB.
  set (mdC := match mdB !! "start_datetime" with
              | Some _ => mdB
              | None => <["start_datetime" := v]> mdB
              end).
  assert (FC : mdC !! k = mdB !! k).
  { unfold mdC. destruct (mdB !! "start_datetime"); [reflexivity|].
    apply insert_window_frame; [reflexivity | exact Hk]. }
  rewrite <- FC. destruct (mdC !! "end_datetime"); [reflexivity|].
  apply insert_window_frame; [reflexivity | exact Hk].
Qed.

Lemma update_datetimes_frame md md1 :
  update_datetimes md = Ok md1 ->
  forall k : string, window_key k = false -> md1 !! k = md !! k.
Proof.
  unfold update_datetimes.
  assert (Hloop : forall keys md md1,
             update_datetimes_loop md keys = Ok md1 ->
             forall k : string, window_key k = false -> md1 !! k = md !! k).
  { induction keys as [|key keys IH]; intros m m1 H k Hk.
    - injection H as <-. reflexivity.
    - cbn [update_datetimes_loop] in H.
      destruct (update_datetimes_step m key) as [m2|] eqn:Hstep;
        cbn [rbind] in H; [|discriminate H].
      rewrite (IH _ _ H k Hk). exact (update_datetimes_step_frame _ _ _ Hstep k Hk). }
  destruct (update_datetimes_loop md datetime_keys) as [m|] eqn:Hl;
    cbn [rbind]; [|discriminate].
  intros H k Hk. injection H as <-.
  rewrite <- (Hloop _ _ _ Hl k Hk).
  unfold update_datetimes_defaults.
  set (m' := match m !! "start_datetime" with
             | Some _ => m
             | None => <["start_datetime" := default_start_datetime]> m
             end).
  assert (Hm' : m' !! k = m !! k).
  { unfold m'. destruct (m !! "start_datetime"); [reflexivity|].
    apply insert_window_frame; [reflexivity | exact Hk]. }
  rewrite <- Hm'.
  destruct (m' !! "end_datetime") as [stop|];
    [destruct (m' !! "start_datetime") as [start|];
     [destruct (py_eqb stop start)|]|];
    try reflexivity; apply insert_window_frame; (reflexivity || exact Hk).
Qed.

Lemma format_start_end_datetimes_stac_frame E md md1 :
  format_start_end_datetimes_stac E md = Ok md1 ->
  forall k : string, window_key k = false -> md1 !! k = md !! k.
Proof.
  unfold format_start_end_datetimes_stac. intros H k Hk.
  destruct (md !! "start_datetime") as [s|]; [|discriminate H].
  destruct (format_datetime E s) as [s'|]; cbn [rbind] in H; [|discriminate H].
  destruct (_ !! "end_datetime") as [e|]; [|discriminate H].
  destruct (format_datetime E e) as [e'|]; cbn [rbind] in H; [|discriminate H].
  injection H as <-.
  rewrite !insert_window_frame by (reflexivity || exact Hk). reflexivity.
Qed.

Lemma build_item_frame E md new_item_id collection md1 it :
  build_item E md new_item_id collection = Ok (md1, it) ->
  (forall k : string, window_key k = false -> md1 !! k = md !! k) /\
  item_id it = new_item_id /\
  item_collection it = coll_id collection /\
  exists links, md !! "assets" = Some links /\
                (let! links := py_iter links in lookup_assets links [])
                = Ok (item_assets it).
Proof.
  unfold build_item. intros H.
  destruct (finalize_boundaries E md) as [bbox|]; cbn [rbind] in H;
    [|discriminate H].
  destruct bbox as [|a [|b [|c [|d [|? ?]]]]]; try discriminate H.
  destruct (update_datetimes md) as [m1|] eqn:H1; cbn [rbind] in H;
    [|discriminate H].
  destruct (format_start_end_datetimes_stac E m1) as [m2|] eqn:H2;
    cbn [rbind] in H; [|discriminate H].
  assert (Hframe : forall k : string, window_key k = false -> m2 !! k = md !! k).
  { intros k Hk. rewrite (format_start_end_datetimes_stac_frame _ _ _ H2 k Hk).
    exact (update_datetimes_frame _ _ H1 k Hk). }
  destruct (md_get m2 "start_datetime") as [v1|]; cbn [rbind] in H; [|discriminate H].
  destruct (as_datetime v1) as [start|]; cbn [rbind] in H; [|discriminate H].
  destruct (md_get m2 "end_datetime") as [v2|]; cbn [rbind] in H; [|discriminate H].
  destruct (as_datetime v2) as [stop|]; cbn [rbind] in H; [|discriminate H].
  destruct (md_get m2 "subjects") as [keywords|]; cbn [rbind] in H; [|discriminate H].
  destruct (md_get m2 "title") as [title|]; cbn [rbind] in H; [|discriminate H].
  destruct (md_get m2 "provider") as [providers|]; cbn [rbind] in H; [|discriminate H].
  destruct (py_index providers 0) as [provider|]; cbn [rbind] in H; [|discriminate H].
  destruct (py_getitem provider "name") as [name|]; cbn [rbind] in H; [|discriminate H].
  unfold md_get in H at 1.
  destruct (m2 !! "assets") as [links|] eqn:Hlinks; cbn [rbind] in H;
    [|discriminate H].
  destruct (py_iter links) as [ls|] eqn:Hiter; cbn [rbind] in H; [|discriminate H].
  destruct (lookup_assets ls []) as [assets|] eqn:Hassets; cbn [rbind] in H;
    [|discriminate H].
  injection H as <- <-. cbn [item_id item_collection item_assets].
  split; [exact Hframe|]. split; [reflexivity|]. split; [reflexivity|].
  exists links. split.
  - rewrite <- Hlinks. symmetry. apply Hframe. reflexivity.
  - rewrite Hiter. cbn [rbind]. exact Hassets.
Qed.

(** Links that [lookup_assets] went through are texts. *)
Lemma lookup_assets_texts links : forall assets assets',
  lookup_assets links assets = Ok assets' ->
  exists texts, links = PStr <$> texts.
Proof.
  induction links as [|link links IH]; intros assets assets' H.
  - exists []. reflexivity.
  - destruct link; try discriminate H.
    assert (exists acc, lookup_assets links acc = Ok assets') as [acc Hacc].
    { cbn [lookup_assets] in H. destruct (get_media_type s) as [m|].
      - destruct (_ || _); eauto.
      - eauto. }
    destruct (IH _ _ Hacc) as [texts ->]. exists (s :: texts). reflexivity.
Qed.

Lemma get_collection_put_ne cat fam coll c fam' coll' :
  (fam', coll') <> (fam, coll) ->
  get_collection (put_collection cat fam coll c) fam' coll'
  = get_collection cat fam' coll'.
Proof.
  intros Hne. unfold get_collection, put_collection.
  cbn [cat_children set_children].
  destruct (decide (fam' = fam)) as [->|Hfam].
  - rewrite list_lookup_alter_eq.
    destruct (cat_children cat !! fam) as [f|]; [|reflexivity].
    cbn. apply list_lookup_insert_ne. congruence.
  - rewrite list_lookup_alter_ne by congruence. reflexivity.
Qed.

Lemma id_in_false_not_in {A} (ident : A -> pystr) x l :
  id_in ident x l = false -> ~ In x (List.map ident l).
Proof.
  unfold id_in. intros H Hin. apply in_map_iff in Hin as (a & Ha & Hin).
  assert (existsb (fun a => pystr_eqb (ident a) x) l = true); [|congruence].
  apply existsb_exists. exists a. split; [exact Hin|].
  rewrite Ha. apply pystr_eqb_refl.
Qed.

(** X8: an insertion that succeeds stores one item, under the slug of
    the title, in the collection it was given and nowhere else.  Every
    other collection of the catalog is as it was; the identifiers of the
    items of the collection stay free of duplicates; the collection
    keeps its identifier; and the record carries the identifier of the
    item and of the collection. *)
Theorem add_item_stores_one_item (E : Env) (mgr : CSWSTACManager)
    (md : metadata) (fam coll : nat) (mgr' : CSWSTACManager) (md' : metadata) :
  add_item E mgr md fam coll = Ok (mgr', md', true) ->
  exists c c' it title,
    get_collection (stac_catalog mgr) fam coll = Some c /\
    get_collection (stac_catalog mgr') fam coll = Some c' /\
    md !! "title" = Some (PStr title) /\
    coll_items c' = coll_items c ++ [it] /\
    item_id it = custom_slugify title /\
    item_collection it = coll_id c /\
    item_assets it <> [] /\
    coll_id c' = coll_id c /\
    (NoDup (item_ids c) -> NoDup (item_ids c')) /\
    (forall fam' coll', (fam', coll') <> (fam, coll) ->
       get_collection (stac_catalog mgr') fam' coll'
       = get_collection (stac_catalog mgr) fam' coll') /\
    md' !! "stac_id" = Some (PStr (item_id it)) /\
    md' !! "stac_collection" = Some (PStr (coll_id c)).
Proof.
  unfold add_item. intros H.
  destruct (get_collection _ fam coll) as [c|] eqn:Hc; [|discriminate H].
  destruct (negb (has_truthy md "title")).
  { ok_inv H. discriminate H. }
  destruct (md !! "title") as [[| | | |title| | |]|] eqn:Ht; try discriminate H.
  destruct (id_in _ _ _) eqn:Hid; [discriminate H|].
  destruct (build_item _ _ _ _) as [[md1 it]|] eqn:Hb; cbn [rbind] in H;
    [|discriminate H].
  destruct (item_assets it) as [|asset assets] eqn:Hassets; [discriminate H|].
  destruct (extent_from_items _) as [extent|] eqn:He; cbn [rbind] in H;
    [|discriminate H].
  injection H as <- <-.
  destruct (build_item_frame _ _ _ _ _ _ Hb) as (_ & Hit & Hcoll & _).
  exists c, (set_items_extent c (coll_items c ++ [it]) extent), it, title.
  cbn [save stac_catalog coll_items coll_id set_items_extent].
  split; [reflexivity|].
  split; [apply (get_put_collection _ _ _ _ _ Hc)|].
  split; [reflexivity|]. split; [reflexivity|]. split; [exact Hit|].
  split; [exact Hcoll|]. split; [rewrite Hassets; discriminate|].
  split; [reflexivity|]. split.
  { unfold item_ids. cbn [coll_items set_items_extent]. rewrite map_app.
    cbn [List.map].
    intros Hnd. apply NoDup_snoc_new; [exact Hnd|].
    rewrite Hit. exact (id_in_false_not_in _ _ _ Hid). }
  split; [intros fam' coll' Hne; apply get_collection_put_ne, Hne|].
  split.
  - rewrite lookup_insert_ne by discriminate. rewrite lookup_insert_eq, Hit.
    reflexivity.
  - apply lookup_insert_eq.
Qed.

Lemma add_item_stores_one_item_witness :
  exists c c' it title,
    get_collection (stac_catalog (fst (fst with_item_a))) 0 0 = Some c /\
    get_collection (stac_catalog (fst (fst with_item_b))) 0 0 = Some c' /\
    record_b !! "title" = Some (PStr title) /\
    coll_items c' = coll_items c ++ [it] /\
    item_id it = custom_slugify title.
Proof.
  destruct (add_item_stores_one_item reference_env
              (fst (fst with_item_a)) record_b 0%nat 0%nat
              (fst (fst with_item_b)) (snd (fst with_item_b)))
    as (c & c' & it & title & Hc & Hc' & Ht & Hitems & Hid & _).
  - apply returned_metadata_ok. vm_compute. reflexivity.
  - exists c, c', it, title. auto.
Defined.

(** X9: an insertion that is turned down changes nothing in the
    catalog, in memory or on disk, and writes no key of the record but
    the two dates.  It is turned down when the title is missing or
    empty, when the slug of the title is taken in the collection, or
    when none of the links of the record is classified. *)
Theorem add_item_turned_down (E : Env) (mgr : CSWSTACManager)
    (md : metadata) (fam coll : nat) (mgr' : CSWSTACManager) (md' : metadata) :
  add_item E mgr md fam coll = Ok (mgr', md', false) ->
  mgr' = mgr /\
  (forall k : string, window_key k = false -> md' !! k = md !! k) /\
  (has_truthy md "title" = false \/
   exists c title,
     get_collection (stac_catalog mgr) fam coll = Some c /\
     md !! "title" = Some (PStr title) /\
     (In (custom_slugify title) (item_ids c) \/
      exists links texts,
        md !! "assets" = Some links /\
        py_iter links = Ok (PStr <$> texts) /\
        Forall (fun l => get_media_type l = None) texts)).
Proof.
  unfold add_item. intros H.
  destruct (get_collection _ fam coll) as [c|] eqn:Hc; [|discriminate H].
  destruct (has_truthy md "title") eqn:Htitle; cbn [negb] in H.
  2: { destruct (md_get md "geonetwork_uri"); cbn [rbind] in H;
         [|discriminate H].
       injection H as <- <-. auto. }
  destruct (md !! "title") as [[| | | |title| | |]|] eqn:Ht; try discriminate H.
  destruct (id_in _ _ _) eqn:Hid.
  { injection H as <- <-. split; [reflexivity|]. split; [reflexivity|].
    right. exists c, title. split; [reflexivity|]. split; [reflexivity|].
    left. unfold id_in in Hid. apply existsb_exists in Hid as (it & Hit & Heq).
    unfold pystr_eqb in Heq. apply bool_decide_eq_true in Heq.
    unfold item_ids. rewrite <- Heq. apply in_map, Hit. }
  destruct (build_item _ _ _ _) as [[md1 it]|] eqn:Hb; cbn [rbind] in H;
    [|discriminate H].
  destruct (build_item_frame _ _ _ _ _ _ Hb) as (Hframe & _ & _ & links & Hlinks & Hrun).
  destruct (item_assets it) as [|asset assets] eqn:Hassets.
  - injection H as <- <-. split; [reflexivity|]. split; [exact Hframe|].
    right. exists c, title. split; [reflexivity|]. split; [reflexivity|].
    right. destruct (py_iter links) as [ls|] eqn:Hiter; cbn [rbind] in Hrun;
      [|discriminate Hrun].
    destruct (lookup_assets_texts _ _ _ Hrun) as [texts ->].
    exists links, texts. split; [exact Hlinks|]. split; [exact Hiter|].
    destruct (lookup_assets_text texts []) as (r & Hr & _ & _ & _ & Hnil).
    rewrite Hr in Hrun. injection Hrun as ->. apply (Hnil eq_refl).
  - destruct (extent_from_items _); cbn [rbind] in H; discriminate H.
Qed.

Lemma add_item_turned_down_witness :
  fst (fst (ok_or (initial_manager, record_a, true)
              (add_item reference_env (fst (fst with_item_a))
                        record_a_again 0 0)))
  = fst (fst with_item_a).
Proof.
  apply (add_item_turned_down reference_env (fst (fst with_item_a))
           record_a_again 0 0 _
           (snd (fst (ok_or (initial_manager, record_a, true)
                        (add_item reference_env (fst (fst with_item_a))
                                  record_a_again 0 0))))).
  rewrite <- surjective_pairing.
  assert (Hno : snd (ok_or (initial_manager, record_a, true)
                       (add_item reference_env (fst (fst with_item_a))
                                 record_a_again 0 0)) = false)
    by (vm_compute; reflexivity).
  rewrite <- Hno, <- surjective_pairing.
  apply is_ok_eq. vm_compute. reflexivity.
Defined.

(** ** Progress records *)

Lemma py_eqb_text_refl u : py_eqb (PStr u) (PStr u) = true.
Proof. apply pystr_eqb_refl. Qed.

Lemma records_get_update_eq u v d :
  records_get (PStr u) (records_update (PStr u) v d) = Some v.
Proof.
  unfold records_get. induction d as [|[k w] d IH]; cbn [records_update].
  - cbn [List.find fst]. rewrite py_eqb_text_refl. reflexivity.
  - destruct (py_eqb k (PStr u)) eqn:Hk; cbn [List.find fst].
    + rewrite Hk. reflexivity.
    + rewrite Hk. exact IH.
Qed.

Lemma py_eqb_text_eq k u u' :
  py_eqb k (PStr u) = true -> py_eqb k (PStr u') = true -> u = u'.
Proof.
  destruct k; try discriminate. cbn [py_eqb]. unfold pystr_eqb.
  intros H1 H2. apply bool_decide_eq_true in H1, H2. congruence.
Qed.

Lemma records_get_update_other u u' v d :
  u' <> u ->
  records_get (PStr u') (records_update (PStr u) v d) = records_get (PStr u') d.
Proof.
  intros Hne. unfold records_get.
  assert (Hself : py_eqb (PStr u) (PStr u') = false).
  { cbn [py_eqb]. unfold pystr_eqb. apply bool_decide_eq_false. congruence. }
  induction d as [|[k w] d IH]; cbn [records_update].
  - cbn [List.find fst]. rewrite Hself. reflexivity.
  - destruct (py_eqb k (PStr u)) eqn:Hk; cbn [List.find fst].
    + destruct (py_eqb k (PStr u')) eqn:Hk'; [|reflexivity].
      destruct Hne. symmetry. exact (py_eqb_text_eq _ _ _ Hk Hk').
    + destruct (py_eqb k (PStr u')); [reflexivity | exact IH].
Qed.

Lemma records_update_length u v d :
  length (records_update (PStr u) v d) =
  match records_get (PStr u) d with
  | Some _ => length d
  | None => S (length d)
  end.
Proof.
  unfold records_get. induction d as [|[k w] d IH]; cbn [records_update].
  - reflexivity.
  - destruct (py_eqb k (PStr u)) eqn:Hk; cbn [List.find fst length].
    + rewrite Hk. reflexivity.
    + rewrite Hk, IH. destruct (List.find _ d); reflexivity.
Qed.

(** X10: for the three failure reasons and the success that
    [update_progress] has a branch for, the record is marked and filed
    under its identifier: looking the identifier up afterwards gives
    the marked record, every other identifier keeps its entry, the
    dictionary gains a row only when the identifier is new, and the
    table and the document are written from the new dictionary. *)
Theorem update_progress_files_record (p : Progress) (csw_record : metadata)
    (status reason : string) (uri : pystr) :
  recorded_outcome status reason = true ->
  csw_record !! "geonetwork_uri" = Some (PStr uri) ->
  exists p',
    let marked :=
      <["reason" := pstr reason]> (<["in_stac" := pstr status]> csw_record) in
    update_progress p csw_record (ustr status) (ustr reason) = Ok (p', marked) /\
    records_get (PStr uri) (processed_records p') = Some marked /\
    (forall uri', uri' <> uri ->
       records_get (PStr uri') (processed_records p')
       = records_get (PStr uri') (processed_records p)) /\
    length (processed_records p')
      = match records_get (PStr uri) (processed_records p) with
        | Some _ => length (processed_records p)
        | None => S (length (processed_records p))
        end /\
    processed_records_json p' = processed_records p' /\
    processed_records_csv p' = List.map snd (processed_records p').
Proof.
  intros Hout Huri.
  assert (Hmark : mark_record (processed_records p) csw_record status reason
          = Ok (records_update (PStr uri)
                  (<["reason" := pstr reason]>
                     (<["in_stac" := pstr status]> csw_record))
                  (processed_records p),
                <["reason" := pstr reason]>
                  (<["in_stac" := pstr status]> csw_record))).
  { unfold mark_record, md_get.
    rewrite !lookup_insert_ne by discriminate. rewrite Huri. reflexivity. }
  assert (Hrun : update_progress p csw_record (ustr status) (ustr reason)
          = let! (records, csw_record) :=
              mark_record (processed_records p) csw_record status reason in
            Ok (persist_progress records, csw_record)).
  { unfold recorded_outcome in Hout.
    repeat match type of Hout with
           | (_ || _) = true => apply orb_true_iff in Hout as [Hout|Hout]
           | (_ && _) = true => apply andb_true_iff in Hout as [Hs Hout]
           end;
      apply String.eqb_eq in Hs; try apply String.eqb_eq in Hout; subst;
      reflexivity. }
  rewrite Hrun, Hmark. cbn [rbind].
  eexists. split; [reflexivity|].
  cbn [persist_progress processed_records processed_records_json
       processed_records_csv].
  split; [apply records_get_update_eq|].
  split; [intros uri' Hne; apply records_get_update_other, Hne|].
  split; [apply records_update_length|]. split; reflexivity.
Qed.

Lemma update_progress_files_record_witness :
  exists p',
    update_progress progress_with_r1 record_r2 (ustr "failed") (ustr "no_data")
      = Ok (p', <["reason" := pstr "no_data"]>
                  (<["in_stac" := pstr "failed"]> record_r2)) /\
    (md ← records_get (PStr (ustr "r2")) (processed_records p'); md !! "reason")
      = Some (pstr "no_data") /\
    (md ← records_get (PStr (ustr "r1")) (processed_records p');
     md !! "geonetwork_uri") = Some (pstr "r1") /\
    length (processed_records p') = 2%nat.
Proof.
  destruct (update_progress_files_record progress_with_r1 record_r2
              "failed" "no_data" (ustr "r2") eq_refl eq_refl)
    as (p' & Hrun & Hthis & Hother & Hlen & _).
  exists p'. split; [exact Hrun|]. split; [|split].
  - rewrite Hthis. vm_compute. reflexivity.
  - rewrite (Hother (ustr "r1")) by (vm_compute; discriminate).
    vm_compute. reflexivity.
  - rewrite Hlen. vm_compute. reflexivity.
Defined.

(** ** [check_stac_ok] *)

Lemma py_len_truthy v n : py_len v = Ok n -> py_truthy v = negb (Nat.eqb n 0).
Proof.
  destruct v; try discriminate; cbn [py_len py_truthy]; intros H;
    injection H as <-.
  - destruct s; [reflexivity|]. cbn [length Nat.eqb negb].
    unfold pystr_eqb. rewrite bool_decide_eq_false_2 by discriminate. reflexivity.
  - destruct l; reflexivity.
  - destruct d; reflexivity.
Qed.

Lemma update_progress_answer p md status reason r :
  (let! (p, md) := update_progress p md status reason in Ok (p, md, false))
  = Ok r -> snd r = false.
Proof.
  destruct (update_progress p md status reason) as [[p' md']|]; cbn [rbind];
    [|discriminate].
  intros H. injection H as <-. reflexivity.
Qed.

(** A branch of [check_stac_ok] that ends in [reject] does not answer
    [True]. *)
Ltac turned_down H :=
  repeat match type of H with
         | rbind (match ?x with _ => _ end) _ = _ =>
             destruct x; cbn [rbind] in H; [|discriminate H]
         end;
  apply update_progress_answer in H; discriminate H.

Lemma not_a_title_of title ids :
  existsb (py_eqb title) (List.map PStr ids) = false ->
  Forall (fun id => Some title <> Some (PStr id)) ids.
Proof.
  intros H. apply Forall_forall. intros id Hid Heq. injection Heq as ->.
  assert (existsb (py_eqb (PStr id)) (List.map PStr ids) = true); [|congruence].
  apply existsb_exists. exists (PStr id). split.
  - apply in_map, list_elem_of_In, Hid.
  - apply py_eqb_text_refl.
Qed.

(** X11: [check_stac_ok] lets a record through only when it has assets,
    has a data asset or a thumbnail, has a title, and no item of the
    catalog has that title as identifier; it then leaves the progress
    and the record as they were. *)
Theorem check_stac_ok_accepts (p : Progress) (mgr : CSWSTACManager)
    (md : metadata) (p' : Progress) (md' : metadata) :
  check_stac_ok p mgr md = Ok (p', md', true) ->
  p' = p /\ md' = md /\
  has_truthy md "assets" = true /\
  (has_truthy md "data_assets" = true \/
   has_truthy md "thumbnail_assets" = true) /\
  has_truthy md "title" = true /\
  Forall (fun id => md !! "title" <> Some (PStr id))
         (all_item_ids (stac_catalog mgr)).
Proof.
  unfold check_stac_ok, md_get. intros H.
  destruct (md !! "assets") as [assets|] eqn:Ha; cbn [rbind] in H;
    [|discriminate H].
  destruct (py_len assets) as [n|] eqn:Hn; cbn [rbind] in H; [|discriminate H].
  assert (Hassets : has_truthy md "assets" = negb (Nat.eqb n 0)).
  { unfold has_truthy. rewrite Ha. exact (py_len_truthy _ _ Hn). }
  destruct (Nat.eqb n 0); [turned_down H|].
  destruct (md !! "data_assets") as [data|] eqn:Hd; cbn [rbind] in H;
    [|discriminate H].
  destruct (py_len data) as [nd|] eqn:Hnd; cbn [rbind] in H; [|discriminate H].
  assert (Hdata : has_truthy md "data_assets" = negb (Nat.eqb nd 0)).
  { unfold has_truthy. rewrite Hd. exact (py_len_truthy _ _ Hnd). }
  assert (Hone : (has_truthy md "data_assets" = true \/
                  has_truthy md "thumbnail_assets" = true) /\
                 (if negb (has_truthy md "title")
                  then Raise KeyError
                  else if existsb (py_eqb (default PNone (md !! "title")))
                            (List.map PStr (all_item_ids (stac_catalog mgr)))
                       then Raise KeyError
                       else Ok (p, md, true)) = Ok (p', md', true)).
  { unfold all_item_ids. rewrite map_map.
    destruct (Nat.eqb nd 0).
    - destruct (md !! "thumbnail_assets") as [thumb|] eqn:Hth; cbn [rbind] in H;
        [|discriminate H].
      destruct (py_len thumb) as [nt|] eqn:Hnt; cbn [rbind] in H;
        [|discriminate H].
      assert (Hthumb : has_truthy md "thumbnail_assets" = negb (Nat.eqb nt 0)).
      { unfold has_truthy. rewrite Hth. exact (py_len_truthy _ _ Hnt). }
      destruct (Nat.eqb nt 0); cbn [andb] in H; [turned_down H|].
      split; [right; exact Hthumb|].
      destruct (negb (has_truthy md "title")); [turned_down H|].
      destruct (existsb _ _); [turned_down H | exact H].
    - cbn [rbind andb] in H. split; [left; exact Hdata|].
      destruct (negb (has_truthy md "title")); [turned_down H|].
      destruct (existsb _ _); [turned_down H | exact H]. }
  destruct Hone as [Hone Htail].
  destruct (has_truthy md "title") eqn:Htitle; cbn [negb] in Htail;
    [|discriminate Htail].
  match type of Htail with
  | (if ?b then _ else _) = _ => destruct b eqn:Hids; [discriminate Htail|]
  end.
  injection Htail as <- <-.
  split; [reflexivity|]. split; [reflexivity|]. split; [exact Hassets|].
  split; [exact Hone|]. split; [reflexivity|].
  unfold has_truthy in Htitle.
  destruct (md !! "title") as [title|]; [|discriminate Htitle].
  exact (not_a_title_of _ _ Hids).
Qed.

Lemma check_stac_ok_accepts_witness :
  fst (fst (ok_or (empty_progress, record_same_title, false)
              (check_stac_ok empty_progress initial_manager record_same_title)))
    = empty_progress /\
  (has_truthy record_same_title "data_assets" = true \/
   has_truthy record_same_title "thumbnail_assets" = true).
Proof.
  destruct (check_stac_ok_accepts empty_progress initial_manager
              record_same_title
              (fst (fst (ok_or (empty_progress, record_same_title, false)
                 (check_stac_ok empty_progress initial_manager record_same_title))))
              (snd (fst (ok_or (empty_progress, record_same_title, false)
                 (check_stac_ok empty_progress initial_manager record_same_title)))))
    as (Hp & _ & _ & [Hdata|Hthumb] & _).
  - apply returned_metadata_ok. vm_compute. reflexivity.
  - split; [exact Hp | left; exact Hdata].
  - split; [exact Hp | right; exact Hthumb].
Defined.

Lemma id_in_of_in {A} (ident : A -> pystr) x l :
  In x (List.map ident l) -> id_in ident x l = true.
Proof.
  intros H. apply in_map_iff in H as (a & Ha & Hin).
  unfold id_in. apply existsb_exists. exists a. split; [exact Hin|].
  rewrite Ha. apply pystr_eqb_refl.
Qed.

Lemma not_in_existsb title ids :
  ~ In title ids ->
  existsb (py_eqb (PStr title)) (List.map PStr ids) = false.
Proof.
  intros Hn. destruct (existsb _ _) eqn:H; [|reflexivity].
  apply existsb_exists in H as (v & Hv & Heq).
  apply in_map_iff in Hv as (id & <- & Hid).
  cbn [py_eqb] in Heq. unfold pystr_eqb in Heq.
  apply bool_decide_eq_true in Heq. subst id. contradiction.
Qed.

(** X12: [check_stac_ok] compares the title as it is with the
    identifiers of the items, which are slugs.  So a record whose title
    is not itself an identifier, but whose slug is one in the
    collection, passes [check_stac_ok] untouched and is then turned down
    by [add_item], which leaves the catalog and the record as they
    were. *)
Theorem check_stac_ok_misses_slug (E : Env) (p : Progress)
    (mgr : CSWSTACManager) (md : metadata) (fam coll : nat) (c : Collection)
    (title : pystr) (asset data : pyval) (assets datas : list pyval) :
  get_collection (stac_catalog mgr) fam coll = Some c ->
  md !! "title" = Some (PStr title) ->
  title <> [] ->
  In (custom_slugify title) (item_ids c) ->
  ~ In title (all_item_ids (stac_catalog mgr)) ->
  md !! "assets" = Some (PList (asset :: assets)) ->
  md !! "data_assets" = Some (PList (data :: datas)) ->
  check_stac_ok p mgr md = Ok (p, md, true) /\
  add_item E mgr md fam coll = Ok (mgr, md, false).
Proof.
  intros Hc Ht Hne Hslug Hnot Ha Hd. split.
  - unfold check_stac_ok, md_get, has_truthy. rewrite Ha, Hd, Ht.
    cbn [rbind py_len length Nat.eqb andb from_option id py_truthy].
    destruct title as [|ch title]; [contradiction|].
    unfold pystr_eqb at 1. rewrite bool_decide_eq_false_2 by discriminate.
    cbn [negb].
    replace (List.map (fun it => PStr (item_id it)) (get_all_items (stac_catalog mgr)))
      with (List.map PStr (all_item_ids (stac_catalog mgr)))
      by (unfold all_item_ids; apply map_map).
    rewrite (not_in_existsb _ _ Hnot). reflexivity.
  - apply (add_item_duplicate E mgr md fam coll c title Hc Ht Hne).
    apply id_in_of_in, Hslug.
Qed.

Lemma check_stac_ok_misses_slug_witness :
  check_stac_ok empty_progress (fst (fst with_item_a)) record_same_title
    = Ok (empty_progress, record_same_title, true) /\
  add_item reference_env (fst (fst with_item_a)) record_same_title 0 0
    = Ok (fst (fst with_item_a), record_same_title, false).
Proof.
  eapply (check_stac_ok_misses_slug reference_env empty_progress
            (fst (fst with_item_a)) record_same_title 0 0 _
            (ustr "Survey A")).
  - vm_compute. reflexivity.
  - vm_compute. reflexivity.
  - discriminate.
  - vm_compute. left. reflexivity.
  - vm_compute. intros [H|[]]. discriminate H.
  - vm_compute. reflexivity.
  - vm_compute. reflexivity.
Defined.

(** ** Coordinates in range *)

Lemma validate_and_convert_in_range coord lo hi name v :
  validate_and_convert coord lo hi name = Ok v ->
  coordinate_ok lo hi v = true /\
  (is_nan v = true -> py_float coord = Ok FNan).
Proof.
  unfold validate_and_convert.
  assert (Hbound : forall b : bool,
             coordinate_ok lo hi (PInt (if b then lo else hi)) = true).
  { intros [|]; cbn [coordinate_ok]; rewrite Z.eqb_refl;
      [reflexivity | apply orb_true_r]. }
  destruct (py_float coord) as [f|e] eqn:Hf.
  - destruct (float_ltb f (FFin (inject_Z lo))) eqn:Hlo; cbn [orb].
    { intros H. injection H as <-. split; [apply (Hbound true) | discriminate]. }
    destruct (float_ltb (FFin (inject_Z hi)) f) eqn:Hhi.
    { intros H. injection H as <-. split; [apply (Hbound false) | discriminate]. }
    intros H. injection H as <-. split.
    + destruct f as [|[|]|q]; try discriminate; cbn [coordinate_ok]; [reflexivity|].
      cbn [float_ltb] in Hlo, Hhi.
      apply negb_false_iff in Hlo, Hhi. rewrite Hlo, Hhi. reflexivity.
    + destruct f; try discriminate. reflexivity.
  - destruct e; try discriminate;
      intros H; injection H as <-; (split; [apply Hbound | discriminate]).
Qed.

Lemma any_m_false {A} (f : A -> result bool) l :
  any_m f l = Ok false -> Forall (fun x => f x = Ok false) l.
Proof.
  induction l as [|x l IH]; cbn [any_m]; [constructor|].
  destruct (f x) as [[|]|] eqn:Hx; cbn [rbind]; try discriminate.
  intros H. constructor; [exact Hx | exact (IH H)].
Qed.

(** A value that is no text and passed the test under [any] is not read
    as the float that is not a number. *)
Lemma py_float_not_nan E c :
  is_text c = false -> is_nan_like E c = Ok false -> py_float c <> Ok FNan.
Proof.
  intros Htext Hnan. destruct c as [|[|]| |[| |]| | | |]; try discriminate.
  cbn [py_float]. destruct (round_double _); discriminate.
Qed.

(** X13: whatever the record holds, a box that [finalize_boundaries]
    answers with has four coordinates, and each of them is within the
    bounds of its position: a longitude between -180 and 180, a latitude
    between -90 and 90, or the float that is not a number.  When no
    coordinate of the box of the record is a text, no coordinate of the
    answer is the float that is not a number. *)
Theorem finalize_boundaries_in_range (E : Env) (md : metadata)
    (box : list pyval) :
  finalize_boundaries E md = Ok box ->
  exists lon_min lat_min lon_max lat_max,
    box = [lon_min; lat_min; lon_max; lat_max] /\
    coordinate_ok (-180) 180 lon_min = true /\
    coordinate_ok (-90) 90 lat_min = true /\
    coordinate_ok (-180) 180 lon_max = true /\
    coordinate_ok (-90) 90 lat_max = true /\
    (forall coords, chosen_bbox md = Some (PList coords) ->
                    Forall (fun c => is_text c = false) coords ->
                    Forall (fun v => is_nan v = false) box).
Proof.
  assert (Hworld : exists lon_min lat_min lon_max lat_max,
             world_bbox = [lon_min; lat_min; lon_max; lat_max] /\
             coordinate_ok (-180) 180 lon_min = true /\
             coordinate_ok (-90) 90 lat_min = true /\
             coordinate_ok (-180) 180 lon_max = true /\
             coordinate_ok (-90) 90 lat_max = true /\
             Forall (fun v => is_nan v = false) world_bbox).
  { eexists _, _, _, _. split; [reflexivity|]. repeat split; repeat constructor. }
  assert (Hbox : forall bbox,
             finalize_bbox E bbox = Ok box ->
             exists lon_min lat_min lon_max lat_max,
               box = [lon_min; lat_min; lon_max; lat_max] /\
               coordinate_ok (-180) 180 lon_min = true /\
               coordinate_ok (-90) 90 lat_min = true /\
               coordinate_ok (-180) 180 lon_max = true /\
               coordinate_ok (-90) 90 lat_max = true /\
               (forall coords, bbox = PList coords ->
                               Forall (fun c => is_text c = false) coords ->
                               Forall (fun v => is_nan v = false) box)).
  { intros bbox. unfold finalize_bbox.
    destruct (py_iter bbox) as [coords|] eqn:Hiter; cbn [rbind]; [|discriminate].
    destruct (any_m _ coords) as [[|]|] eqn:Hany; cbn [rbind]; [| |discriminate].
    { intros H. injection H as <-.
      destruct Hworld as (a & b & c & d & Hw & Ha & Hb & Hc & Hd & Hn).
      exists a, b, c, d. repeat split; auto. }
    apply any_m_false in Hany.
    destruct (py_index bbox 0) as [c0|] eqn:H0; cbn [rbind]; [|discriminate].
    destruct (validate_and_convert c0 _ _ _) as [a|] eqn:Ha; cbn [rbind];
      [|discriminate].
    destruct (py_index bbox 1) as [c1|] eqn:H1; cbn [rbind]; [|discriminate].
    destruct (validate_and_convert c1 _ _ _) as [b|] eqn:Hb; cbn [rbind];
      [|discriminate].
    destruct (py_index bbox 2) as [c2|] eqn:H2; cbn [rbind]; [|discriminate].
    destruct (validate_and_convert c2 _ _ _) as [c|] eqn:Hc; cbn [rbind];
      [|discriminate].
    destruct (py_index bbox 3) as [c3|] eqn:H3; cbn [rbind]; [|discriminate].
    destruct (validate_and_convert c3 _ _ _) as [d|] eqn:Hd; cbn [rbind];
      [|discriminate].
    intros H. injection H as <-.
    apply validate_and_convert_in_range in Ha as [Ha Ha'].
    apply validate_and_convert_in_range in Hb as [Hb Hb'].
    apply validate_and_convert_in_range in Hc as [Hc Hc'].
    apply validate_and_convert_in_range in Hd as [Hd Hd'].
    exists a, b, c, d. split; [reflexivity|]. repeat split; auto.
    intros coords' -> Htext. cbn [py_iter] in Hiter. injection Hiter as ->.
    cbn [py_index] in H0, H1, H2, H3.
    rewrite Forall_forall in Htext, Hany.
    assert (Hnth : forall i x v,
               nth_error coords i = Some x ->
               (is_nan v = true -> py_float x = Ok FNan) -> is_nan v = false).
    { intros i x v Hx Hv. destruct (is_nan v) eqn:Hn; [|reflexivity].
      exfalso. apply nth_error_In, list_elem_of_In in Hx.
      exact (py_float_not_nan E x (Htext x Hx) (Hany x Hx) (Hv eq_refl)). }
    destruct (nth_error coords 0) eqn:E0; [|discriminate H0].
    destruct (nth_error coords 1) eqn:E1; [|discriminate H1].
    destruct (nth_error coords 2) eqn:E2; [|discriminate H2].
    destruct (nth_error coords 3) eqn:E3; [|discriminate H3].
    injection H0 as ->. injection H1 as ->. injection H2 as ->. injection H3 as ->.
    repeat constructor; eauto. }
  unfold finalize_boundaries, chosen_bbox.
  destruct (has_truthy md "bbox") eqn:Hb.
  - intros H. destruct (Hbox _ H) as (a & b & c & d & -> & Ha & Hb' & Hc & Hd & Hn).
    exists a, b, c, d. repeat split; auto.
    intros coords Hcoords. apply Hn. rewrite Hcoords. reflexivity.
  - destruct (has_truthy md "geographic_extent") eqn:Hg.
    + intros H. destruct (Hbox _ H) as (a & b & c & d & -> & Ha & Hb' & Hc & Hd & Hn).
      exists a, b, c, d. repeat split; auto.
      intros coords Hcoords. apply Hn. rewrite Hcoords. reflexivity.
    + intros H. injection H as <-.
      destruct Hworld as (a & b & c & d & Hw & Ha & Hb' & Hc & Hd & Hn).
      exists a, b, c, d. repeat split; auto; discriminate.
Qed.

Lemma finalize_boundaries_in_range_witness :
  finalize_boundaries reference_env bbox_out_of_range
    = Ok [PInt (-180); PInt (-90); PInt 180; PInt 90] /\
  coordinate_ok (-90) 90 (PInt 90) = true.
Proof.
  assert (H : finalize_boundaries reference_env bbox_out_of_range
              = Ok [PInt (-180); PInt (-90); PInt 180; PInt 90])
    by (vm_compute; reflexivity).
  split; [exact H|].
  destruct (finalize_boundaries_in_range reference_env bbox_out_of_range _ H)
    as (a & b & c & d & Hbox & _ & _ & _ & Hd & _).
  injection Hbox as <- <- <- <-. exact Hd.
Defined.

(** ** Normalised dates *)

Lemma zero_padded_length w : forall z, length (zero_padded w z) = w.
Proof.
  induction w as [|w IH]; intros z; cbn [zero_padded]; [reflexivity|].
  rewrite length_app, IH. cbn [length]. lia.
Qed.

Lemma endswith_app p s : endswith p (s ++ p) = true.
Proof. unfold endswith. rewrite rev_app_distr. apply startswith_app. Qed.

Lemma iso8601_z_shape d :
  endswith (ustr "Z") (iso8601_z d) = true /\
  length (iso8601_z d) = if (microsecond d =? 0)%Z then 20%nat else 27%nat.
Proof.
  unfold iso8601_z. split.
  - rewrite !app_assoc. apply endswith_app.
  - rewrite !length_app, !zero_padded_length.
    destruct (microsecond d =? 0); rewrite ?length_app, ?zero_padded_length;
      reflexivity.
Qed.

(** What [format_datetime_to_iso8601] answers with when it answers with
    a text. *)
Lemma format_datetime_to_iso8601_text E s r :
  format_datetime_to_iso8601 E s = Ok (Some r) ->
  exists dt, r = iso8601_z dt /\ tzoffset dt = Some 0.
Proof.
  unfold format_datetime_to_iso8601.
  destruct (dateutil_parse E _) as [dt|e]; cbn [rbind].
  - unfold to_iso8601_utc.
    destruct (tzoffset dt) as [off|] eqn:Htz.
    + destruct (aware_to_utc dt off) as [utc|e] eqn:Hutc; cbn [rbind].
      * cbn [none_on_value_error]. intros H. injection H as <-.
        pose proof (aware_to_utc_offset _ _ _ Hutc) as Hz.
        exists utc. split; [apply isoformat_utc_z, Hz | exact Hz].
      * destruct e; discriminate.
    + cbn [rbind none_on_value_error]. intros H. injection H as <-.
      exists (replace_tz_utc dt). split; [apply isoformat_utc_z|]; reflexivity.
  - destruct e; discriminate.
Qed.

(** X14: every text [format_datetime_to_iso8601] answers with is the
    normal form of a datetime in UTC: it ends in [Z] and has 20
    characters, or 27 when there are microseconds. *)
Theorem format_datetime_to_iso8601_canonical (E : Env) (s r : pystr) :
  format_datetime_to_iso8601 E s = Ok (Some r) ->
  (exists dt, r = iso8601_z dt /\ tzoffset dt = Some 0) /\
  endswith (ustr "Z") r = true /\
  (length r = 20 \/ length r = 27)%nat.
Proof.
  intros H. destruct (format_datetime_to_iso8601_text E s r H) as (dt & -> & Htz).
  destruct (iso8601_z_shape dt) as [Hz Hlen].
  split; [exists dt; auto|]. split; [exact Hz|].
  rewrite Hlen. destruct (microsecond dt =? 0); auto.
Qed.

Lemma format_datetime_to_iso8601_canonical_witness :
  endswith (ustr "Z") (ustr "2020-05-01T08:00:00Z") = true /\
  (length (ustr "2020-05-01T08:00:00Z") = 20 \/
   length (ustr "2020-05-01T08:00:00Z") = 27)%nat.
Proof.
  apply (format_datetime_to_iso8601_canonical reference_env
           (ustr "2020-05-01T10:00:00+02:00")).
  vm_compute. reflexivity.
Defined.

(** ** [format_start_end_datetimes_to_iso8601] *)

Lemma format_datetime_to_iso8601_value_normalised E v r :
  format_datetime_to_iso8601_value E v = Ok r ->
  is_text v = true /\ normalised_date (Some r) = true.
Proof.
  destruct v; try discriminate. cbn [format_datetime_to_iso8601_value].
  destruct (format_datetime_to_iso8601 E s) as [[t|]|] eqn:Hs; cbn [rbind];
    try discriminate; intros H; injection H as <-; (split; [reflexivity|]).
  - cbn [normalised_date].
    destruct (format_datetime_to_iso8601_text E s t Hs) as (dt & -> & _).
    apply iso8601_z_shape.
  - reflexivity.
Qed.

(** X15: [format_start_end_datetimes_to_iso8601] reads both dates with
    [get]: a date that is missing, [None] or anything but a text raises
    [TypeError].  When it returns, both dates are [None] or a text that
    ends in [Z], and no other key has changed. *)
Theorem format_start_end_datetimes_to_iso8601_dates (E : Env) (md : metadata) :
  (is_text (md_get_or_none md "start_datetime") = false ->
   format_start_end_datetimes_to_iso8601 E md = Raise TypeError) /\
  (forall md', format_start_end_datetimes_to_iso8601 E md = Ok md' ->
     is_text (md_get_or_none md "start_datetime") = true /\
     is_text (md_get_or_none md "end_datetime") = true /\
     normalised_date (md' !! "start_datetime") = true /\
     normalised_date (md' !! "end_datetime") = true /\
     (forall k : string, window_key k = false -> md' !! k = md !! k)).
Proof.
  unfold format_start_end_datetimes_to_iso8601. split.
  - intros Htext. destruct (md_get_or_none md "start_datetime");
      try reflexivity. discriminate Htext.
  - intros md'.
    destruct (format_datetime_to_iso8601_value E (md_get_or_none md "start_datetime"))
      as [s|] eqn:Hs; cbn [rbind]; [|discriminate].
    assert (Hend : md_get_or_none (<["start_datetime" := s]> md) "end_datetime"
                   = md_get_or_none md "end_datetime").
    { unfold md_get_or_none. rewrite lookup_insert_ne by discriminate. reflexivity. }
    rewrite Hend.
    destruct (format_datetime_to_iso8601_value E (md_get_or_none md "end_datetime"))
      as [e|] eqn:He; cbn [rbind]; [|discriminate].
    intros H. injection H as <-.
    apply format_datetime_to_iso8601_value_normalised in Hs as [Hs Hs'].
    apply format_datetime_to_iso8601_value_normalised in He as [He He'].
    split; [exact Hs|]. split; [exact He|].
    rewrite lookup_insert_ne, !lookup_insert_eq by discriminate.
    split; [exact Hs'|]. split; [exact He'|].
    intros k Hk. rewrite !insert_window_frame by (reflexivity || exact Hk).
    reflexivity.
Qed.

Lemma format_start_end_datetimes_to_iso8601_dates_witness :
  format_start_end_datetimes_to_iso8601 reference_env
      (<["end_datetime" := pstr "2021"]> ∅)
    = Raise TypeError.
Proof.
  apply (proj1 (format_start_end_datetimes_to_iso8601_dates reference_env
                  (<["end_datetime" := pstr "2021"]> ∅))).
  reflexivity.
Defined.

(** ** The asset lists of a record *)

Lemma lists_grown_refl md : lists_grown md md [] [] [].
Proof.
  unfold lists_grown. repeat split; intros; rewrite ?app_nil_r; auto.
Qed.

Lemma lists_grown_trans md1 md2 md3 a1 d1 t1 a2 d2 t2 :
  lists_grown md1 md2 a1 d1 t1 -> lists_grown md2 md3 a2 d2 t2 ->
  lists_grown md1 md3 (a1 ++ a2) (d1 ++ d2) (t1 ++ t2).
Proof.
  intros (Ha & Hd & Ht & Hf) (Ha' & Hd' & Ht' & Hf').
  unfold lists_grown. repeat split.
  - intros l Hl. rewrite app_assoc. apply Ha', Ha, Hl.
  - intros l Hl. rewrite app_assoc. apply Hd', Hd, Hl.
  - intros l Hl. rewrite app_assoc. apply Ht', Ht, Hl.
  - intros k Hk. rewrite (Hf' k Hk). apply Hf, Hk.
Qed.

Lemma listed_insert_eq (md : metadata) (key : string) l :
  listed (<[key := PList l]> md) key = Some l.
Proof. unfold listed. rewrite lookup_insert_eq. reflexivity. Qed.

Lemma listed_insert_ne (md : metadata) (key k : string) v :
  k <> key -> listed (<[key := v]> md) k = listed md k.
Proof. intros H. unfold listed. rewrite lookup_insert_ne by congruence. reflexivity. Qed.

Lemma md_append_ok md key x md' :
  md_append md key x = Ok md' ->
  exists l, listed md key = Some l /\ md' = <[key := PList (l ++ [x])]> md.
Proof.
  unfold md_append, listed.
  destruct (md !! key) as [[| | | | |l| |]|]; try discriminate.
  intros H. injection H as <-. eauto.
Qed.

(** An append to the assets alone. *)
Lemma append_assets_grown md x md' :
  md_append md "assets" x = Ok md' -> lists_grown md md' [x] [] [].
Proof.
  intros H. apply md_append_ok in H as (l & Hl & ->).
  unfold lists_grown. repeat split.
  - intros l' Hl'. rewrite Hl in Hl'. injection Hl' as <-. apply listed_insert_eq.
  - intros l' Hl'. rewrite listed_insert_ne, app_nil_r by discriminate. exact Hl'.
  - intros l' Hl'. rewrite listed_insert_ne, app_nil_r by discriminate. exact Hl'.
  - intros k Hk. apply lookup_insert_ne. intros <-. discriminate Hk.
Qed.

Lemma append_data_grown md x md' :
  md_append md "data_assets" x = Ok md' -> lists_grown md md' [] [x] [].
Proof.
  intros H. apply md_append_ok in H as (l & Hl & ->).
  unfold lists_grown. repeat split.
  - intros l' Hl'. rewrite listed_insert_ne, app_nil_r by discriminate. exact Hl'.
  - intros l' Hl'. rewrite Hl in Hl'. injection Hl' as <-. apply listed_insert_eq.
  - intros l' Hl'. rewrite listed_insert_ne, app_nil_r by discriminate. exact Hl'.
  - intros k Hk. apply lookup_insert_ne. intros <-. discriminate Hk.
Qed.

Lemma append_thumbnail_grown md x md' :
  md_append md "thumbnail_assets" x = Ok md' -> lists_grown md md' [] [] [x].
Proof.
  intros H. apply md_append_ok in H as (l & Hl & ->).
  unfold lists_grown. repeat split.
  - intros l' Hl'. rewrite listed_insert_ne, app_nil_r by discriminate. exact Hl'.
  - intros l' Hl'. rewrite listed_insert_ne, app_nil_r by discriminate. exact Hl'.
  - intros l' Hl'. rewrite Hl in Hl'. injection Hl' as <-. apply listed_insert_eq.
  - intros k Hk. apply lookup_insert_ne. intros <-. discriminate Hk.
Qed.

(** Writing one of the keys [wms_asset], [wfs_asset], [dwca_asset]. *)
Lemma set_asset_key_grown (md : metadata) (key : string) v :
  asset_key key = true ->
  key <> "assets"%string -> key <> "data_assets"%string ->
  key <> "thumbnail_assets"%string ->
  lists_grown md (<[key := v]> md) [] [] [].
Proof.
  intros Hkey Ha Hd Ht. unfold lists_grown. repeat split.
  - intros l Hl. rewrite listed_insert_ne, app_nil_r by congruence. exact Hl.
  - intros l Hl. rewrite listed_insert_ne, app_nil_r by congruence. exact Hl.
  - intros l Hl. rewrite listed_insert_ne, app_nil_r by congruence. exact Hl.
  - intros k Hk. apply lookup_insert_ne. intros <-. congruence.
Qed.

(** The three steps of a data asset. *)
Lemma add_data_grown md found (key : option string) md' :
  (let! m := md_append md "assets" (PStr found) in
   md_append match key with
             | Some key => <[key := PStr found]> m
             | None => m
             end "data_assets" (PStr found)) = Ok md' ->
  key = None \/ key = Some "wfs_asset"%string \/ key = Some "dwca_asset"%string ->
  lists_grown md md' [PStr found] [PStr found] [].
Proof.
  intros H Hkey.
  destruct (md_append md "assets" (PStr found)) as [m|] eqn:Hm; cbn [rbind] in H;
    [|discriminate H].
  apply append_assets_grown in Hm. apply append_data_grown in H.
  assert (Hset : lists_grown m match key with
                                | Some key => <[key := PStr found]> m
                                | None => m
                                end [] [] []).
  { destruct Hkey as [->|[->| ->]];
      [apply lists_grown_refl | |];
      apply set_asset_key_grown; (reflexivity || discriminate). }
  exact (lists_grown_trans _ _ _ _ _ _ _ _ _
           (lists_grown_trans _ _ _ _ _ _ _ _ _ Hm Hset) H).
Qed.

Lemma sort_asset_grown W E md link_item url ty mt role md' :
  sort_asset W E md link_item url ty mt role = Ok md' ->
  exists added data thumbnails,
    lists_grown md md' added data thumbnails /\
    (added = [] \/ exists found, added = [PStr found]) /\
    (data = [] \/ data = added) /\ (thumbnails = [] \/ thumbnails = added).
Proof.
  unfold sort_asset. intros H.
  destruct (md_get md "geonetwork_uri") as [record_id|]; cbn [rbind] in H;
    [|discriminate H].
  assert (Hsame : forall r : result pyval,
             (let! _ := r in Ok md) = Ok md' ->
             exists added data thumbnails,
               lists_grown md md' added data thumbnails /\
               (added = [] \/ exists found, added = [PStr found]) /\
               (data = [] \/ data = added) /\
               (thumbnails = [] \/ thumbnails = added)).
  { intros [v|e] Hr; cbn [rbind] in Hr; [|discriminate Hr].
    injection Hr as <-. exists [], [], []. split; [apply lists_grown_refl|]. repeat split; auto. }
  assert (Hdata : forall found key,
             (let! m := md_append md "assets" (PStr found) in
              md_append match key with
                        | Some key => <[key := PStr found]> m
                        | None => m
                        end "data_assets" (PStr found)) = Ok md' ->
             key = None \/ key = Some "wfs_asset"%string \/
             key = Some "dwca_asset"%string ->
             exists added data thumbnails,
               lists_grown md md' added data thumbnails /\
               (added = [] \/ exists found, added = [PStr found]) /\
               (data = [] \/ data = added) /\
               (thumbnails = [] \/ thumbnails = added)).
  { intros found key Hrun Hkey. exists [PStr found], [PStr found], [].
    split; [exact (add_data_grown _ _ _ _ Hrun Hkey)|]. repeat split; eauto. }
  assert (Hnone : Ok md = Ok md' ->
             exists added data thumbnails,
               lists_grown md md' added data thumbnails /\
               (added = [] \/ exists found, added = [PStr found]) /\
               (data = [] \/ data = added) /\
               (thumbnails = [] \/ thumbnails = added)).
  { intros Hr. injection Hr as <-. exists [], [], [].
    split; [apply lists_grown_refl|]. repeat split; auto. }
  destruct (pystr_eqb ty (ustr "wms")).
  { destruct (test_wms W link_item url) as [wms_url|]; cbn [rbind] in H;
      [|discriminate H].
    destruct (text_truthy wms_url); [|exact (Hsame _ H)].
    destruct (md_append md "assets" _) as [m|] eqn:Hm; cbn [rbind] in H;
      [|discriminate H].
    injection H as <-. eexists [_], [], []. split.
    - apply append_assets_grown in Hm.
      pose proof (set_asset_key_grown m "wms_asset" (PStr (default [] wms_url))
                    eq_refl ltac:(discriminate) ltac:(discriminate)
                    ltac:(discriminate)) as Hset.
      exact (lists_grown_trans _ _ _ _ _ _ _ _ _ Hm Hset).
    - repeat split; eauto. }
  destruct (pystr_eqb ty (ustr "wfs")).
  { apply (Hdata url (Some "wfs_asset"%string) H). auto. }
  destruct (pystr_eqb ty (ustr "iptresource")).
  { destruct (convert_ipt_to_dwca E url) as [dwca_url|]; cbn [rbind] in H;
      [|discriminate H].
    destruct (text_truthy dwca_url); [|exact (Hsame _ H)].
    apply (Hdata (default [] dwca_url) (Some "dwca_asset"%string) H). auto. }
  destruct (pystr_eqb ty (ustr "eurobistoolbox")).
  { destruct (text_truthy _); [|exact (Hsame _ H)].
    apply (Hdata (default [] (convert_eurobis_toolbox_to_wfs W url))
                 (Some "wfs_asset"%string) H). auto. }
  destruct (pystr_eqb ty (ustr "opendap")).
  { destruct (text_truthy _); [|exact (Hnone H)].
    apply (Hdata (default [] (test_opendap W url)) None H). auto. }
  destruct (pystr_eqb ty (ustr "mdazip")).
  { destruct (text_truthy _); [|exact (Hnone H)].
    apply (Hdata (default [] (test_mda E url)) None H). auto. }
  destruct (bool_decide (role = [ustr "data"])).
  { destruct (option_bool_truthy _); [|exact (Hnone H)].
    apply (Hdata url None H). auto. }
  destruct (bool_decide (role = [ustr "thumbnail"])).
  { destruct (option_bool_truthy _); [|exact (Hnone H)].
    destruct (md_append md "assets" _) as [m|] eqn:Hm; cbn [rbind] in H;
      [|discriminate H].
    apply append_assets_grown in Hm. apply append_thumbnail_grown in H.
    exists [PStr url], [], [PStr url].
    split; [exact (lists_grown_trans _ _ _ _ _ _ _ _ _ Hm H)|].
    repeat split; eauto. }
  destruct (option_bool_truthy _); [|exact (Hnone H)].
  exists [PStr url], [], []. split; [exact (append_assets_grown _ _ _ H)|].
  repeat split; eauto.
Qed.

Lemma find_assets_loop_grown W E links : forall md md',
  find_assets_loop W E md links = Ok md' ->
  exists added data thumbnails,
    lists_grown md md' added data thumbnails /\
    Forall (fun v => is_text v = true) added /\
    incl data added /\ incl thumbnails added /\
    (length added <= length links)%nat.
Proof.
  induction links as [|link_item links IH]; intros md md' H.
  - injection H as <-. exists [], [], [].
    split; [apply lists_grown_refl|]. split; [constructor|].
    split; [apply incl_refl|]. split; [apply incl_refl | reflexivity].
  - cbn [find_assets_loop] in H.
    assert (Hskip : find_assets_loop W E md links = Ok md' ->
               exists added data thumbnails,
                 lists_grown md md' added data thumbnails /\
                 Forall (fun v => is_text v = true) added /\
                 incl data added /\ incl thumbnails added /\
                 (length added <= length (link_item :: links))%nat).
    { intros Hr. destruct (IH _ _ Hr) as (a & d & t & Hg & Ht & Hd & Hth & Hlen).
      exists a, d, t. do 4 (split; [assumption|]). cbn [length]. lia. }
    destruct (link_url link_item) as [[| | | |url| | |]|]; try discriminate H;
      try exact (Hskip H).
    destruct (get_media_type url) as [m|]; [|exact (Hskip H)].
    destruct (_ || _); [exact (Hskip H)|].
    destruct (sort_asset W E md link_item url _ _ _) as [md1|] eqn:Hsort;
      cbn [rbind] in H; [|discriminate H].
    destruct (sort_asset_grown _ _ _ _ _ _ _ _ _ Hsort)
      as (a1 & d1 & t1 & Hg1 & Ha1 & Hd1 & Ht1).
    destruct (IH _ _ H) as (a2 & d2 & t2 & Hg2 & Htext & Hd2 & Ht2 & Hlen).
    exists (a1 ++ a2), (d1 ++ d2), (t1 ++ t2).
    split; [exact (lists_grown_trans _ _ _ _ _ _ _ _ _ Hg1 Hg2)|].
    split.
    { apply Forall_app. split; [|exact Htext].
      destruct Ha1 as [->|[found ->]]; repeat constructor. }
    split.
    { apply incl_app; [|apply incl_appr, Hd2].
      destruct Hd1 as [->| ->]; [intros x [] | apply incl_appl, incl_refl]. }
    split.
    { apply incl_app; [|apply incl_appr, Ht2].
      destruct Ht1 as [->| ->]; [intros x [] | apply incl_appl, incl_refl]. }
    rewrite length_app. cbn [length].
    destruct Ha1 as [->|[found ->]]; cbn [length]; lia.
Qed.

(** X16: [find_assets] only appends to the three asset lists of a
    record.  What it appends to the data assets and to the thumbnails
    it also appends to the assets, every asset it appends is a text, it
    appends at most one asset per link, and no key of the record beside
    the asset keys changes.  So when the data assets and the thumbnails
    of a record are among its assets before, they are afterwards. *)
Theorem find_assets_grows_lists (W : Probes) (E : Env) (md md' : metadata)
    (assets data thumbnails links : list pyval) :
  find_assets W E md = Ok md' ->
  listed md "assets" = Some assets ->
  listed md "data_assets" = Some data ->
  listed md "thumbnail_assets" = Some thumbnails ->
  listed md "links" = Some links ->
  exists added data' thumbnails',
    listed md' "assets" = Some (assets ++ added) /\
    listed md' "data_assets" = Some (data ++ data') /\
    listed md' "thumbnail_assets" = Some (thumbnails ++ thumbnails') /\
    Forall (fun v => is_text v = true) added /\
    incl data' added /\ incl thumbnails' added /\
    (length added <= length links)%nat /\
    (forall k : string, asset_key k = false -> md' !! k = md !! k) /\
    (incl data assets -> incl thumbnails assets ->
     incl (data ++ data') (assets ++ added) /\
     incl (thumbnails ++ thumbnails') (assets ++ added)).
Proof.
  unfold find_assets. intros H Ha Hd Ht Hl.
  unfold listed in Hl.
  destruct (md !! "links") as [[| | | | |l| |]|]; try discriminate Hl.
  injection Hl as ->. cbn [py_iter rbind] in H.
  destruct (find_assets_loop_grown _ _ _ _ _ H)
    as (added & data' & thumbnails' & (Ga & Gd & Gt & Gf) & Htext & Hid & Hit & Hlen).
  exists added, data', thumbnails'.
  split; [exact (Ga _ Ha)|]. split; [exact (Gd _ Hd)|].
  split; [exact (Gt _ Ht)|]. split; [exact Htext|].
  split; [exact Hid|]. split; [exact Hit|]. split; [exact Hlen|].
  split; [exact Gf|].
  intros Hda Hta. split; apply incl_app;
    auto using incl_appl, incl_appr.
Qed.

Lemma find_assets_grows_lists_witness :
  exists added data' thumbnails',
    listed (ok_or ∅ (find_assets reference_probes reference_env record_with_links))
           "assets" = Some ([] ++ added) /\
    listed (ok_or ∅ (find_assets reference_probes reference_env record_with_links))
           "data_assets" = Some ([] ++ data') /\
    listed (ok_or ∅ (find_assets reference_probes reference_env record_with_links))
           "thumbnail_assets" = Some ([] ++ thumbnails') /\
    incl data' added /\ incl thumbnails' added /\ (length added <= 5)%nat.
Proof.
  destruct (find_assets_grows_lists reference_probes reference_env
              record_with_links
              (ok_or ∅ (find_assets reference_probes reference_env record_with_links))
              [] [] []
              [link "https://example.org/data/grid.nc" "grid";
               link "http://ipt.vliz.be/eurobis/resource?r=zoobenthos" "occurrences";
               link "https://example.org/preview.png" "preview";
               PDict [(ustr "name", pstr "broken")];
               link "https://example.org/geoserver/wms?" "depth"])
    as (added & data' & thumbnails' & Ha & Hd & Ht & _ & Hid & Hit & Hlen & _).
  - apply is_ok_eq. vm_compute. reflexivity.
  - reflexivity.
  - reflexivity.
  - reflexivity.
  - reflexivity.
  - exists added, data', thumbnails'.
    split; [exact Ha|]. split; [exact Hd|]. split; [exact Ht|].
    split; [exact Hid|]. split; [exact Hit | exact Hlen].
Defined.

(** ** Replacement keeps what it writes *)

Lemma contains_app_r p a b : contains p b = true -> contains p (a ++ b) = true.
Proof.
  intros H. induction a as [|c a IH]; [exact H|].
  cbn [app]. rewrite contains_cons_eq, IH. apply orb_true_r.
Qed.

Lemma contains_prefix p b : contains p (p ++ b) = true.
Proof. exact (contains_app p [] b). Qed.

(** A text in which [old] occurs holds [new] once [old] is replaced. *)
Lemma replace_contains_new old new s :
  old <> [] -> contains old s = true -> contains new (replace old new s) = true.
Proof.
  intros Hold. unfold replace.
  induction s as [|c s IH]; intros Hc.
  - destruct old; [contradiction | discriminate Hc].
  - rewrite replace_from_0_cons. rewrite contains_cons_eq in Hc.
    destruct (startswith old (c :: s)).
    + apply contains_prefix.
    + cbn [orb] in Hc. rewrite contains_cons_eq, (IH Hc). apply orb_true_r.
Qed.

(** ** IPT resources at the call site *)

(** X17: in [sort_asset] a link classified as [iptresource] never
    raises the [ValueError] of [convert_ipt_to_dwca].  On a record with
    an identifier, a title and the two lists, the record comes back as
    it was when the archive does not answer, and else with the archive
    URL, which holds [/archive.do?r=], appended to the assets and to the
    data assets and written under [dwca_asset]. *)
Theorem sort_asset_ipt_resource (W : Probes) (E : Env) (md : metadata)
    (link_item : pyval) (url : pystr) (m : media_type)
    (assets data : list pyval) :
  get_media_type url = Some m ->
  asset_type m = ustr "iptresource" ->
  is_Some (md !! "geonetwork_uri") ->
  is_Some (md !! "title") ->
  listed md "assets" = Some assets ->
  listed md "data_assets" = Some data ->
  exists md',
    sort_asset W E md link_item url (asset_type m) (mediatype m) (role m)
      = Ok md' /\
    (md' = md \/
     exists dwca_url,
       contains (ustr "/archive.do?r=") dwca_url = true /\
       listed md' "assets" = Some (assets ++ [PStr dwca_url]) /\
       listed md' "data_assets" = Some (data ++ [PStr dwca_url]) /\
       md' !! "dwca_asset" = Some (PStr dwca_url)).
Proof.
  intros Hm Hty [uri Huri] [title Htitle] Ha Hd.
  assert (Hfound : re_search ipt_resource_pattern url = true).
  { apply iptresource_found. rewrite Hm, <- Hty. reflexivity. }
  pose proof (ipt_resource_pattern_literal url Hfound) as Hurl.
  set (https_url := if startswith (ustr "http://") url
                    then replace (ustr "http://") (ustr "https://") url
                    else url).
  assert (Hhttps : contains (ustr "/resource?r=") https_url = true).
  { unfold https_url. destruct (startswith _ url); [|exact Hurl].
    apply http_rewrite_keeps_resource, Hurl. }
  set (dwca_url := replace (ustr "/resource?r=") (ustr "/archive.do?r=") https_url).
  assert (Hconv : convert_ipt_to_dwca E url
                  = Ok (if option_bool_truthy (test_link E dwca_url)
                        then Some dwca_url else None)).
  { unfold convert_ipt_to_dwca. fold https_url. rewrite Hhttps.
    cbn [rbind]. fold dwca_url. destruct (option_bool_truthy _); reflexivity. }
  assert (Harchive : contains (ustr "/archive.do?r=") dwca_url = true).
  { unfold dwca_url. apply replace_contains_new; [discriminate | exact Hhttps]. }
  unfold sort_asset, md_get. rewrite Huri, Hty, Hconv. cbn [rbind].
  change (pystr_eqb (ustr "iptresource") (ustr "wms")) with false.
  change (pystr_eqb (ustr "iptresource") (ustr "wfs")) with false.
  change (pystr_eqb (ustr "iptresource") (ustr "iptresource")) with true.
  cbn iota.
  destruct (option_bool_truthy (test_link E dwca_url)).
  - assert (Htruthy : text_truthy (Some dwca_url) = true).
    { destruct dwca_url; [discriminate Harchive | reflexivity]. }
    rewrite Htruthy. cbn [from_option id].
    unfold md_append. unfold listed in Ha, Hd.
    destruct (md !! "assets") as [[| | | | |l| |]|] eqn:Ea; try discriminate Ha.
    injection Ha as ->. cbn [rbind].
    rewrite !lookup_insert_ne by discriminate.
    destruct (md !! "data_assets") as [[| | | | |l| |]|] eqn:Ed; try discriminate Hd.
    injection Hd as ->.
    eexists. split; [reflexivity|]. right. exists dwca_url.
    split; [exact Harchive|]. unfold listed.
    rewrite lookup_insert_ne, lookup_insert_ne, lookup_insert_eq by discriminate.
    rewrite lookup_insert_eq.
    rewrite lookup_insert_ne, lookup_insert_eq by discriminate.
    auto.
  - cbn [text_truthy]. rewrite Htitle. cbn [rbind].
    eexists. split; [reflexivity|]. left. reflexivity.
Qed.

Lemma sort_asset_ipt_resource_witness :
  exists md',
    sort_asset reference_probes reference_env record_with_links
      (link "http://ipt.vliz.be/eurobis/resource?r=zoobenthos" "occurrences")
      (ustr "http://ipt.vliz.be/eurobis/resource?r=zoobenthos")
      (ustr "iptresource") (ustr "application/html") [ustr "metadata"] = Ok md' /\
    (md' = record_with_links \/
     exists dwca_url,
       contains (ustr "/archive.do?r=") dwca_url = true /\
       listed md' "assets" = Some ([] ++ [PStr dwca_url]) /\
       listed md' "data_assets" = Some ([] ++ [PStr dwca_url]) /\
       md' !! "dwca_asset" = Some (PStr dwca_url)).
Proof.
  apply (sort_asset_ipt_resource reference_probes reference_env
           record_with_links
           (link "http://ipt.vliz.be/eurobis/resource?r=zoobenthos" "occurrences")
           (ustr "http://ipt.vliz.be/eurobis/resource?r=zoobenthos")
           (mt "iptresource" "IPT Resource" "application/html" "metadata")
           [] []).
  - vm_compute. reflexivity.
  - reflexivity.
  - vm_compute. eexists. reflexivity.
  - vm_compute. eexists. reflexivity.
  - reflexivity.
  - reflexivity.
Defined.

(** ** WMS requests *)

(** X18: a question mark at the end of the URL of a WMS link makes no
    difference: the capabilities are asked at the same address, the
    map request is the same text, and [test_wms] gives the same
    answer. *)
Theorem test_wms_question_mark (W : Probes) (link_item : pyval) (url : pystr) :
  endswith (ustr "?") url = false ->
  get_wms_version_and_bbox W (url ++ ustr "?") = get_wms_version_and_bbox W url /\
  (forall layers bbox width height version,
     construct_wms_request (url ++ ustr "?") layers bbox width height version
     = construct_wms_request url layers bbox width height version) /\
  test_wms W link_item (url ++ ustr "?") = test_wms W link_item url.
Proof.
  intros Hurl.
  assert (Hq : endswith (ustr "?") (url ++ ustr "?") = true) by apply endswith_app.
  assert (Hcaps : get_wms_version_and_bbox W (url ++ ustr "?")
                  = get_wms_version_and_bbox W url).
  { unfold get_wms_version_and_bbox. rewrite Hq, Hurl.
    change (ustr "?") with [63%N]. rewrite removelast_last. reflexivity. }
  assert (Hreq : forall layers bbox width height version,
             construct_wms_request (url ++ ustr "?") layers bbox width height version
             = construct_wms_request url layers bbox width height version).
  { intros. unfold construct_wms_request. rewrite Hq, Hurl. reflexivity. }
  split; [exact Hcaps|]. split; [exact Hreq|].
  unfold test_wms. rewrite Hcaps.
  destruct (py_getitem link_item "name"); cbn [rbind]; [|reflexivity].
  destruct (get_wms_version_and_bbox W url) as [version bbox].
  rewrite Hreq. reflexivity.
Qed.

Lemma test_wms_question_mark_witness :
  test_wms reference_probes (link "https://example.org/geoserver/wms?" "depth")
           (ustr "https://example.org/geoserver/wms" ++ ustr "?")
  = test_wms reference_probes (link "https://example.org/geoserver/wms?" "depth")
             (ustr "https://example.org/geoserver/wms").
Proof.
  apply (test_wms_question_mark reference_probes
           (link "https://example.org/geoserver/wms?" "depth")
           (ustr "https://example.org/geoserver/wms")).
  vm_compute. reflexivity.
Defined.

(** ** The EurOBIS toolbox *)

Lemma last_segment_spec sep s : forall acc seg,
  last_segment sep acc s = seg ->
  Forall (fun c => c <> sep) acc ->
  Forall (fun c => c <> sep) seg /\
  exists pre, acc ++ s = pre ++ seg /\
              (pre = [] \/ exists pre', pre = pre' ++ [sep]).
Proof.
  induction s as [|c s IH]; intros acc seg Hseg Hacc; cbn [last_segment] in Hseg.
  - subst seg. split; [exact Hacc|]. exists []. rewrite app_nil_r. auto.
  - destruct (c =? sep)%N eqn:Hc.
    + apply N.eqb_eq in Hc. subst c.
      destruct (IH [] seg Hseg) as (Hno & pre & Hpre & Hend); [constructor|].
      split; [exact Hno|]. cbn [app] in Hpre.
      exists (acc ++ sep :: pre). split.
      * rewrite Hpre, <- app_assoc. reflexivity.
      * right. destruct Hend as [-> | [pre' ->]].
        -- exists acc. reflexivity.
        -- exists (acc ++ sep :: pre'). rewrite <- app_assoc. reflexivity.
    + apply N.eqb_neq in Hc.
      destruct (IH (acc ++ [c]) seg Hseg) as (Hno & pre & Hpre & Hend).
      { apply Forall_app. split; [exact Hacc|]. constructor; [exact Hc|constructor]. }
      split; [exact Hno|]. exists pre. split; [|exact Hend].
      rewrite <- Hpre, <- app_assoc. reflexivity.
Qed.

(** X19: when [convert_eurobis_toolbox_to_wfs] answers with a URL, that
    URL is the fixed WFS request followed by the part of the toolbox
    URL after its last slash (the whole URL when it has no slash, the
    empty text when it ends in one), and a HEAD request to it gave a
    content type that contains [text/csv]. *)
Theorem convert_eurobis_toolbox_to_wfs_dataset (W : Probes) (url wfs_url : pystr) :
  convert_eurobis_toolbox_to_wfs W url = Some wfs_url ->
  exists pre dataset_id content_type,
    url = pre ++ dataset_id /\
    (pre = [] \/ endswith (ustr "/") pre = true) /\
    Forall (fun c => c <> 47%N) dataset_id /\
    wfs_url = eurobis_wfs_base_url ++ dataset_id /\
    requests_head W wfs_url = Some content_type /\
    contains (ustr "text/csv") content_type = true.
Proof.
  unfold convert_eurobis_toolbox_to_wfs. intros H.
  set (dataset_id := last_segment 47 [] url) in *.
  destruct (last_segment_spec 47 url [] dataset_id eq_refl)
    as (Hno & pre & Hpre & Hend); [constructor|].
  cbn [app] in Hpre.
  set (base := eurobis_wfs_base_url) in *. clearbody base.
  destruct (test_wfs W (base ++ dataset_id) (ustr "csv")) eqn:Ht; [|discriminate].
  injection H as <-.
  unfold test_wfs in Ht.
  change (List.find _ expected_formats) with (Some ("csv", "text/csv")%string) in Ht.
  cbn beta iota in Ht.
  destruct (requests_head W (base ++ dataset_id)) as [ct|] eqn:Hh; [|discriminate].
  exists pre, dataset_id, ct.
  split; [exact Hpre|]. split.
  { destruct Hend as [-> | [pre' ->]]; [left; reflexivity|right].
    apply (endswith_app [47%N]). }
  split; [exact Hno|]. split; [reflexivity|]. split; [reflexivity|exact Ht].
Qed.

Lemma convert_eurobis_toolbox_to_wfs_dataset_witness :
  exists pre dataset_id content_type,
    ustr "https://www.eurobis.org/toolbox/en/download/occurrence/dataset/4494"
      = pre ++ dataset_id /\
    (pre = [] \/ endswith (ustr "/") pre = true) /\
    Forall (fun c => c <> 47%N) dataset_id /\
    eurobis_wfs_base_url ++ ustr "4494" = eurobis_wfs_base_url ++ dataset_id /\
    requests_head reference_probes (eurobis_wfs_base_url ++ ustr "4494")
      = Some content_type /\
    contains (ustr "text/csv") content_type = true.
Proof.
  apply (convert_eurobis_toolbox_to_wfs_dataset reference_probes
           (ustr "https://www.eurobis.org/toolbox/en/download/occurrence/dataset/4494")
           (eurobis_wfs_base_url ++ ustr "4494")).
  vm_compute. reflexivity.
Defined.
